(** * The packet transfer engine of the Tegra I2C driver

    A shallow embedding of [drivers/i2c/tegra_i2c.c]: the packet header
    builder, the three polling loops, the word transfer loop, the recovery
    path and the adapter entry points layered on them.

    The driver talks to the hardware through memory-mapped registers.  The
    hardware is a parameter of the model (a [device]: a state and the answers
    it gives to register reads); every register access, delay and clock or
    reset request of the driver is recorded as an [event], so that statements
    about "how many FIFO words" or "in which order" are statements about the
    list of events of a run. *)

From Stdlib Require Import ZArith List Lia Bool.
From Stdlib Require Strings.Byte.
Import ListNotations.
Local Open Scope Z_scope.

(** ** Machine integers *)

(** [u32] arithmetic wraps modulo 2^32. *)
Definition wrap32 (z : Z) : Z := z mod 2 ^ 32.

(** Conversion of a 32-bit pattern to [int] (two's complement). *)
Definition to_int (z : Z) : Z :=
  let u := wrap32 z in if u <? 2 ^ 31 then u else u - 2 ^ 32.

(** Unary minus on [int]. *)
Definition neg_int (z : Z) : Z := to_int (- z).

(** Modelled from the spec: the macro [DIV_ROUND_UP] comes from a common
    header that is not part of this file; the word count it yields is given
    as [ceil(len / 4)] for every length, which for a positive divisor is
    this quotient (taken on the integers, the sum not reduced modulo
    2^32). *)
Definition DIV_ROUND_UP (n d : Z) : Z := (n + d - 1) / d.

(** ** Bytes and the object representation of a [u32] *)

Definition byte : Type := Byte.byte.

Definition byte_val (b : byte) : Z := Z.of_N (Byte.to_N b).

Definition byte_of_Z (z : Z) : byte :=
  match Byte.of_N (Z.to_N (z mod 256)) with
  | Some b => b
  | None => Byte.x00
  end.

(** The four bytes of a word in memory order (the CPU is little-endian). *)
Definition u32_bytes (w : Z) : list byte :=
  [ byte_of_Z w; byte_of_Z (Z.shiftr w 8);
    byte_of_Z (Z.shiftr w 16); byte_of_Z (Z.shiftr w 24) ].

(** The word whose object representation starts with the given bytes. *)
Fixpoint u32_of_bytes (bs : list byte) : Z :=
  match bs with
  | [] => 0
  | b :: bs' => Z.lor (byte_val b) (Z.shiftl (u32_of_bytes bs') 8)
  end.

(** ** Memory *)

Definition memory := Z -> byte.

Definition store8 (m : memory) (a : Z) (b : byte) : memory :=
  fun x => if x =? a then b else m x.

(** [n] bytes starting at [p]. *)
Fixpoint read_bytes (m : memory) (p : Z) (n : nat) : list byte :=
  match n with
  | O => []
  | S n' => m p :: read_bytes m (p + 1) n'
  end.

Fixpoint write_bytes (m : memory) (p : Z) (bs : list byte) : memory :=
  match bs with
  | [] => m
  | b :: bs' => write_bytes (store8 m p b) (p + 1) bs'
  end.

(** Reading the word a [u32] pointer [p] points to. *)
Definition load_u32 (m : memory) (p : Z) : Z :=
  byte_val (m p) + 2 ^ 8 * byte_val (m (p + 1))
  + 2 ^ 16 * byte_val (m (p + 2)) + 2 ^ 24 * byte_val (m (p + 3)).

(** Storing [w] through a [u32] pointer [p]. *)
Definition store_u32 (m : memory) (p : Z) (w : Z) : memory :=
  store8 (store8 (store8 (store8 m p (byte_of_Z w))
                         (p + 1) (byte_of_Z (w / 2 ^ 8)))
                 (p + 2) (byte_of_Z (w / 2 ^ 16)))
         (p + 3) (byte_of_Z (w / 2 ^ 24)).

(** ** Constants of the register interface

    The bit-field layouts, the timeout budget and the FIFO depth live in
    [asm/arch-tegra/tegra_i2c.h] and the clock headers; the driver only names
    them.  They are collected in a record and every definition below takes
    them from it. *)

Record tegra_i2c_h := {
  PROTOCOL_TYPE_I2C : Z;
  PKT_HDR1_PROTOCOL_SHIFT : Z;
  PKT_HDR1_PKT_ID_SHIFT : Z;
  PKT_HDR1_CTLR_ID_SHIFT : Z;
  PKT_HDR2_PAYLOAD_SIZE_SHIFT : Z;
  PKT_HDR3_SLAVE_ADDR_SHIFT : Z;
  PKT_HDR3_READ_MODE_MASK : Z;
  I2C_IS_WRITE : Z;
  I2C_CNFG_NEW_MASTER_FSM_MASK : Z;
  I2C_CNFG_PACKET_MODE_MASK : Z;
  I2C_SL_CNFG_NEWSL_MASK : Z;
  DVC_CTRL_REG3_I2C_HW_SW_PROG_MASK : Z;
  TX_FIFO_EMPTY_CNT_MASK : Z;
  TX_FIFO_EMPTY_CNT_SHIFT : Z;
  TX_FIFO_FULL_CNT_MASK : Z;
  TX_FIFO_FULL_CNT_SHIFT : Z;
  I2C_FIFO_DEPTH : Z;
  I2C_TIMEOUT_USEC : Z;
  I2C_INT_NO_ACK_MASK : Z;
  I2C_INT_ARBITRATION_LOST_MASK : Z;
  I2C_INT_XFER_COMPLETE_MASK : Z;
  CLOCK_ID_PERIPH : Z;
  CLK_MULT_STD_FAST_MODE : Z
}.

(** ** Registers, events and devices *)

(** A register is named by the base pointer of its block and its field. *)
Inductive mmio : Type :=
| tx_fifo (control : Z)
| rx_fifo (control : Z)
| fifo_status (control : Z)
| int_status (control : Z)
| cnfg (regs : Z)
| sl_cnfg (regs : Z)
| clk_div (regs : Z)
| dvc_cnfg (dvc : Z)
| dvc_ctrl3 (dvc : Z).

Inductive event : Type :=
| EvReadl (r : mmio) (v : Z)
| EvWritel (v : Z) (r : mmio)
| EvUdelay (usec : Z)
| EvResetPeriph (periph_id us_delay : Z)
| EvClockStart (periph_id parent rate : Z)
| EvFuncmux (periph_id config : Z).

(** The hardware: what a register read returns, and how the hardware state
    moves on every other request of the driver. *)
Record device := {
  dev_state : Type;
  dev_readl : mmio -> dev_state -> Z * dev_state;
  dev_notify : event -> dev_state -> dev_state
}.

(** ** Driver data *)

(** [struct i2c_bus]. *)
Record i2c_bus := {
  id : Z;
  periph_id : Z;
  speed : Z;
  pinmux_config : Z;
  control : Z;
  regs : Z;
  is_dvc : Z;
  is_scs : Z;
  inited : Z
}.

(** [struct i2c_trans_info]; [buf] is the address of the payload buffer. *)
Record i2c_trans_info := {
  address : Z;
  flags : Z;
  buf : Z;
  num_bytes : Z;
  is_10bit_address : Z
}.

(** The part of [struct i2c_adapter] the driver reads. *)
Record i2c_adapter := { hwadapnr : Z }.

Definition zero_bus : i2c_bus :=
  {| id := 0; periph_id := 0; speed := 0; pinmux_config := 0; control := 0;
     regs := 0; is_dvc := 0; is_scs := 0; inited := 0 |}.

(** ** Machine state

    The hardware, the memory the payload buffers live in, and the driver's
    table of controllers. *)
Record machine_state (dev : device) := {
  hw : dev_state dev;
  mem : memory;
  i2c_controllers : list i2c_bus
}.
Arguments hw {dev} _.
Arguments mem {dev} _.
Arguments i2c_controllers {dev} _.

(** ** Instances to run the model on

    The theorems below hold for every choice of the constants and for every
    device.  The following instances serve to run the driver on examples. *)

(** The constants with the bit positions of the packet-mode interface of
    Tegra20 class controllers: a 10 ms budget, a FIFO of depth 8. *)
Definition tegra_h : tegra_i2c_h := {|
  PROTOCOL_TYPE_I2C := 1;
  PKT_HDR1_PROTOCOL_SHIFT := 4;
  PKT_HDR1_PKT_ID_SHIFT := 16;
  PKT_HDR1_CTLR_ID_SHIFT := 12;
  PKT_HDR2_PAYLOAD_SIZE_SHIFT := 0;
  PKT_HDR3_SLAVE_ADDR_SHIFT := 0;
  PKT_HDR3_READ_MODE_MASK := 2 ^ 19;
  I2C_IS_WRITE := 1;
  I2C_CNFG_NEW_MASTER_FSM_MASK := 2 ^ 11;
  I2C_CNFG_PACKET_MODE_MASK := 2 ^ 10;
  I2C_SL_CNFG_NEWSL_MASK := 2 ^ 2;
  DVC_CTRL_REG3_I2C_HW_SW_PROG_MASK := 2 ^ 26;
  TX_FIFO_EMPTY_CNT_MASK := 240;
  TX_FIFO_EMPTY_CNT_SHIFT := 4;
  TX_FIFO_FULL_CNT_MASK := 15;
  TX_FIFO_FULL_CNT_SHIFT := 0;
  I2C_FIFO_DEPTH := 8;
  I2C_TIMEOUT_USEC := 10000;
  I2C_INT_NO_ACK_MASK := 2 ^ 3;
  I2C_INT_ARBITRATION_LOST_MASK := 2 ^ 2;
  I2C_INT_XFER_COMPLETE_MASK := 2 ^ 7;
  CLOCK_ID_PERIPH := 2;
  CLK_MULT_STD_FAST_MODE := 8
|}.

(** A device without state that answers every read of a register with the
    same value. *)
Definition const_dev (answer : mmio -> Z) : device := {|
  dev_state := unit;
  dev_readl := fun r d => (answer r, d);
  dev_notify := fun _ d => d
|}.

(** Always ready, every transfer completes; the receive FIFO yields
    0x44332211. *)
Definition ideal_dev : device :=
  const_dev (fun r =>
    match r with
    | fifo_status _ => 129
    | int_status _ => 128
    | rx_fifo _ => 1144201745
    | _ => 0
    end).

(** Every register reads 0: no FIFO is ever ready, nothing completes. *)
Definition stuck_dev : device := const_dev (fun _ => 0).

(** FIFOs ready, the target does not acknowledge: the interrupt status
    reads 8. *)
Definition nack_dev : device :=
  const_dev (fun r =>
    match r with
    | fifo_status _ => 129
    | int_status _ => 8
    | _ => 0
    end).

(** FIFOs ready, the interrupt status stays 0. *)
Definition silent_dev : device :=
  const_dev (fun r =>
    match r with
    | fifo_status _ => 129
    | _ => 0
    end).

(** The FIFO status reads 1: the count selected by [TX_FIFO_FULL_CNT_MASK]
    of [tegra_h] is 1 and every other bit is 0. *)
Definition tx_count_dev : device :=
  const_dev (fun r => match r with fifo_status _ => 1 | _ => 0 end).

(** The FIFO status reads 0xFFFFFFF0: the count selected by
    [TX_FIFO_FULL_CNT_MASK] of [tegra_h] is 0 and every other bit, the whole
    transmit empty-slot count among them, is 1. *)
Definition other_bits_dev : device :=
  const_dev (fun r => match r with fifo_status _ => 4294967280 | _ => 0 end).



(** Controller 0 of the table, initialized, not a DVC; and the same
    controller before its initialization. *)
Definition bus0 : i2c_bus :=
  {| id := 0; periph_id := 12; speed := 100000; pinmux_config := 0;
     control := 4096; regs := 4000; is_dvc := 0; is_scs := 0; inited := 1 |}.

Definition bus0_uninited : i2c_bus :=
  {| id := 0; periph_id := 12; speed := 100000; pinmux_config := 0;
     control := 4096; regs := 4000; is_dvc := 0; is_scs := 0; inited := 0 |}.

Definition adap0 : i2c_adapter := {| hwadapnr := 0 |}.

(** Descriptors as [tegra_i2c_write_data] and [tegra_i2c_read_data] build
    them under [tegra_h], for the device at 7-bit address 0x50. *)
Definition write_desc (buffer len : Z) : i2c_trans_info :=
  {| address := 160; flags := 1; buf := buffer; num_bytes := len;
     is_10bit_address := 0 |}.

Definition read_desc (buffer len : Z) : i2c_trans_info :=
  {| address := 161; flags := 0; buf := buffer; num_bytes := len;
     is_10bit_address := 0 |}.

(** A memory whose byte at address [a] is [a mod 256]. *)
Definition ramp : memory := fun a => byte_of_Z a.

Definition start_state (dev : device) (d : dev_state dev)
    (table : list i2c_bus) : machine_state dev :=
  {| hw := d; mem := ramp; i2c_controllers := table |}.

(** ** Board configuration

    Constants and collaborators of the configuration code
    ([i2c_get_config], [process_nodes], [tegra_i2c_get_dvc_bus_num]) that
    are declared outside the driver: the default pin-mux selection, the
    device-tree error code, the size of the controller table and the place
    of the FIFO/status block inside each of the two register layouts. *)
Record board_h := {
  FUNCMUX_DEFAULT : Z;
  FDT_ERR_NOTFOUND : Z;
  TEGRA_I2C_NUM_CONTROLLERS : Z;
  I2C_CTLR_CONTROL_OFFSET : Z;
  DVC_CTLR_CONTROL_OFFSET : Z
}.

(** What the device tree answers for a node: [fdtdec_get_addr(blob, node,
    "reg")], [fdtdec_get_int(blob, node, "clock-frequency", 0)] and
    [clock_decode_periph_id(blob, node)]. *)
Record fdt_blob := {
  fdt_reg : Z -> Z;
  fdt_clock_frequency : Z -> Z;
  fdt_periph_id : Z -> Z
}.

(** What [process_nodes] hands back: its return value, the node list as it
    leaves it, and the bus numbers it printed as "failed to decode". *)
Record nodes_result := {
  nodes_rc : Z;
  nodes_list : list Z;
  nodes_console : list Z
}.

(** A board with a table of four controllers. *)
Definition tegra_board : board_h := {|
  FUNCMUX_DEFAULT := 0;
  FDT_ERR_NOTFOUND := 1;
  TEGRA_I2C_NUM_CONTROLLERS := 4;
  I2C_CTLR_CONTROL_OFFSET := 80;
  DVC_CTLR_CONTROL_OFFSET := 64
|}.

(** A device tree in which node [k] describes a controller at [4096 * k]
    running at 100 kHz, with peripheral id [k + 10] except for node 3, whose
    clock cannot be decoded. *)
Definition sample_blob : fdt_blob := {|
  fdt_reg := fun node => 4096 * node;
  fdt_clock_frequency := fun _ => 100000;
  fdt_periph_id := fun node => if node =? 3 then -1 else node + 10
|}.

(** A DVC controller, initialized. *)
Definition dvc_bus : i2c_bus :=
  {| id := 2; periph_id := 14; speed := 400000; pinmux_config := 0;
     control := 8256; regs := 8192; is_dvc := 1; is_scs := 0; inited := 1 |}.

(** The compatible strings [i2c_init_board] looks for. *)
Inductive compat_id :=
  | COMPAT_NVIDIA_TEGRA114_I2C
  | COMPAT_NVIDIA_TEGRA20_I2C
  | COMPAT_NVIDIA_TEGRA20_DVC.

(** The alias lookups of the device-tree library for the name "i2c" and at
    most [TEGRA_I2C_NUM_CONTROLLERS] nodes: given the compatible string and
    the node list as it is found, the count returned and the node list as it
    is left. *)
Record fdt_aliases := {
  fdtdec_find_aliases_for_id : compat_id -> list Z -> Z * list Z;
  fdtdec_add_aliases_for_id : compat_id -> list Z -> Z * list Z
}.

(** A device tree with two Tegra20 I2C nodes (1 and 2) at the positions 0
    and 1 and a DVC node (4) added at the first free position. *)
Definition sample_aliases : fdt_aliases := {|
  fdtdec_find_aliases_for_id := fun c _ =>
    match c with
    | COMPAT_NVIDIA_TEGRA20_I2C => (2, [1; 2; 0; 0])
    | _ => (0, [0; 0; 0; 0])
    end;
  fdtdec_add_aliases_for_id := fun c nl =>
    match c with
    | COMPAT_NVIDIA_TEGRA20_DVC => (3, [-1; -1; 4; 0])
    | _ => (0, nl)
    end
|}.

Section Driver.

Variable h : tegra_i2c_h.
Variable dev : device.

Local Abbreviation state := (machine_state dev).

(** ** The driver monad *)

(** The result of running a piece of the driver: its value, the state it
    leaves and the events it caused, oldest first. *)
Record outcome (A : Type) := {
  value : A;
  final : state;
  events : list event
}.
Arguments value {A} _.
Arguments final {A} _.
Arguments events {A} _.

Definition M (A : Type) : Type := state -> outcome A.

Definition ret {A} (a : A) : M A :=
  fun s => {| value := a; final := s; events := [] |}.

Definition bind {A B} (m : M A) (k : A -> M B) : M B :=
  fun s =>
    let r1 := m s in
    let r2 := k (value r1) (final r1) in
    {| value := value r2; final := final r2;
       events := events r1 ++ events r2 |}.

Notation "x <- m ;; k" := (bind m (fun x => k))
  (at level 61, m at next level, right associativity).
Notation "m ;; k" := (bind m (fun _ => k))
  (at level 61, right associativity).

Definition with_hw (s : state) (d : dev_state dev) : state :=
  {| hw := d; mem := mem s; i2c_controllers := i2c_controllers s |}.

Definition with_mem (s : state) (m : memory) : state :=
  {| hw := hw s; mem := m; i2c_controllers := i2c_controllers s |}.

Definition with_controllers (s : state) (t : list i2c_bus) : state :=
  {| hw := hw s; mem := mem s; i2c_controllers := t |}.

(** A request other than a read: the device is told, the event is logged. *)
Definition emit (e : event) : M unit :=
  fun s => {| value := tt; final := with_hw s (dev_notify dev e (hw s));
              events := [e] |}.

Definition readl (r : mmio) : M Z :=
  fun s =>
    let a := dev_readl dev r (hw s) in
    let v := wrap32 (fst a) in
    {| value := v; final := with_hw s (snd a); events := [EvReadl r v] |}.

Definition writel (v : Z) (r : mmio) : M unit := emit (EvWritel v r).
Definition udelay (usec : Z) : M unit := emit (EvUdelay usec).
Definition reset_periph (pid us_delay : Z) : M unit :=
  emit (EvResetPeriph pid us_delay).
Definition clock_start_periph_pll (pid parent rate : Z) : M unit :=
  emit (EvClockStart pid parent rate).
Definition funcmux_select (pid config : Z) : M unit :=
  emit (EvFuncmux pid config).

(** Modelled from the spec: the macro [setbits_le32] comes from the I/O
    header, which is not part of this file; the recovery is said to
    re-enable one bit of the slave-config register, so the register is read,
    the bits are or-ed in and the result is written back. *)
Definition setbits_le32 (r : mmio) (set : Z) : M unit :=
  v <- readl r ;; writel (Z.lor v (wrap32 set)) r.

Definition get_mem : M memory :=
  fun s => {| value := mem s; final := s; events := [] |}.

Definition put_mem (m : memory) : M unit :=
  fun s => {| value := tt; final := with_mem s m; events := [] |}.

(** C truth value of an integer. *)
Definition truthy (z : Z) : bool := negb (z =? 0).

(** ** Recovery: [set_packet_mode] and [i2c_reset_controller] *)

Definition set_packet_mode (i2c_bus : i2c_bus) : M unit :=
  let config :=
    wrap32 (Z.lor (I2C_CNFG_NEW_MASTER_FSM_MASK h)
                  (I2C_CNFG_PACKET_MODE_MASK h)) in
  if truthy (is_dvc i2c_bus) then
    writel config (dvc_cnfg (regs i2c_bus))
  else
    writel config (cnfg (regs i2c_bus)) ;;
    setbits_le32 (sl_cnfg (regs i2c_bus)) (I2C_SL_CNFG_NEWSL_MASK h).

Definition i2c_reset_controller (i2c_bus : i2c_bus) : M unit :=
  reset_periph (periph_id i2c_bus) 1 ;;
  set_packet_mode i2c_bus.

Definition i2c_init_controller (i2c_bus : i2c_bus) : M unit :=
  clock_start_periph_pll (periph_id i2c_bus) (CLOCK_ID_PERIPH h)
    (wrap32 (speed i2c_bus * 2 * 8)) ;;
  (if truthy (is_scs i2c_bus) then
     v <- readl (clk_div (regs i2c_bus)) ;;
     let clk_div_stdfst_mode := to_int (Z.shiftr v 16) in
     clock_start_periph_pll (periph_id i2c_bus) (CLOCK_ID_PERIPH h)
       (wrap32 (CLK_MULT_STD_FAST_MODE h * (clk_div_stdfst_mode + 1)
                * speed i2c_bus * 2))
   else ret tt) ;;
  i2c_reset_controller i2c_bus ;;
  (if truthy (is_dvc i2c_bus) then
     setbits_le32 (dvc_ctrl3 (regs i2c_bus))
       (DVC_CTRL_REG3_I2C_HW_SW_PROG_MASK h)
   else ret tt) ;;
  funcmux_select (periph_id i2c_bus) (pinmux_config i2c_bus).

(** ** The packet header builder *)

Definition send_packet_headers (i2c_bus : i2c_bus) (trans : i2c_trans_info)
    (packet_id : Z) : M unit :=
  let data :=
    wrap32 (Z.shiftl (PROTOCOL_TYPE_I2C h) (PKT_HDR1_PROTOCOL_SHIFT h)) in
  let data :=
    Z.lor data (wrap32 (Z.shiftl packet_id (PKT_HDR1_PKT_ID_SHIFT h))) in
  let data :=
    Z.lor data (wrap32 (Z.shiftl (id i2c_bus) (PKT_HDR1_CTLR_ID_SHIFT h))) in
  writel data (tx_fifo (control i2c_bus)) ;;
  let data :=
    wrap32 (Z.shiftl (wrap32 (num_bytes trans - 1))
                     (PKT_HDR2_PAYLOAD_SIZE_SHIFT h)) in
  writel data (tx_fifo (control i2c_bus)) ;;
  let data :=
    wrap32 (Z.shiftl (address trans) (PKT_HDR3_SLAVE_ADDR_SHIFT h)) in
  let data :=
    if truthy (Z.land (flags trans) (I2C_IS_WRITE h)) then data
    else Z.lor data (wrap32 (PKT_HDR3_READ_MODE_MASK h)) in
  writel data (tx_fifo (control i2c_bus)).

(** ** The polling loops *)

(** Number of times the body of
    [while (timeout_us >= 0) { ...; udelay(10); timeout_us -= 10; }]
    can run when [timeout_us] starts at the given value. *)
Definition poll_iterations (timeout_us : Z) : nat :=
  Z.to_nat (timeout_us / 10 + 1).

(** The loop itself: the body either returns from the function
    ([Some v]) or falls through to the delay ([None]); [after] is what
    is returned once the loop condition fails. *)
Fixpoint while_timeout (n : nat) (body : M (option Z)) (after : Z) : M Z :=
  match n with
  | O => ret after
  | S n' =>
    r <- body ;;
    match r with
    | Some v => ret v
    | None => udelay 10 ;; while_timeout n' body after
    end
  end.

Definition wait_for_tx_fifo_empty (control : Z) : M Z :=
  while_timeout (poll_iterations (I2C_TIMEOUT_USEC h))
    (st <- readl (fifo_status control) ;;
     let count :=
       Z.shiftr (Z.land st (TX_FIFO_EMPTY_CNT_MASK h))
                (TX_FIFO_EMPTY_CNT_SHIFT h) in
     if count =? wrap32 (I2C_FIFO_DEPTH h) then ret (Some 1) else ret None)
    0.

Definition wait_for_rx_fifo_notempty (control : Z) : M Z :=
  while_timeout (poll_iterations (I2C_TIMEOUT_USEC h))
    (st <- readl (fifo_status control) ;;
     let count :=
       Z.shiftr (Z.land st (TX_FIFO_FULL_CNT_MASK h))
                (TX_FIFO_FULL_CNT_SHIFT h) in
     if truthy count then ret (Some 1) else ret None)
    0.

Definition wait_for_transfer_complete (control : Z) : M Z :=
  while_timeout (poll_iterations (I2C_TIMEOUT_USEC h))
    (v <- readl (int_status control) ;;
     let status := to_int v in
     if truthy (Z.land status (I2C_INT_NO_ACK_MASK h)) then
       ret (Some (neg_int status))
     else if truthy (Z.land status (I2C_INT_ARBITRATION_LOST_MASK h)) then
       ret (Some (neg_int status))
     else if truthy (Z.land status (I2C_INT_XFER_COMPLETE_MASK h)) then
       ret (Some 0)
     else ret None)
    (-1).

(** ** The word transfer loop *)

(** [while (words) { ... }] of [send_recv_packets].  The result is [Some
    error] when the loop is left by [goto exit] and [None] when it runs to
    its end. *)
Fixpoint transfer_words (control is_write last_bytes : Z) (words : nat)
    (dptr : Z) : M (option Z) :=
  match words with
  | O => ret None
  | S words' =>
    if truthy is_write then
      m <- get_mem ;;
      (if truthy (Z.land dptr 3) then
         let local := u32_of_bytes (read_bytes m dptr 4) in
         writel local (tx_fifo control)
       else
         writel (load_u32 m dptr) (tx_fifo control)) ;;
      ok <- wait_for_tx_fifo_empty control ;;
      if truthy ok then
        transfer_words control is_write last_bytes words' (dptr + 4)
      else ret (Some (-1))
    else
      ok <- wait_for_rx_fifo_notempty control ;;
      if truthy ok then
        local <- readl (rx_fifo control) ;;
        m <- get_mem ;;
        put_mem
          (if Nat.eqb words 1 && truthy last_bytes then
             write_bytes m dptr
               (firstn (Z.to_nat last_bytes) (u32_bytes local))
           else if truthy (Z.land dptr 3) then
             write_bytes m dptr (u32_bytes local)
           else store_u32 m dptr local) ;;
        transfer_words control is_write last_bytes words' (dptr + 4)
      else ret (Some (-1))
  end.

Definition send_recv_packets (i2c_bus : i2c_bus) (trans : i2c_trans_info)
    : M Z :=
  let control := control i2c_bus in
  let is_write := to_int (Z.land (flags trans) (I2C_IS_WRITE h)) in
  v <- readl (int_status control) ;;
  writel v (int_status control) ;;
  send_packet_headers i2c_bus trans 1 ;;
  let words := DIV_ROUND_UP (num_bytes trans) 4 in
  let last_bytes := Z.land (num_bytes trans) 3 in
  let dptr := buf trans in
  r <- transfer_words control is_write last_bytes (Z.to_nat words) dptr ;;
  match r with
  | Some error => i2c_reset_controller i2c_bus ;; ret error
  | None =>
    rc <- wait_for_transfer_complete control ;;
    if truthy rc then i2c_reset_controller i2c_bus ;; ret (-1)
    else ret 0
  end.

(** ** The transaction facade *)

Definition tegra_i2c_write_data (bus : i2c_bus) (addr data len : Z) : M Z :=
  let trans_info :=
    {| address := addr; buf := data; flags := wrap32 (I2C_IS_WRITE h);
       num_bytes := len; is_10bit_address := 0 |} in
  send_recv_packets bus trans_info.

Definition tegra_i2c_read_data (bus : i2c_bus) (addr data len : Z) : M Z :=
  let trans_info :=
    {| address := Z.lor addr 1; buf := data; flags := 0;
       num_bytes := len; is_10bit_address := 0 |} in
  send_recv_packets bus trans_info.

(** [chip] is a [uchar], [len] an [int]; both are converted to [u32] at
    the call of the lower-level function. *)
Definition i2c_write_data (bus : i2c_bus) (chip buffer len : Z) : M Z :=
  tegra_i2c_write_data bus (wrap32 (Z.shiftl chip 1)) buffer (wrap32 len).

Definition i2c_read_data (bus : i2c_bus) (chip buffer len : Z) : M Z :=
  rc <- tegra_i2c_read_data bus (wrap32 (Z.shiftl chip 1)) buffer
          (wrap32 len) ;;
  if truthy rc then ret rc else ret 0.

(** ** The adapter entry points *)

(** A [struct i2c_bus *] into [i2c_controllers] is its index. *)
Definition deref_bus (p : nat) : M i2c_bus :=
  fun s => ret (nth p (i2c_controllers s) zero_bus) s.

Fixpoint update_nth {A} (n : nat) (x : A) (l : list A) : list A :=
  match l, n with
  | [], _ => []
  | _ :: l', O => x :: l'
  | y :: l', S n' => y :: update_nth n' x l'
  end.

Definition set_bus_speed_field (p : nat) (v : Z) : M unit :=
  fun s =>
    let b := nth p (i2c_controllers s) zero_bus in
    let b' :=
      {| id := id b; periph_id := periph_id b; speed := v;
         pinmux_config := pinmux_config b; control := control b;
         regs := regs b; is_dvc := is_dvc b; is_scs := is_scs b;
         inited := inited b |} in
    ret tt (with_controllers s (update_nth p b' (i2c_controllers s))).

(** [NULL] is [None]. *)
Definition tegra_i2c_get_bus (adap : i2c_adapter) : M (option nat) :=
  let p := Z.to_nat (hwadapnr adap) in
  bus <- deref_bus p ;;
  if truthy (inited bus) then ret (Some p) else ret None.

Definition tegra_i2c_set_bus_speed (adap : i2c_adapter) (speed : Z) : M Z :=
  bus <- tegra_i2c_get_bus adap ;;
  match bus with
  | None => ret 0
  | Some p =>
    set_bus_speed_field p (to_int speed) ;;
    b <- deref_bus p ;;
    i2c_init_controller b ;;
    ret 0
  end.

(** [reg] is the address of the local [uchar reg]. *)
Definition tegra_i2c_probe (adap : i2c_adapter) (chip : Z) (reg : Z) : M Z :=
  bus <- tegra_i2c_get_bus adap ;;
  match bus with
  | None => ret 1
  | Some p =>
    b <- deref_bus p ;;
    m <- get_mem ;;
    put_mem (store8 m reg (byte_of_Z 0)) ;;
    rc <- i2c_write_data b chip reg 1 ;;
    if truthy rc then ret 1 else ret 0
  end.

Definition i2c_addr_ok (addr alen : Z) : bool :=
  (alen =? 1) || (alen =? 2).

(** [for (i = 0; i < alen; i++) data[alen - i - 1] = (addr + offset) >> (8 * i);]
    run for [i = from, ..., from + n - 1]. *)
Fixpoint fill_address (m : memory) (data alen addr_offset : Z) (from : Z)
    (n : nat) : memory :=
  match n with
  | O => m
  | S n' =>
    fill_address
      (store8 m (data + (alen - from - 1))
              (byte_of_Z (Z.shiftr addr_offset (8 * from))))
      data alen addr_offset (from + 1) n'
  end.

(** The body of the [for (offset ...)] loop of [tegra_i2c_read], [n]
    iterations starting at [offset]; [data] is the address of the local
    array. *)
Fixpoint tegra_i2c_read_loop (b : i2c_bus) (chip addr alen buffer data : Z)
    (n : nat) (offset : Z) : M Z :=
  match n with
  | O => ret 0
  | S n' =>
    rc <- (if truthy alen then
             m <- get_mem ;;
             put_mem (fill_address m data alen (wrap32 (addr + offset)) 0
                                   (Z.to_nat alen)) ;;
             i2c_write_data b chip data alen
           else ret 0) ;;
    if truthy rc then ret 1
    else
      rc <- i2c_read_data b chip (buffer + offset) 1 ;;
      if truthy rc then ret 1
      else tegra_i2c_read_loop b chip addr alen buffer data n' (offset + 1)
  end.

Definition tegra_i2c_read (adap : i2c_adapter)
    (chip addr alen buffer len : Z) (data : Z) : M Z :=
  bus <- tegra_i2c_get_bus adap ;;
  match bus with
  | None => ret 1
  | Some p =>
    b <- deref_bus p ;;
    if i2c_addr_ok addr alen then
      tegra_i2c_read_loop b chip addr alen buffer data
        (Z.to_nat (wrap32 len)) 0
    else ret 1
  end.

Fixpoint tegra_i2c_write_loop (b : i2c_bus) (chip addr alen buffer data : Z)
    (n : nat) (offset : Z) : M Z :=
  match n with
  | O => ret 0
  | S n' =>
    m <- get_mem ;;
    let m1 :=
      fill_address m data alen (wrap32 (addr + offset)) 0 (Z.to_nat alen) in
    put_mem (store8 m1 (data + alen) (m1 (buffer + offset))) ;;
    rc <- i2c_write_data b chip data (alen + 1) ;;
    if truthy rc then ret 1
    else tegra_i2c_write_loop b chip addr alen buffer data n' (offset + 1)
  end.

Definition tegra_i2c_write (adap : i2c_adapter)
    (chip addr alen buffer len : Z) (data : Z) : M Z :=
  bus <- tegra_i2c_get_bus adap ;;
  match bus with
  | None => ret 1
  | Some p =>
    b <- deref_bus p ;;
    if i2c_addr_ok addr alen then
      tegra_i2c_write_loop b chip addr alen buffer data
        (Z.to_nat (wrap32 len)) 0
    else ret 1
  end.

(** ** What a run did to the FIFOs *)

(** The words written to the transmit FIFO, in order. *)
Fixpoint tx_words (control : Z) (evs : list event) : list Z :=
  match evs with
  | [] => []
  | EvWritel v (tx_fifo c) :: evs' =>
    if c =? control then v :: tx_words control evs' else tx_words control evs'
  | _ :: evs' => tx_words control evs'
  end.

(** The words read from the receive FIFO, in order. *)
Fixpoint rx_words (control : Z) (evs : list event) : list Z :=
  match evs with
  | [] => []
  | EvReadl (rx_fifo c) v :: evs' =>
    if c =? control then v :: rx_words control evs' else rx_words control evs'
  | _ :: evs' => rx_words control evs'
  end.

(** ** The shape of a poll

    [poll_trace r f n res evs]: [evs] is what a polling loop of at most [n]
    rounds on register [r] does when [f] classifies the sampled value
    ([Some x]: return [x]; [None]: delay and sample again).  [res] is the
    sample that ended the poll and the value returned for it, or [None] when
    all [n] rounds passed without one. *)
Inductive poll_trace (r : mmio) (f : Z -> option Z)
  : nat -> option (Z * Z) -> list event -> Prop :=
| poll_expired : poll_trace r f 0 None []
| poll_hit n v x :
    f v = Some x -> poll_trace r f (S n) (Some (v, x)) [EvReadl r v]
| poll_miss n v res evs :
    f v = None ->
    poll_trace r f n res evs ->
    poll_trace r f (S n) res (EvReadl r v :: EvUdelay 10 :: evs).

(** The classification each polling loop applies to its sample. *)
Definition tx_fifo_empty_sample (st : Z) : option Z :=
  if Z.shiftr (Z.land st (TX_FIFO_EMPTY_CNT_MASK h))
              (TX_FIFO_EMPTY_CNT_SHIFT h) =? wrap32 (I2C_FIFO_DEPTH h)
  then Some 1 else None.

Definition rx_fifo_notempty_sample (st : Z) : option Z :=
  if truthy (Z.shiftr (Z.land st (TX_FIFO_FULL_CNT_MASK h))
                      (TX_FIFO_FULL_CNT_SHIFT h))
  then Some 1 else None.

Definition transfer_complete_sample (v : Z) : option Z :=
  let status := to_int v in
  if truthy (Z.land status (I2C_INT_NO_ACK_MASK h)) then
    Some (neg_int status)
  else if truthy (Z.land status (I2C_INT_ARBITRATION_LOST_MASK h)) then
    Some (neg_int status)
  else if truthy (Z.land status (I2C_INT_XFER_COMPLETE_MASK h)) then Some 0
  else None.

Definition budget : nat := poll_iterations (I2C_TIMEOUT_USEC h).

(** ** Registers sampled, header, prologue and recovery *)

Definition is_fifo (r : mmio) : bool :=
  match r with
  | tx_fifo _ | rx_fifo _ => true
  | _ => false
  end.

Definition mmio_eqb (a b : mmio) : bool :=
  match a, b with
  | tx_fifo x, tx_fifo y => x =? y
  | rx_fifo x, rx_fifo y => x =? y
  | fifo_status x, fifo_status y => x =? y
  | int_status x, int_status y => x =? y
  | cnfg x, cnfg y => x =? y
  | sl_cnfg x, sl_cnfg y => x =? y
  | clk_div x, clk_div y => x =? y
  | dvc_cnfg x, dvc_cnfg y => x =? y
  | dvc_ctrl3 x, dvc_ctrl3 y => x =? y
  | _, _ => false
  end.

(** The values read from register [r], in order. *)
Fixpoint samples (r : mmio) (evs : list event) : list Z :=
  match evs with
  | [] => []
  | EvReadl r' v :: evs' =>
    if mmio_eqb r' r then v :: samples r evs' else samples r evs'
  | _ :: evs' => samples r evs'
  end.

(** A bit test on the interrupt status, as [wait_for_transfer_complete]
    does it on its [int] copy of the register. *)
Definition status_bit (v mask : Z) : bool := truthy (Z.land (to_int v) mask).

(** The three header words, as [send_packet_headers] computes them. *)
Definition header_words (i2c_bus : i2c_bus) (trans : i2c_trans_info)
    (packet_id : Z) : list Z :=
  [ Z.lor
      (Z.lor
         (wrap32 (Z.shiftl (PROTOCOL_TYPE_I2C h) (PKT_HDR1_PROTOCOL_SHIFT h)))
         (wrap32 (Z.shiftl packet_id (PKT_HDR1_PKT_ID_SHIFT h))))
      (wrap32 (Z.shiftl (id i2c_bus) (PKT_HDR1_CTLR_ID_SHIFT h)));
    wrap32 (Z.shiftl (wrap32 (num_bytes trans - 1))
                     (PKT_HDR2_PAYLOAD_SIZE_SHIFT h));
    if truthy (Z.land (flags trans) (I2C_IS_WRITE h))
    then wrap32 (Z.shiftl (address trans) (PKT_HDR3_SLAVE_ADDR_SHIFT h))
    else Z.lor (wrap32 (Z.shiftl (address trans)
                                 (PKT_HDR3_SLAVE_ADDR_SHIFT h)))
               (wrap32 (PKT_HDR3_READ_MODE_MASK h)) ].

(** What a transaction does before the first payload word: the pending
    status bits (sampled as [v]) are written back to clear them, then the
    header goes out. *)
Definition prologue (i2c_bus : i2c_bus) (trans : i2c_trans_info) (v : Z)
    : list event :=
  EvReadl (int_status (control i2c_bus)) v ::
  EvWritel v (int_status (control i2c_bus)) ::
  map (fun w => EvWritel w (tx_fifo (control i2c_bus)))
      (header_words i2c_bus trans 1).

(** What [i2c_reset_controller] does; [sl] is the value found in the
    slave-config register. *)
Definition recovery_events (i2c_bus : i2c_bus) (sl : Z) : list event :=
  let config :=
    wrap32 (Z.lor (I2C_CNFG_NEW_MASTER_FSM_MASK h)
                  (I2C_CNFG_PACKET_MODE_MASK h)) in
  EvResetPeriph (periph_id i2c_bus) 1 ::
  (if truthy (is_dvc i2c_bus) then
     [EvWritel config (dvc_cnfg (regs i2c_bus))]
   else
     [EvWritel config (cnfg (regs i2c_bus));
      EvReadl (sl_cnfg (regs i2c_bus)) sl;
      EvWritel (Z.lor sl (wrap32 (I2C_SL_CNFG_NEWSL_MASK h)))
               (sl_cnfg (regs i2c_bus))]).

Definition notify (e : event) (s : state) : state :=
  with_hw s (dev_notify dev e (hw s)).

(** The state in which the word loop starts. *)
Definition after_prologue (i2c_bus : i2c_bus) (trans : i2c_trans_info)
    (s : state) : state :=
  let a := dev_readl dev (int_status (control i2c_bus)) (hw s) in
  fold_left (fun s e => notify e s)
    (tl (prologue i2c_bus trans (wrap32 (fst a))))
    (with_hw s (snd a)).

Definition status_at_start (i2c_bus : i2c_bus) (s : state) : Z :=
  wrap32 (fst (dev_readl dev (int_status (control i2c_bus)) (hw s))).

(** The direction [send_recv_packets] takes for a descriptor. *)
Definition is_write_transfer (trans : i2c_trans_info) : bool :=
  truthy (to_int (Z.land (flags trans) (I2C_IS_WRITE h))).

(** The number of iterations its word loop is set up for. *)
Definition word_count (trans : i2c_trans_info) : nat :=
  Z.to_nat (DIV_ROUND_UP (num_bytes trans) 4).

(** The word loop as [send_recv_packets] runs it. *)
Definition payload_run (i2c_bus : i2c_bus) (trans : i2c_trans_info)
    (s : state) : outcome (option Z) :=
  transfer_words (control i2c_bus)
    (to_int (Z.land (flags trans) (I2C_IS_WRITE h)))
    (Z.land (num_bytes trans) 3)
    (Z.to_nat (DIV_ROUND_UP (num_bytes trans) 4)) (buf trans)
    (after_prologue i2c_bus trans s).

(** Number of bytes the read path copies out of the received word when
    [words] words remain. *)
Definition copied (last_bytes : Z) (words : nat) : nat :=
  if Nat.eqb words 1 && truthy last_bytes then Z.to_nat last_bytes else 4%nat.

(** Bytes stored after [k] of [words] words were received. *)
Definition received_bytes (last_bytes : Z) (words k : nat) : nat :=
  if Nat.eqb k words && Nat.ltb 0 k && truthy last_bytes
  then (4 * (k - 1) + Z.to_nat last_bytes)%nat
  else (4 * k)%nat.

(** The events of one word that was transferred: in the write direction
    the FIFO write followed by a wait that saw the FIFO drain, in the read
    direction a wait that saw a received word followed by the FIFO read. *)
Definition word_done (c : Z) (write : bool) (seg : list event) : Prop :=
  if write then
    exists w p res,
      seg = EvWritel w (tx_fifo c) :: p /\
      poll_trace (fifo_status c) tx_fifo_empty_sample budget (Some res) p
  else
    exists p res v,
      seg = p ++ [EvReadl (rx_fifo c) v] /\
      poll_trace (fifo_status c) rx_fifo_notempty_sample budget (Some res) p.

(** The events of the word at which the loop gave up: its wait used up
    the whole budget. *)
Definition word_stalled (c : Z) (write : bool) (seg : list event) : Prop :=
  if write then
    exists w p,
      seg = EvWritel w (tx_fifo c) :: p /\
      poll_trace (fifo_status c) tx_fifo_empty_sample budget None p
  else
    poll_trace (fifo_status c) rx_fifo_notempty_sample budget None seg.

(** The wait for completion saw the transfer-complete bit (and neither
    error bit) in its last sample. *)
Definition completion_seen (c : Z) (evs : list event) : Prop :=
  exists v,
    poll_trace (int_status c) transfer_complete_sample budget (Some (v, 0))
      evs.

(** The wait for completion failed: an error status was sampled, or the
    budget ran out. *)
Definition completion_failed (c : Z) (evs : list event) : Prop :=
  exists res,
    poll_trace (int_status c) transfer_complete_sample budget res evs /\
    match res with
    | Some (_, x) => x <> 0
    | None => True
    end.

(** ** Time spent waiting *)

(** The microseconds a run spent in [udelay]. *)
Fixpoint delay_total (evs : list event) : Z :=
  match evs with
  | [] => 0
  | EvUdelay usec :: evs' => usec + delay_total evs'
  | _ :: evs' => delay_total evs'
  end.

(** ** Configuration of the controller table *)

(** Assignments through a [struct i2c_bus *]. *)
Definition set_bus (p : nat) (b : i2c_bus) : M unit :=
  fun s => ret tt (with_controllers s (update_nth p b (i2c_controllers s))).

Definition with_id (b : i2c_bus) (v : Z) : i2c_bus :=
  {| id := v; periph_id := periph_id b; speed := speed b;
     pinmux_config := pinmux_config b; control := control b;
     regs := regs b; is_dvc := is_dvc b; is_scs := is_scs b;
     inited := inited b |}.

Definition with_config (b : i2c_bus) (r pinmux spd pid : Z) : i2c_bus :=
  {| id := id b; periph_id := pid; speed := spd;
     pinmux_config := pinmux; control := control b;
     regs := r; is_dvc := is_dvc b; is_scs := is_scs b;
     inited := inited b |}.

Definition with_kind (b : i2c_bus) (scs dvc ctl : Z) : i2c_bus :=
  {| id := id b; periph_id := periph_id b; speed := speed b;
     pinmux_config := pinmux_config b; control := ctl;
     regs := regs b; is_dvc := dvc; is_scs := scs;
     inited := inited b |}.

Definition with_inited (b : i2c_bus) (v : Z) : i2c_bus :=
  {| id := id b; periph_id := periph_id b; speed := speed b;
     pinmux_config := pinmux_config b; control := control b;
     regs := regs b; is_dvc := is_dvc b; is_scs := is_scs b;
     inited := v |}.

(** [i2c_get_config] on the table entry [p]. *)
Definition i2c_get_config (bh : board_h) (blob : fdt_blob) (node : Z)
    (p : nat) : M Z :=
  b <- deref_bus p ;;
  set_bus p
    (with_config b (fdt_reg blob node) (FUNCMUX_DEFAULT bh)
       (to_int (fdt_clock_frequency blob node))
       (to_int (fdt_periph_id blob node))) ;;
  b <- deref_bus p ;;
  if periph_id b =? -1 then ret (neg_int (FDT_ERR_NOTFOUND bh)) else ret 0.

(** The [for] loop of [process_nodes], [n] rounds starting at index [i]. *)
Fixpoint process_nodes_loop (bh : board_h) (blob : fdt_blob)
    (is_dvc is_scs : Z) (node_list : list Z) (i n : nat)
    : M nodes_result :=
  match n with
  | O => ret {| nodes_rc := 0; nodes_list := node_list; nodes_console := [] |}
  | S n' =>
    let node := nth i node_list 0 in
    if node <=? 0 then
      process_nodes_loop bh blob is_dvc is_scs node_list (S i) n'
    else
      b <- deref_bus i ;;
      set_bus i (with_id b (Z.of_nat i)) ;;
      rc <- i2c_get_config bh blob node i ;;
      if truthy rc then
        ret {| nodes_rc := -1; nodes_list := node_list;
               nodes_console := [Z.of_nat i] |}
      else
        b <- deref_bus i ;;
        set_bus i
          (with_kind b is_scs is_dvc
             (if truthy is_dvc then regs b + DVC_CTLR_CONTROL_OFFSET bh
              else regs b + I2C_CTLR_CONTROL_OFFSET bh)) ;;
        b <- deref_bus i ;;
        i2c_init_controller b ;;
        b <- deref_bus i ;;
        set_bus i (with_inited b 1) ;;
        process_nodes_loop bh blob is_dvc is_scs
          (update_nth i (-1) node_list) (S i) n'
  end.

Definition process_nodes (bh : board_h) (blob : fdt_blob)
    (node_list : list Z) (count is_dvc is_scs : Z) : M nodes_result :=
  process_nodes_loop bh blob is_dvc is_scs node_list 0 (Z.to_nat count).

(** The scan of [tegra_i2c_get_dvc_bus_num] over the entries [i, i + n). *)
Fixpoint dvc_bus_scan (table : list i2c_bus) (i n : nat) : Z :=
  match n with
  | O => -1
  | S n' =>
    let bus := nth i table zero_bus in
    if truthy (inited bus) && truthy (is_dvc bus) then Z.of_nat i
    else dvc_bus_scan table (S i) n'
  end.

Definition tegra_i2c_get_dvc_bus_num (bh : board_h) : M Z :=
  fun s =>
    ret (dvc_bus_scan (i2c_controllers s) 0
           (Z.to_nat (TEGRA_I2C_NUM_CONTROLLERS bh))) s.

(** The table entry with its [speed] field replaced. *)
Definition with_speed (b : i2c_bus) (v : Z) : i2c_bus :=
  {| id := id b; periph_id := periph_id b; speed := v;
     pinmux_config := pinmux_config b; control := control b;
     regs := regs b; is_dvc := is_dvc b; is_scs := is_scs b;
     inited := inited b |}.

(** The table entry that [process_nodes] leaves for the bus [i] described by
    [node]. *)
Definition configured_bus (bh : board_h) (blob : fdt_blob)
    (is_dvc is_scs : Z) (i : nat) (node : Z) : i2c_bus :=
  {| id := Z.of_nat i;
     periph_id := to_int (fdt_periph_id blob node);
     speed := to_int (fdt_clock_frequency blob node);
     pinmux_config := FUNCMUX_DEFAULT bh;
     control :=
       if truthy is_dvc then fdt_reg blob node + DVC_CTLR_CONTROL_OFFSET bh
       else fdt_reg blob node + I2C_CTLR_CONTROL_OFFSET bh;
     regs := fdt_reg blob node;
     is_dvc := is_dvc; is_scs := is_scs; inited := 1 |}.

(** The second clock request of [i2c_init_controller] on single-clock-source
    hardware, after the divisor register read [v]. *)
Definition scs_events (b : i2c_bus) (v : Z) : list event :=
  [EvReadl (clk_div (regs b)) v;
   EvClockStart (periph_id b) (CLOCK_ID_PERIPH h)
     (wrap32 (CLK_MULT_STD_FAST_MODE h * (to_int (Z.shiftr v 16) + 1)
              * speed b * 2))].

(** The DVC-only step of [i2c_init_controller], with [v] read from the third
    control register. *)
Definition dvc_events (b : i2c_bus) (v : Z) : list event :=
  [EvReadl (dvc_ctrl3 (regs b)) v;
   EvWritel (Z.lor v (wrap32 (DVC_CTRL_REG3_I2C_HW_SW_PROG_MASK h)))
            (dvc_ctrl3 (regs b))].

(** Two runs with the same value, final state and events. *)
Definition agree {A} (o o' : outcome A) : Prop :=
  value o = value o' /\ final o = final o' /\ events o = events o'.

(** What [process_nodes] has done with position [k] once it is past it:
    a node that is not positive is skipped, any other leaves the entry
    decoded from the device tree and its position marked as used.  [t], [nl]
    are the table and the node list before the call, [t'], [nl'] after. *)
Definition node_processed (bh : board_h) (blob : fdt_blob) (is_dvc is_scs : Z)
    (t t' : list i2c_bus) (nl nl' : list Z) (k : nat) : Prop :=
  let node := nth k nl 0 in
  (node <= 0 /\ nth k t' zero_bus = nth k t zero_bus /\ nth k nl' 0 = node)
  \/
  (0 < node /\ to_int (fdt_periph_id blob node) <> -1 /\
   nth k t' zero_bus = configured_bus bh blob is_dvc is_scs k node /\
   nth k nl' 0 = -1).

(** [i2c_init_board]; [node_list] is the local array as it is found on the
    stack, the value is what [process_nodes] printed. *)
Definition i2c_init_board (bh : board_h) (blob : fdt_blob)
    (al : fdt_aliases) (node_list : list Z) : M (list Z) :=
  let found :=
    fdtdec_find_aliases_for_id al COMPAT_NVIDIA_TEGRA114_I2C node_list in
  r1 <- process_nodes bh blob (snd found) (fst found) 0 1 ;;
  if truthy (nodes_rc r1) then ret (nodes_console r1)
  else
    let found :=
      fdtdec_find_aliases_for_id al COMPAT_NVIDIA_TEGRA20_I2C
        (nodes_list r1) in
    r2 <- process_nodes bh blob (snd found) (fst found) 0 0 ;;
    if truthy (nodes_rc r2) then ret (nodes_console r1 ++ nodes_console r2)
    else
      let found :=
        fdtdec_add_aliases_for_id al COMPAT_NVIDIA_TEGRA20_DVC
          (nodes_list r2) in
      r3 <- process_nodes bh blob (snd found) (fst found) 1 0 ;;
      ret (nodes_console r1 ++ nodes_console r2 ++ nodes_console r3).

(** What a table [t'] may differ in from the table [t] it was built from:
    entries may have been rewritten, but none was added or removed and an
    initialized flag is kept or set to 1. *)
Definition table_grown (t t' : list i2c_bus) : Prop :=
  length t' = length t /\
  forall k,
    inited (nth k t' zero_bus) = inited (nth k t zero_bus) \/
    inited (nth k t' zero_bus) = 1.

(** ** FIFO-ready polls *)

(** Whether a poll's classification ends the poll at the sample [v]. *)
Definition is_ready (f : Z -> option Z) (v : Z) : bool :=
  match f v with
  | Some _ => true
  | None => false
  end.

(** The classification applied by the FIFO-ready poll of a direction:
    [wait_for_tx_fifo_empty] for a write, [wait_for_rx_fifo_notempty] for a
    read. *)
Definition fifo_ready_sample (write : bool) : Z -> option Z :=
  if write then tx_fifo_empty_sample else rx_fifo_notempty_sample.

(** The FIFO-ready polls of a run that succeeded.  A poll ends at its first
    ready sample, so they are as many as the ready samples among the values
    read from the FIFO status. *)
Definition ready_polls (c : Z) (write : bool) (evs : list event) : nat :=
  length (filter (is_ready (fifo_ready_sample write))
                 (samples (fifo_status c) evs)).

(** ** Basic facts *)

Lemma poll_iterations_neg (t : Z) : t < 0 -> poll_iterations t = O.
Proof.
  intros Ht. unfold poll_iterations.
  assert (t / 10 < 0) by (apply Z.div_lt_upper_bound; lia).
  destruct (t / 10 + 1) eqn:E; simpl; try reflexivity; lia.
Qed.

Lemma poll_iterations_step (t : Z) :
  0 <= t -> poll_iterations t = S (poll_iterations (t - 10)).
Proof.
  intros Ht. unfold poll_iterations.
  replace (t / 10 + 1) with ((t - 10) / 10 + 1 + 1).
  - assert (-1 <= (t - 10) / 10) by (apply Z.div_le_lower_bound; lia).
    rewrite Z2Nat.inj_add by lia. rewrite Nat.add_comm. reflexivity.
  - replace t with ((t - 10) + 1 * 10) at 2 by lia.
    rewrite Z.div_add by lia. lia.
Qed.

Lemma while_timeout_ext (b1 b2 : M (option Z)) (after : Z) :
  (forall s, b1 s = b2 s) ->
  forall n s, while_timeout n b1 after s = while_timeout n b2 after s.
Proof.
  intros Hb n. induction n as [|n IH]; intros s; simpl.
  - reflexivity.
  - unfold bind. rewrite Hb.
    destruct (value (b2 s)); simpl; [reflexivity|].
    rewrite IH. reflexivity.
Qed.

(** A polling loop whose body samples one register: what it returns, what it
    logs, and that it leaves memory and the controller table alone. *)
Lemma poll_spec (r : mmio) (f : Z -> option Z) (after : Z) :
  forall n s,
    let o := while_timeout n (v <- readl r ;; ret (f v)) after s in
    mem (final o) = mem s /\
    i2c_controllers (final o) = i2c_controllers s /\
    exists res,
      poll_trace r f n res (events o) /\
      value o = match res with Some (_, x) => x | None => after end.
Proof.
  induction n as [|n IH]; intros s; simpl.
  - repeat split. exists None. split; [constructor | reflexivity].
  - unfold bind at 1 2 3. simpl.
    set (v := wrap32 (fst (dev_readl dev r (hw s)))).
    set (s1 := with_hw s (snd (dev_readl dev r (hw s)))).
    destruct (f v) as [x|] eqn:Ef; simpl.
    + repeat split. exists (Some (v, x)). split; [|reflexivity].
      apply poll_hit; assumption.
    + destruct (IH (with_hw s1 (dev_notify dev (EvUdelay 10) (hw s1))))
        as (Hm & Hc & res & Ht & Hv).
      unfold bind. simpl. repeat split; try assumption.
      exists res. split; [|assumption].
      apply poll_miss; assumption.
Qed.

Lemma wait_for_tx_fifo_empty_poll (c : Z) (s : state) :
  wait_for_tx_fifo_empty c s =
  while_timeout budget
    (v <- readl (fifo_status c) ;; ret (tx_fifo_empty_sample v)) 0 s.
Proof.
  apply while_timeout_ext. intros s0.
  unfold bind, tx_fifo_empty_sample; simpl.
  destruct (_ =? _); reflexivity.
Qed.

Lemma wait_for_rx_fifo_notempty_poll (c : Z) (s : state) :
  wait_for_rx_fifo_notempty c s =
  while_timeout budget
    (v <- readl (fifo_status c) ;; ret (rx_fifo_notempty_sample v)) 0 s.
Proof.
  apply while_timeout_ext. intros s0.
  unfold bind, rx_fifo_notempty_sample; simpl.
  destruct (truthy _); reflexivity.
Qed.

Lemma wait_for_transfer_complete_poll (c : Z) (s : state) :
  wait_for_transfer_complete c s =
  while_timeout budget
    (v <- readl (int_status c) ;; ret (transfer_complete_sample v)) (-1) s.
Proof.
  apply while_timeout_ext. intros s0.
  unfold bind, transfer_complete_sample; simpl.
  repeat (destruct (truthy _); try reflexivity).
Qed.

Lemma poll_trace_quiet (c : Z) (r : mmio) (f : Z -> option Z) :
  is_fifo r = false ->
  forall n res evs,
    poll_trace r f n res evs ->
    tx_words c evs = [] /\ rx_words c evs = [].
Proof.
  intros Hr n res evs Ht.
  induction Ht as [| n v x Hf | n v res evs Hf Ht [IH1 IH2]].
  - split; reflexivity.
  - destruct r; try discriminate; split; reflexivity.
  - destruct r; try discriminate; split; assumption.
Qed.

Lemma poll_trace_hit (r : mmio) (f : Z -> option Z) n v x evs :
  poll_trace r f n (Some (v, x)) evs -> f v = Some x.
Proof.
  intros Ht. remember (Some (v, x)) as res eqn:E.
  induction Ht as [| n v0 x0 Hf | n v0 res evs Hf Ht IH].
  - discriminate.
  - injection E as -> ->. assumption.
  - auto.
Qed.

Lemma tx_words_app (c : Z) (l1 l2 : list event) :
  tx_words c (l1 ++ l2) = tx_words c l1 ++ tx_words c l2.
Proof.
  induction l1 as [|e l1 IH]; simpl; [reflexivity|].
  destruct e as [r v|v r| | | |]; try assumption.
  destruct r; try assumption.
  destruct (_ =? _); simpl; rewrite IH; reflexivity.
Qed.

Lemma rx_words_app (c : Z) (l1 l2 : list event) :
  rx_words c (l1 ++ l2) = rx_words c l1 ++ rx_words c l2.
Proof.
  induction l1 as [|e l1 IH]; simpl; [reflexivity|].
  destruct e as [r v|v r| | | |]; try assumption.
  destruct r; try assumption.
  destruct (_ =? _); simpl; rewrite IH; reflexivity.
Qed.

(** What each of the three waits returns and logs. *)
Lemma wait_for_tx_fifo_empty_spec (c : Z) (s : state) :
  let o := wait_for_tx_fifo_empty c s in
  mem (final o) = mem s /\
  i2c_controllers (final o) = i2c_controllers s /\
  exists res,
    poll_trace (fifo_status c) tx_fifo_empty_sample budget res (events o) /\
    value o = match res with Some _ => 1 | None => 0 end.
Proof.
  cbv zeta. rewrite wait_for_tx_fifo_empty_poll.
  destruct (poll_spec (fifo_status c) tx_fifo_empty_sample 0 budget s)
    as (Hm & Hc & res & Ht & Hv).
  repeat split; try assumption. exists res. split; [assumption|].
  rewrite Hv. destruct res as [[v x]|]; [|reflexivity].
  assert (Hx : tx_fifo_empty_sample v = Some x)
    by (eapply poll_trace_hit; eassumption).
  unfold tx_fifo_empty_sample in Hx. destruct (_ =? _); congruence.
Qed.

Lemma wait_for_rx_fifo_notempty_spec (c : Z) (s : state) :
  let o := wait_for_rx_fifo_notempty c s in
  mem (final o) = mem s /\
  i2c_controllers (final o) = i2c_controllers s /\
  exists res,
    poll_trace (fifo_status c) rx_fifo_notempty_sample budget res
      (events o) /\
    value o = match res with Some _ => 1 | None => 0 end.
Proof.
  cbv zeta. rewrite wait_for_rx_fifo_notempty_poll.
  destruct (poll_spec (fifo_status c) rx_fifo_notempty_sample 0 budget s)
    as (Hm & Hc & res & Ht & Hv).
  repeat split; try assumption. exists res. split; [assumption|].
  rewrite Hv. destruct res as [[v x]|]; [|reflexivity].
  assert (Hx : rx_fifo_notempty_sample v = Some x)
    by (eapply poll_trace_hit; eassumption).
  unfold rx_fifo_notempty_sample in Hx. destruct (truthy _); congruence.
Qed.

Lemma wait_for_transfer_complete_spec (c : Z) (s : state) :
  let o := wait_for_transfer_complete c s in
  mem (final o) = mem s /\
  i2c_controllers (final o) = i2c_controllers s /\
  exists res,
    poll_trace (int_status c) transfer_complete_sample budget res
      (events o) /\
    value o = match res with Some (_, x) => x | None => -1 end.
Proof.
  cbv zeta. rewrite wait_for_transfer_complete_poll.
  apply poll_spec.
Qed.

Lemma mmio_eqb_refl (r : mmio) : mmio_eqb r r = true.
Proof. destruct r; apply Z.eqb_refl. Qed.

Lemma samples_app (r : mmio) (l1 l2 : list event) :
  samples r (l1 ++ l2) = samples r l1 ++ samples r l2.
Proof.
  induction l1 as [|e l1 IH]; [reflexivity|].
  destruct e as [r' v| | | | |]; cbn [app samples]; try assumption.
  destruct (mmio_eqb r' r); cbn [app]; rewrite IH; reflexivity.
Qed.

Lemma poll_trace_samples (r : mmio) (f : Z -> option Z) n res evs :
  poll_trace r f n res evs ->
  match res with
  | Some (v, x) =>
    exists pre,
      samples r evs = pre ++ [v] /\ Forall (fun u => f u = None) pre /\
      f v = Some x /\ (length pre < n)%nat
  | None =>
    length (samples r evs) = n /\ Forall (fun u => f u = None) (samples r evs)
  end.
Proof.
  intros Ht. induction Ht as [| n v x Hf | n v res evs Hf Ht IH].
  - split; [reflexivity | constructor].
  - exists []. cbn [samples]. rewrite mmio_eqb_refl.
    repeat split; [constructor | assumption | cbn; lia].
  - cbn [samples]. rewrite mmio_eqb_refl.
    destruct res as [[v0 x0]|].
    + destruct IH as (pre & Hs & Hall & Hx & Hlen).
      exists (v :: pre). rewrite Hs.
      repeat split; [constructor; assumption | assumption | cbn; lia].
    + destruct IH as [Hlen Hall]. split; [cbn; lia|].
      constructor; assumption.
Qed.

(** ** Bytes and words *)

Lemma byte_val_range (b : byte) : 0 <= byte_val b < 256.
Proof.
  unfold byte_val. pose proof (Byte.to_N_bounded b). lia.
Qed.

Lemma byte_of_Z_mod (z : Z) (b : byte) :
  z mod 256 = byte_val b -> byte_of_Z z = b.
Proof.
  intros E. unfold byte_of_Z. rewrite E. unfold byte_val.
  rewrite N2Z.id, Byte.of_to_N. reflexivity.
Qed.

Lemma byte_of_Z_val (b : byte) : byte_of_Z (byte_val b) = b.
Proof.
  apply byte_of_Z_mod. apply Z.mod_small. apply byte_val_range.
Qed.

Lemma byte_val_of_Z (z : Z) : byte_val (byte_of_Z z) = z mod 256.
Proof.
  assert (Hr : 0 <= z mod 256 < 256) by (apply Z.mod_pos_bound; lia).
  unfold byte_of_Z, byte_val.
  destruct (Byte.of_N (Z.to_N (z mod 256))) as [b|] eqn:E.
  - apply Byte.to_of_N in E. rewrite E. apply Z2N.id. lia.
  - apply Byte.of_N_None_iff in E. lia.
Qed.

Lemma lor_byte_shift (a x : Z) :
  0 <= a < 256 -> Z.lor a (Z.shiftl x 8) = a + 2 ^ 8 * x.
Proof.
  intros Ha.
  assert (Hl : Z.land a (Z.shiftl x 8) = 0).
  { apply Z.bits_inj'. intros n Hn.
    rewrite Z.land_spec, Z.bits_0.
    destruct (Z.ltb_spec n 8).
    - rewrite (Z.shiftl_spec_low x 8 n) by lia. apply andb_false_r.
    - replace a with (a mod 2 ^ 8) by (apply Z.mod_small; lia).
      rewrite Z.mod_pow2_bits_high by lia. reflexivity. }
  pose proof (Z.add_lor_land a (Z.shiftl x 8)) as E.
  rewrite Hl, Z.add_0_r in E. rewrite E.
  rewrite Z.shiftl_mul_pow2 by lia. lia.
Qed.

Lemma u32_of_bytes_4 (b0 b1 b2 b3 : byte) :
  u32_of_bytes [b0; b1; b2; b3] =
  byte_val b0 + 2 ^ 8 * byte_val b1 + 2 ^ 16 * byte_val b2
  + 2 ^ 24 * byte_val b3.
Proof.
  cbn [u32_of_bytes].
  rewrite !lor_byte_shift by apply byte_val_range. lia.
Qed.

(** The aligned load and the byte-wise copy into [local] give the same
    word. *)
Lemma load_u32_bytes (m : memory) (p : Z) :
  u32_of_bytes (read_bytes m p 4) = load_u32 m p.
Proof.
  cbn [read_bytes]. rewrite u32_of_bytes_4. unfold load_u32.
  replace (p + 1 + 1) with (p + 2) by lia.
  replace (p + 2 + 1) with (p + 3) by lia. reflexivity.
Qed.

Lemma load_u32_range (m : memory) (p : Z) : 0 <= load_u32 m p < 2 ^ 32.
Proof.
  unfold load_u32.
  pose proof (byte_val_range (m p)).
  pose proof (byte_val_range (m (p + 1))).
  pose proof (byte_val_range (m (p + 2))).
  pose proof (byte_val_range (m (p + 3))). lia.
Qed.

(** The aligned store and the byte-wise copy out of [local] write the same
    four bytes. *)
Lemma store_u32_bytes (m : memory) (p w : Z) :
  store_u32 m p w = write_bytes m p (u32_bytes w).
Proof.
  unfold store_u32, u32_bytes. cbn [write_bytes].
  rewrite !Z.shiftr_div_pow2 by lia.
  replace (p + 1 + 1) with (p + 2) by lia.
  replace (p + 2 + 1) with (p + 3) by lia. reflexivity.
Qed.

(** The object representation of the word loaded from [p] is the four bytes
    at [p]. *)
Lemma u32_bytes_load (m : memory) (p : Z) :
  u32_bytes (load_u32 m p) = read_bytes m p 4.
Proof.
  unfold u32_bytes, load_u32. cbn [read_bytes].
  rewrite !Z.shiftr_div_pow2 by lia.
  replace (p + 1 + 1) with (p + 2) by lia.
  replace (p + 2 + 1) with (p + 3) by lia.
  pose proof (byte_val_range (m p)).
  pose proof (byte_val_range (m (p + 1))).
  pose proof (byte_val_range (m (p + 2))).
  pose proof (byte_val_range (m (p + 3))).
  f_equal; [|f_equal; [|f_equal; [|f_equal]]];
    apply byte_of_Z_mod;
    change (2 ^ 8) with 256; change (2 ^ 16) with 65536;
    change (2 ^ 24) with 16777216;
    Z.div_mod_to_equations; lia.
Qed.

(** ** Byte-wise copies into memory *)

Lemma write_bytes_outside (bs : list byte) :
  forall m p a,
    a < p \/ p + Z.of_nat (length bs) <= a -> write_bytes m p bs a = m a.
Proof.
  induction bs as [|b bs IH]; intros m p a Ha; simpl; [reflexivity|].
  rewrite IH by (simpl length in Ha; lia).
  unfold store8. destruct (Z.eqb_spec a p); [|reflexivity].
  simpl length in Ha. lia.
Qed.

Lemma write_bytes_inside (bs : list byte) (d : byte) :
  forall m p i,
    (i < length bs)%nat ->
    write_bytes m p bs (p + Z.of_nat i) = nth i bs d.
Proof.
  induction bs as [|b bs IH]; intros m p i Hi; simpl in Hi; [lia|].
  destruct i as [|i]; simpl.
  - rewrite write_bytes_outside by lia.
    unfold store8. rewrite Z.add_0_r, Z.eqb_refl. reflexivity.
  - replace (p + Z.pos (Pos.of_succ_nat i)) with (p + 1 + Z.of_nat i) by lia.
    apply IH. lia.
Qed.

Lemma write_bytes_app (l1 l2 : list byte) :
  forall m p,
    write_bytes m p (l1 ++ l2) =
    write_bytes (write_bytes m p l1) (p + Z.of_nat (length l1)) l2.
Proof.
  induction l1 as [|b l1 IH]; intros m p; simpl app; cbn [write_bytes length].
  - rewrite Z.add_0_r. reflexivity.
  - rewrite IH. f_equal. lia.
Qed.

Lemma write_bytes_ext (bs : list byte) :
  forall m1 m2 p,
    (forall a, m1 a = m2 a) ->
    forall a, write_bytes m1 p bs a = write_bytes m2 p bs a.
Proof.
  induction bs as [|b bs IH]; intros m1 m2 p Hm a; simpl; [apply Hm|].
  apply IH. intros x. unfold store8. rewrite Hm. reflexivity.
Qed.


Lemma read_bytes_nth (m : memory) (d : byte) :
  forall n p i, (i < n)%nat -> nth i (read_bytes m p n) d = m (p + Z.of_nat i).
Proof.
  induction n as [|n IH]; intros p i Hi; [lia|].
  destruct i as [|i]; simpl.
  - rewrite Z.add_0_r. reflexivity.
  - rewrite IH by lia. f_equal. lia.
Qed.



(** ** One round of the word loop *)

Section WordLoop.

Variables c is_write last_bytes : Z.

Lemma transfer_words_write_step (w : nat) (dptr : Z) (s : state) :
  truthy is_write = true ->
  transfer_words c is_write last_bytes (S w) dptr s =
  let e := EvWritel (load_u32 (mem s) dptr) (tx_fifo c) in
  let o1 := wait_for_tx_fifo_empty c (with_hw s (dev_notify dev e (hw s))) in
  if truthy (value o1) then
    let o2 := transfer_words c is_write last_bytes w (dptr + 4) (final o1) in
    {| value := value o2; final := final o2;
       events := e :: events o1 ++ events o2 |}
  else
    {| value := Some (-1); final := final o1; events := e :: events o1 |}.
Proof.
  intros Hw. cbn [transfer_words]. rewrite Hw.
  unfold bind. cbn [get_mem value final events].
  rewrite load_u32_bytes.
  destruct (truthy (Z.land dptr 3));
    cbn [writel emit value final events app];
    destruct (truthy (value (wait_for_tx_fifo_empty c _)));
    cbn [ret value final events]; rewrite ?app_nil_r; reflexivity.
Qed.

Lemma u32_bytes_length (w : Z) : length (u32_bytes w) = 4%nat.
Proof. reflexivity. Qed.

Lemma transfer_words_read_step (w : nat) (dptr : Z) (s : state) :
  truthy is_write = false ->
  transfer_words c is_write last_bytes (S w) dptr s =
  let o1 := wait_for_rx_fifo_notempty c s in
  if truthy (value o1) then
    let a := dev_readl dev (rx_fifo c) (hw (final o1)) in
    let v := wrap32 (fst a) in
    let m1 :=
      write_bytes (mem (final o1)) dptr (firstn (copied last_bytes (S w)) (u32_bytes v)) in
    let o2 :=
      transfer_words c is_write last_bytes w (dptr + 4)
        (with_mem (with_hw (final o1) (snd a)) m1) in
    {| value := value o2; final := final o2;
       events := events o1 ++ EvReadl (rx_fifo c) v :: events o2 |}
  else
    {| value := Some (-1); final := final o1; events := events o1 |}.
Proof.
  intros Hw. cbn [transfer_words]. rewrite Hw.
  unfold bind. cbv zeta.
  destruct (truthy (value (wait_for_rx_fifo_notempty c s))).
  - cbn [readl get_mem put_mem value final events app with_hw mem].
    rewrite store_u32_bytes. unfold copied.
    destruct (Nat.eqb (S w) 1 && truthy last_bytes);
      [|destruct (truthy (Z.land dptr 3))]; reflexivity.
  - cbn [ret value final events]. rewrite app_nil_r. reflexivity.
Qed.

(** *** The write direction: which words go to the FIFO *)

Lemma transfer_words_write_data :
  truthy is_write = true ->
  forall words dptr s,
    let o := transfer_words c is_write last_bytes words dptr s in
    mem (final o) = mem s /\
    i2c_controllers (final o) = i2c_controllers s /\
    rx_words c (events o) = [] /\
    exists k,
      (k <= words)%nat /\
      tx_words c (events o) =
        map (fun j => load_u32 (mem s) (dptr + 4 * Z.of_nat j)) (seq 0 k) /\
      (value o = None -> k = words) /\
      (forall e, value o = Some e -> e = -1).
Proof.
  intros Hw. induction words as [|w IH]; intros dptr s.
  - cbn. repeat split. exists O. repeat split; [lia | discriminate].
  - cbv zeta. rewrite transfer_words_write_step by assumption. cbv zeta.
    set (e := EvWritel (load_u32 (mem s) dptr) (tx_fifo c)).
    set (s1 := with_hw s (dev_notify dev e (hw s))).
    destruct (wait_for_tx_fifo_empty_spec c s1) as (Hm1 & Hc1 & res & Ht & _).
    destruct (poll_trace_quiet c (fifo_status c) _ eq_refl _ _ _ Ht)
      as [Htx Hrx].
    destruct (truthy (value (wait_for_tx_fifo_empty c s1))).
    + destruct (IH (dptr + 4) (final (wait_for_tx_fifo_empty c s1)))
        as (Hm2 & Hc2 & Hrx2 & k & Hk & Htx2 & Hnone & Hsome).
      cbn [value final events].
      split; [rewrite Hm2, Hm1; reflexivity|].
      split; [rewrite Hc2, Hc1; reflexivity|].
      split.
      { unfold e. cbn [rx_words]. rewrite rx_words_app, Hrx, Hrx2.
        reflexivity. }
      exists (S k). split; [lia|]. split.
      { unfold e. cbn [tx_words]. rewrite Z.eqb_refl.
        rewrite tx_words_app, Htx, Htx2. cbn [app seq map].
        rewrite Z.add_0_r. f_equal.
        rewrite <- seq_shift, map_map. apply map_ext. intros j.
        rewrite Hm1. cbn [mem with_hw s1]. f_equal. lia. }
      split; [intros Hv; f_equal; auto | assumption].
    + cbn [value final events].
      split; [rewrite Hm1; reflexivity|].
      split; [rewrite Hc1; reflexivity|].
      split; [unfold e; cbn [rx_words]; assumption|].
      exists 1%nat. split; [lia|]. split.
      { unfold e. cbn [tx_words]. rewrite Z.eqb_refl, Htx.
        cbn. rewrite Z.add_0_r. reflexivity. }
      split; [discriminate | congruence].
Qed.

(** *** The read direction: which bytes reach memory *)

Lemma transfer_words_read_data :
  truthy is_write = false ->
  0 <= last_bytes < 4 ->
  forall words dptr s,
    let o := transfer_words c is_write last_bytes words dptr s in
    let vs := rx_words c (events o) in
    i2c_controllers (final o) = i2c_controllers s /\
    tx_words c (events o) = [] /\
    (length vs <= words)%nat /\
    (value o = None -> length vs = words) /\
    (forall e, value o = Some e -> e = -1) /\
    forall a,
      mem (final o) a =
      write_bytes (mem s) dptr
        (firstn (received_bytes last_bytes words (length vs)) (flat_map u32_bytes vs)) a.
Proof.
  intros Hw Hlb. induction words as [|w IH]; intros dptr s.
  - cbn. repeat split; try lia; discriminate.
  - cbv zeta. rewrite transfer_words_read_step by assumption. cbv zeta.
    destruct (wait_for_rx_fifo_notempty_spec c s)
      as (Hm1 & Hc1 & res & Ht & _).
    destruct (poll_trace_quiet c (fifo_status c) _ eq_refl _ _ _ Ht)
      as [Htx Hrx].
    set (o1 := wait_for_rx_fifo_notempty c s) in *.
    destruct (truthy (value o1)).
    + set (v := wrap32 (fst (dev_readl dev (rx_fifo c) (hw (final o1))))).
      set (m1 := write_bytes (mem (final o1)) dptr
                   (firstn (copied last_bytes (S w)) (u32_bytes v))).
      set (s2 := with_mem _ m1).
      destruct (IH (dptr + 4) s2) as (Hc2 & Htx2 & Hlen & Hnone & Hsome & Hmem).
      set (o2 := transfer_words c is_write last_bytes w (dptr + 4) s2) in *.
      cbn [value final events].
      rewrite rx_words_app, Hrx, tx_words_app, Htx. cbn [app rx_words tx_words].
      rewrite Z.eqb_refl. cbn [length flat_map].
      split; [rewrite Hc2; cbn; rewrite Hc1; reflexivity|].
      split; [assumption|].
      split; [lia|].
      split; [intros Hv; f_equal; auto|].
      split; [assumption|].
      intros a. rewrite Hmem. cbn [mem s2 with_mem]. unfold m1. rewrite Hm1.
      set (k := length (rx_words c (events o2))) in *.
      set (rest := flat_map u32_bytes (rx_words c (events o2))).
      destruct w as [|w'].
      * (* the final word *)
        assert (Hk : k = O) by lia.
        assert (Hrest : rest = []).
        { unfold rest. destruct (rx_words c (events o2)); [reflexivity|].
          unfold k in Hk. discriminate. }
        rewrite Hk, Hrest, app_nil_r. cbn [firstn write_bytes].
        unfold received_bytes, copied. cbn [Nat.eqb Nat.ltb Nat.leb andb].
        destruct (truthy last_bytes); cbn [Nat.sub Nat.mul Nat.add];
          reflexivity.
      * (* a word followed by others *)
        assert (Hcp : copied last_bytes (S (S w')) = 4%nat) by reflexivity.
        rewrite Hcp.
        assert (Hrb : received_bytes last_bytes (S (S w')) (S k) =
                      (4 + received_bytes last_bytes (S w') k)%nat).
        { unfold received_bytes. cbn [Nat.eqb].
          destruct (Nat.eqb_spec k (S w')) as [E|E].
          - rewrite E. cbn [Nat.ltb Nat.leb andb].
            destruct (truthy last_bytes); lia.
          - cbn [andb]. lia. }
        rewrite Hrb.
        change (4 + received_bytes last_bytes (S w') k)%nat
          with (length (u32_bytes v) + received_bytes last_bytes (S w') k)%nat.
        rewrite firstn_app_2.
        rewrite firstn_all2 by (rewrite u32_bytes_length; lia).
        rewrite write_bytes_app, u32_bytes_length. reflexivity.
    + cbn [value final events]. rewrite Hrx.
      split; [assumption|]. split; [assumption|].
      split; [cbn; lia|]. split; [discriminate|].
      split; [congruence|].
      intros a. cbn. rewrite Hm1. reflexivity.
Qed.

(** *** The events of the loop, word by word *)

Lemma transfer_words_shape :
  forall words dptr s,
    let o := transfer_words c is_write last_bytes words dptr s in
    exists segs,
      Forall (word_done c (truthy is_write)) segs /\
      ((value o = None /\ events o = concat segs /\ length segs = words) \/
       (value o = Some (-1) /\ (length segs < words)%nat /\
        exists stall,
          word_stalled c (truthy is_write) stall /\
          events o = concat segs ++ stall)).
Proof.
  destruct (truthy is_write) eqn:Hw.
  - (* write *)
    induction words as [|w IH]; intros dptr s.
    + exists []. split; [constructor|]. left. repeat split.
    + cbv zeta. rewrite transfer_words_write_step by assumption. cbv zeta.
      set (e := EvWritel (load_u32 (mem s) dptr) (tx_fifo c)).
      set (s1 := with_hw s (dev_notify dev e (hw s))).
      destruct (wait_for_tx_fifo_empty_spec c s1)
        as (_ & _ & res & Ht & Hv).
      set (o1 := wait_for_tx_fifo_empty c s1) in *.
      destruct res as [res|]; rewrite Hv; cbn [truthy Z.eqb negb].
      * destruct (IH (dptr + 4) (final o1)) as (segs & Hall & Hcase).
        exists ((e :: events o1) :: segs).
        split.
        { constructor; [|assumption].
          exists (load_u32 (mem s) dptr), (events o1), res.
          split; [reflexivity | assumption]. }
        cbn [value final events concat length].
        destruct Hcase as [(Hn & He & Hl) | (Hn & Hl & stall & Hst & He)].
        -- left. rewrite Hn, He, Hl. repeat split.
        -- right. rewrite Hn, He. split; [reflexivity|]. split; [lia|].
           exists stall. split; [assumption|].
           cbn [app]. rewrite !app_assoc. reflexivity.
      * exists []. split; [constructor|]. right.
        cbn [value events concat length app].
        split; [reflexivity|]. split; [lia|].
        exists (e :: events o1). split; [|reflexivity].
        exists (load_u32 (mem s) dptr), (events o1).
        split; [reflexivity | assumption].
  - (* read *)
    induction words as [|w IH]; intros dptr s.
    + exists []. split; [constructor|]. left. repeat split.
    + cbv zeta. rewrite transfer_words_read_step by assumption. cbv zeta.
      destruct (wait_for_rx_fifo_notempty_spec c s)
        as (_ & _ & res & Ht & Hv).
      set (o1 := wait_for_rx_fifo_notempty c s) in *.
      destruct res as [res|]; rewrite Hv; cbn [truthy Z.eqb negb].
      * set (v := wrap32 (fst (dev_readl dev (rx_fifo c) (hw (final o1))))).
        set (s2 := with_mem _ _).
        destruct (IH (dptr + 4) s2) as (segs & Hall & Hcase).
        exists ((events o1 ++ [EvReadl (rx_fifo c) v]) :: segs).
        split.
        { constructor; [|assumption].
          exists (events o1), res, v. split; [reflexivity | assumption]. }
        cbn [value final events concat length].
        destruct Hcase as [(Hn & He & Hl) | (Hn & Hl & stall & Hst & He)].
        -- left. rewrite Hn, He, Hl. rewrite <- app_assoc. repeat split.
        -- right. rewrite Hn, He. split; [reflexivity|]. split; [lia|].
           exists stall. split; [assumption|].
           rewrite <- !app_assoc. reflexivity.
      * exists []. split; [constructor|]. right.
        cbn [value events concat length app].
        split; [reflexivity|]. split; [lia|].
        exists (events o1). split; [assumption | reflexivity].
Qed.

End WordLoop.

(** ** A whole transaction *)

Lemma send_packet_headers_events i2c_bus trans packet_id s :
  events (send_packet_headers i2c_bus trans packet_id s) =
  map (fun w => EvWritel w (tx_fifo (control i2c_bus)))
      (header_words i2c_bus trans packet_id).
Proof.
  unfold send_packet_headers, header_words, bind. cbn.
  destruct (truthy (Z.land (flags trans) (I2C_IS_WRITE h))); reflexivity.
Qed.

Lemma i2c_reset_controller_spec (i2c_bus : i2c_bus) (s : state) :
  let o := i2c_reset_controller i2c_bus s in
  mem (final o) = mem s /\
  i2c_controllers (final o) = i2c_controllers s /\
  exists sl, events o = recovery_events i2c_bus sl.
Proof.
  unfold i2c_reset_controller, set_packet_mode, recovery_events, bind.
  destruct (truthy (is_dvc i2c_bus)); cbn;
    (split; [reflexivity|]); (split; [reflexivity|]).
  - exists 0. reflexivity.
  - eexists. reflexivity.
Qed.

Lemma recovery_events_quiet (c : Z) (i2c_bus : i2c_bus) (sl : Z) :
  tx_words c (recovery_events i2c_bus sl) = [] /\
  rx_words c (recovery_events i2c_bus sl) = [].
Proof.
  unfold recovery_events. destruct (truthy (is_dvc i2c_bus)); split;
    reflexivity.
Qed.

Lemma after_prologue_mem i2c_bus trans s :
  mem (after_prologue i2c_bus trans s) = mem s /\
  i2c_controllers (after_prologue i2c_bus trans s) = i2c_controllers s.
Proof. split; reflexivity. Qed.

(** [send_recv_packets] spelled out: prologue, word loop, then either the
    recovery or the wait for completion. *)
Lemma send_recv_packets_unfold (i2c_bus : i2c_bus) (trans : i2c_trans_info)
    (s : state) :
  send_recv_packets i2c_bus trans s =
  let c := control i2c_bus in
  let pro := prologue i2c_bus trans (status_at_start i2c_bus s) in
  let o1 :=
    transfer_words c (to_int (Z.land (flags trans) (I2C_IS_WRITE h)))
      (Z.land (num_bytes trans) 3)
      (Z.to_nat (DIV_ROUND_UP (num_bytes trans) 4)) (buf trans)
      (after_prologue i2c_bus trans s) in
  match value o1 with
  | Some error =>
    let o2 := i2c_reset_controller i2c_bus (final o1) in
    {| value := error; final := final o2;
       events := pro ++ events o1 ++ events o2 |}
  | None =>
    let o2 := wait_for_transfer_complete c (final o1) in
    if truthy (value o2) then
      let o3 := i2c_reset_controller i2c_bus (final o2) in
      {| value := -1; final := final o3;
         events := pro ++ events o1 ++ events o2 ++ events o3 |}
    else
      {| value := 0; final := final o2;
         events := pro ++ events o1 ++ events o2 |}
  end.
Proof.
  unfold send_recv_packets, bind. cbv zeta.
  rewrite send_packet_headers_events.
  change (final (send_packet_headers i2c_bus trans 1
            (final (writel (value (readl (int_status (control i2c_bus)) s))
                      (int_status (control i2c_bus))
                      (final (readl (int_status (control i2c_bus)) s))))))
    with (after_prologue i2c_bus trans s).
  set (o1 := transfer_words _ _ _ _ _ _).
  destruct (value o1) as [error|].
  - cbn [ret value final events readl writel emit app prologue
         status_at_start].
    rewrite app_nil_r. reflexivity.
  - set (o2 := wait_for_transfer_complete _ _).
    destruct (truthy (value o2));
      cbn [ret value final events readl writel emit app prologue
           status_at_start];
      rewrite ?app_nil_r; reflexivity.
Qed.

Lemma prologue_fifo (i2c_bus : i2c_bus) (trans : i2c_trans_info) (v : Z) :
  tx_words (control i2c_bus) (prologue i2c_bus trans v) =
    header_words i2c_bus trans 1 /\
  rx_words (control i2c_bus) (prologue i2c_bus trans v) = [].
Proof.
  unfold prologue, header_words. cbn [map tx_words rx_words].
  rewrite Z.eqb_refl. split; reflexivity.
Qed.

Lemma wait_for_transfer_complete_quiet (c c' : Z) (s : state) :
  tx_words c' (events (wait_for_transfer_complete c s)) = [] /\
  rx_words c' (events (wait_for_transfer_complete c s)) = [].
Proof.
  destruct (wait_for_transfer_complete_spec c s) as (_ & _ & res & Ht & _).
  exact (poll_trace_quiet c' (int_status c) _ eq_refl _ _ _ Ht).
Qed.

Lemma i2c_reset_controller_quiet (c : Z) (i2c_bus : i2c_bus) (s : state) :
  tx_words c (events (i2c_reset_controller i2c_bus s)) = [] /\
  rx_words c (events (i2c_reset_controller i2c_bus s)) = [].
Proof.
  destruct (i2c_reset_controller_spec i2c_bus s) as (_ & _ & sl & ->).
  apply recovery_events_quiet.
Qed.

(** FIFO traffic, memory and result of a transaction in terms of its word
    loop: the header is the only other FIFO traffic, nothing but the loop
    touches memory, and the result is [0] or [-1]. *)
Lemma send_recv_packets_fifo (i2c_bus : i2c_bus) (trans : i2c_trans_info)
    (s : state) :
  let c := control i2c_bus in
  let o1 := payload_run i2c_bus trans s in
  let o := send_recv_packets i2c_bus trans s in
  tx_words c (events o) = header_words i2c_bus trans 1 ++ tx_words c (events o1) /\
  rx_words c (events o) = rx_words c (events o1) /\
  mem (final o) = mem (final o1) /\
  i2c_controllers (final o) = i2c_controllers (final o1) /\
  (value o = 0 \/ value o = -1) /\
  (value o = 0 -> value o1 = None).
Proof.
  cbv zeta. rewrite send_recv_packets_unfold. cbv zeta.
  fold (payload_run i2c_bus trans s).
  destruct (prologue_fifo i2c_bus trans (status_at_start i2c_bus s))
    as [Hptx Hprx].
  destruct (transfer_words_shape (control i2c_bus)
              (to_int (Z.land (flags trans) (I2C_IS_WRITE h)))
              (Z.land (num_bytes trans) 3)
              (Z.to_nat (DIV_ROUND_UP (num_bytes trans) 4)) (buf trans)
              (after_prologue i2c_bus trans s))
    as (segs & _ & Hcase).
  fold (payload_run i2c_bus trans s) in Hcase.
  set (o1 := payload_run i2c_bus trans s) in *.
  destruct Hcase as [(Hn & _) | (Hn & _)]; rewrite Hn.
  - destruct (wait_for_transfer_complete_quiet (control i2c_bus)
                (control i2c_bus) (final o1)) as [Hctx Hcrx].
    destruct (wait_for_transfer_complete_spec (control i2c_bus) (final o1))
      as (Hcm & Hcc & _).
    set (o2 := wait_for_transfer_complete (control i2c_bus) (final o1)) in *.
    destruct (truthy (value o2)).
    + destruct (i2c_reset_controller_quiet (control i2c_bus) i2c_bus
                  (final o2)) as [Hrtx Hrrx].
      destruct (i2c_reset_controller_spec i2c_bus (final o2))
        as (Hrm & Hrc & _).
      cbn [value final events].
      rewrite !tx_words_app, !rx_words_app, Hptx, Hprx, Hctx, Hcrx, Hrtx, Hrrx.
      rewrite !app_nil_r. cbn [app].
      repeat split; try congruence; try discriminate; right; reflexivity.
    + cbn [value final events].
      rewrite !tx_words_app, !rx_words_app, Hptx, Hprx, Hctx, Hcrx.
      rewrite !app_nil_r. cbn [app].
      repeat split; try congruence; try discriminate; left; reflexivity.
  - destruct (i2c_reset_controller_quiet (control i2c_bus) i2c_bus
                (final o1)) as [Hrtx Hrrx].
    destruct (i2c_reset_controller_spec i2c_bus (final o1))
      as (Hrm & Hrc & _).
    cbn [value final events].
    rewrite !tx_words_app, !rx_words_app, Hptx, Hprx, Hrtx, Hrrx.
    rewrite !app_nil_r. cbn [app].
    repeat split; try congruence; try discriminate; right; reflexivity.
Qed.

(** ** Arithmetic of lengths and flags *)

Lemma land_3_mod (n : Z) : Z.land n 3 = n mod 4.
Proof. change 3 with (Z.ones 2). rewrite Z.land_ones by lia. reflexivity. Qed.

Lemma last_bytes_range (n : Z) : 0 <= Z.land n 3 < 4.
Proof. rewrite land_3_mod. apply Z.mod_pos_bound. lia. Qed.

Lemma to_int_zero (z : Z) : to_int z = 0 <-> wrap32 z = 0.
Proof.
  unfold to_int. cbv zeta.
  assert (0 <= wrap32 z < 2 ^ 32) by (apply Z.mod_pos_bound; lia).
  destruct (Z.ltb_spec (wrap32 z) (2 ^ 31)); lia.
Qed.

Lemma land_wrap32_self (w : Z) : Z.land (wrap32 w) w = wrap32 w.
Proof.
  unfold wrap32. apply Z.bits_inj'. intros n Hn.
  rewrite Z.land_spec.
  destruct (Z.ltb_spec n 32).
  - rewrite Z.mod_pow2_bits_low by lia. apply andb_diag.
  - rewrite Z.mod_pow2_bits_high by lia. reflexivity.
Qed.

Lemma wrap32_idem (z : Z) : wrap32 (wrap32 z) = wrap32 z.
Proof. unfold wrap32. apply Z.mod_mod. lia. Qed.

(** The flag word [tegra_i2c_write_data] builds selects the write
    direction, provided [I2C_IS_WRITE] is a nonzero flag. *)
Lemma write_flag_set :
  wrap32 (I2C_IS_WRITE h) <> 0 ->
  truthy (Z.land (wrap32 (I2C_IS_WRITE h)) (I2C_IS_WRITE h)) = true /\
  truthy (to_int (Z.land (wrap32 (I2C_IS_WRITE h)) (I2C_IS_WRITE h))) = true.
Proof.
  intros Hw. rewrite land_wrap32_self. unfold truthy. split.
  - destruct (Z.eqb_spec (wrap32 (I2C_IS_WRITE h)) 0); [contradiction|].
    reflexivity.
  - destruct (Z.eqb_spec (to_int (wrap32 (I2C_IS_WRITE h))) 0) as [E|E];
      [|reflexivity].
    apply to_int_zero in E. rewrite wrap32_idem in E. contradiction.
Qed.

Lemma words_of_length (L : Z) :
  1 <= L ->
  let n := Z.of_nat (Z.to_nat (DIV_ROUND_UP L 4)) in
  4 * (n - 1) < L <= 4 * n.
Proof.
  intros HL. cbv zeta. unfold DIV_ROUND_UP.
  rewrite Z2Nat.id by (apply Z.div_pos; lia).
  Z.div_mod_to_equations. lia.
Qed.

(** When all the words of an [L]-byte read arrived, [L] bytes were
    stored. *)
Lemma received_all (L : Z) :
  0 <= L ->
  received_bytes (Z.land L 3) (Z.to_nat (DIV_ROUND_UP L 4))
    (Z.to_nat (DIV_ROUND_UP L 4)) = Z.to_nat L.
Proof.
  intros HL. unfold received_bytes, DIV_ROUND_UP, truthy.
  rewrite land_3_mod, Nat.eqb_refl. cbn [andb].
  assert (Hn : 0 <= (L + 4 - 1) / 4) by (apply Z.div_pos; lia).
  destruct (Nat.ltb_spec 0 (Z.to_nat ((L + 4 - 1) / 4)));
    destruct (Z.eqb_spec (L mod 4) 0); cbn [andb negb];
    Z.div_mod_to_equations; lia.
Qed.

(** Bytes stored never exceed the length of the transfer. *)
Lemma received_le (L : Z) (k : nat) :
  0 <= L ->
  (k <= Z.to_nat (DIV_ROUND_UP L 4))%nat ->
  (received_bytes (Z.land L 3) (Z.to_nat (DIV_ROUND_UP L 4)) k
   <= Z.to_nat L)%nat.
Proof.
  intros HL Hk.
  destruct (Nat.eq_dec k (Z.to_nat (DIV_ROUND_UP L 4))) as [->|Hne].
  - rewrite received_all by assumption. lia.
  - unfold received_bytes.
    destruct (Nat.eqb_spec k (Z.to_nat (DIV_ROUND_UP L 4)));
      [contradiction|]. cbn [andb].
    unfold DIV_ROUND_UP in *.
    assert (Hn : 0 <= (L + 4 - 1) / 4) by (apply Z.div_pos; lia).
    Z.div_mod_to_equations. lia.
Qed.


Lemma u32_bytes_nth (v i : Z) :
  0 <= i < 4 ->
  nth (Z.to_nat i) (u32_bytes v) Byte.x00 = byte_of_Z (Z.shiftr v (8 * i)).
Proof.
  intros Hi.
  assert (E : i = 0 \/ i = 1 \/ i = 2 \/ i = 3) by lia.
  destruct E as [-> | [-> | [-> | ->]]]; reflexivity.
Qed.

Lemma flat_map_u32_bytes_length (vs : list Z) :
  length (flat_map u32_bytes vs) = (4 * length vs)%nat.
Proof.
  induction vs as [|v vs IH]; [reflexivity|].
  cbn [flat_map length]. rewrite length_app, IH, u32_bytes_length. lia.
Qed.

Lemma flat_map_u32_bytes_nth (d : byte) :
  forall (vs : list Z) (j i : nat) (v : Z),
    nth_error vs j = Some v ->
    (i < 4)%nat ->
    nth (4 * j + i) (flat_map u32_bytes vs) d = nth i (u32_bytes v) d.
Proof.
  induction vs as [|v0 vs IH]; intros j i v Hj Hi.
  - destruct j; discriminate.
  - cbn [flat_map]. destruct j as [|j].
    + injection Hj as ->. rewrite app_nth1 by (rewrite u32_bytes_length; lia).
      reflexivity.
    + rewrite app_nth2 by (rewrite u32_bytes_length; lia).
      rewrite u32_bytes_length.
      replace (4 * S j + i - 4)%nat with (4 * j + i)%nat by lia.
      apply IH; assumption.
Qed.

(** ** A transaction in each direction *)

Lemma send_recv_packets_write (i2c_bus : i2c_bus) (trans : i2c_trans_info)
    (s : state) :
  is_write_transfer trans = true ->
  let c := control i2c_bus in
  let o := send_recv_packets i2c_bus trans s in
  mem (final o) = mem s /\
  i2c_controllers (final o) = i2c_controllers s /\
  rx_words c (events o) = [] /\
  exists k,
    (k <= word_count trans)%nat /\
    tx_words c (events o) =
      header_words i2c_bus trans 1 ++
      map (fun j => load_u32 (mem s) (buf trans + 4 * Z.of_nat j)) (seq 0 k) /\
    (value o = 0 -> k = word_count trans).
Proof.
  intros Hw. cbv zeta.
  destruct (send_recv_packets_fifo i2c_bus trans s)
    as (Htx & Hrx & Hm & Hc & _ & Hv).
  destruct (transfer_words_write_data (control i2c_bus) _
              (Z.land (num_bytes trans) 3) Hw (word_count trans) (buf trans)
              (after_prologue i2c_bus trans s))
    as (Hm1 & Hc1 & Hrx1 & k & Hk & Htx1 & Hnone & _).
  unfold payload_run, word_count in *.
  rewrite Hm, Hc, Hrx, Htx, Hm1, Hc1, Hrx1, Htx1.
  repeat split. exists k. repeat split; auto.
Qed.

Lemma send_recv_packets_read (i2c_bus : i2c_bus) (trans : i2c_trans_info)
    (s : state) :
  is_write_transfer trans = false ->
  let c := control i2c_bus in
  let o := send_recv_packets i2c_bus trans s in
  let vs := rx_words c (events o) in
  i2c_controllers (final o) = i2c_controllers s /\
  tx_words c (events o) = header_words i2c_bus trans 1 /\
  (length vs <= word_count trans)%nat /\
  (value o = 0 -> length vs = word_count trans) /\
  forall a,
    mem (final o) a =
    write_bytes (mem s) (buf trans)
      (firstn (received_bytes (Z.land (num_bytes trans) 3) (word_count trans)
                 (length vs))
              (flat_map u32_bytes vs)) a.
Proof.
  intros Hw. cbv zeta.
  destruct (send_recv_packets_fifo i2c_bus trans s)
    as (Htx & Hrx & Hm & Hc & _ & Hv).
  destruct (transfer_words_read_data (control i2c_bus) _
              (Z.land (num_bytes trans) 3) Hw
              (last_bytes_range (num_bytes trans))
              (word_count trans) (buf trans)
              (after_prologue i2c_bus trans s))
    as (Hc1 & Htx1 & Hlen & Hnone & _ & Hmem).
  unfold payload_run, word_count in *.
  rewrite Hc, Hrx, Htx, Hc1, Htx1, app_nil_r.
  repeat split; auto.
  intros a. rewrite Hm. apply Hmem.
Qed.

(** ** FIFO-ready polls and payload words *)

Lemma ready_polls_app (c : Z) (w : bool) (l1 l2 : list event) :
  ready_polls c w (l1 ++ l2)
  = (ready_polls c w l1 + ready_polls c w l2)%nat.
Proof.
  unfold ready_polls. rewrite samples_app, filter_app, length_app.
  reflexivity.
Qed.

Lemma poll_trace_ready (r : mmio) (f : Z -> option Z) n res evs :
  poll_trace r f n res evs ->
  length (filter (is_ready f) (samples r evs))
  = match res with Some _ => 1%nat | None => 0%nat end.
Proof.
  intros Ht. induction Ht as [| n v x Hf | n v res evs Hf Ht IH].
  - reflexivity.
  - cbn [samples]. rewrite mmio_eqb_refl. cbn [filter].
    unfold is_ready at 1. rewrite Hf. reflexivity.
  - cbn [samples]. rewrite mmio_eqb_refl. cbn [filter].
    unfold is_ready at 1. rewrite Hf. exact IH.
Qed.

Lemma poll_trace_unsampled (r r' : mmio) (f : Z -> option Z) n res evs :
  mmio_eqb r r' = false ->
  poll_trace r f n res evs ->
  samples r' evs = [].
Proof.
  intros Hr Ht. induction Ht as [| n v x Hf | n v res evs Hf Ht IH].
  - reflexivity.
  - cbn [samples]. rewrite Hr. reflexivity.
  - cbn [samples]. rewrite Hr. exact IH.
Qed.

Lemma word_done_ready (c : Z) (w : bool) (seg : list event) :
  word_done c w seg ->
  ready_polls c w seg = 1%nat /\
  length (tx_words c seg) = (if w then 1 else 0)%nat /\
  length (rx_words c seg) = (if w then 0 else 1)%nat.
Proof.
  unfold word_done, ready_polls, fifo_ready_sample. destruct w.
  - intros (x & p & res & -> & Ht).
    destruct (poll_trace_quiet c (fifo_status c) _ eq_refl _ _ _ Ht)
      as [Htx Hrx].
    cbn [samples tx_words rx_words]. rewrite Z.eqb_refl, Htx, Hrx.
    rewrite (poll_trace_ready _ _ _ _ _ Ht). repeat split.
  - intros (p & res & v & -> & Ht).
    destruct (poll_trace_quiet c (fifo_status c) _ eq_refl _ _ _ Ht)
      as [Htx Hrx].
    rewrite samples_app, tx_words_app, rx_words_app, Htx, Hrx.
    cbn [samples tx_words rx_words mmio_eqb app]. rewrite Z.eqb_refl.
    rewrite app_nil_r, (poll_trace_ready _ _ _ _ _ Ht). repeat split.
Qed.

Lemma word_stalled_ready (c : Z) (w : bool) (seg : list event) :
  word_stalled c w seg ->
  ready_polls c w seg = 0%nat /\
  length (samples (fifo_status c) seg) = budget /\
  Forall (fun v => fifo_ready_sample w v = None)
         (samples (fifo_status c) seg) /\
  length (tx_words c seg) = (if w then 1 else 0)%nat /\
  length (rx_words c seg) = 0%nat.
Proof.
  unfold word_stalled, ready_polls, fifo_ready_sample. destruct w.
  - intros (x & p & -> & Ht).
    destruct (poll_trace_quiet c (fifo_status c) _ eq_refl _ _ _ Ht)
      as [Htx Hrx].
    cbn [samples tx_words rx_words]. rewrite Z.eqb_refl, Htx, Hrx.
    rewrite (poll_trace_ready _ _ _ _ _ Ht).
    destruct (poll_trace_samples _ _ _ _ _ Ht) as [Hlen Hall].
    repeat split; assumption.
  - intros Ht.
    destruct (poll_trace_quiet c (fifo_status c) _ eq_refl _ _ _ Ht)
      as [Htx Hrx].
    rewrite Htx, Hrx, (poll_trace_ready _ _ _ _ _ Ht).
    destruct (poll_trace_samples _ _ _ _ _ Ht) as [Hlen Hall].
    repeat split; assumption.
Qed.

Lemma words_done_ready (c : Z) (w : bool) (segs : list (list event)) :
  Forall (word_done c w) segs ->
  ready_polls c w (concat segs) = length segs /\
  length (tx_words c (concat segs)) = (if w then length segs else 0)%nat /\
  length (rx_words c (concat segs)) = (if w then 0 else length segs)%nat.
Proof.
  intros Hall. induction Hall as [|seg segs Hseg Hall (IH1 & IH2 & IH3)].
  - destruct w; repeat split.
  - destruct (word_done_ready c w seg Hseg) as (H1 & H2 & H3).
    cbn [concat length].
    rewrite ready_polls_app, tx_words_app, rx_words_app, !length_app.
    rewrite H1, H2, H3, IH1, IH2, IH3. destruct w; repeat split; lia.
Qed.

(** The word loop: how many FIFO words it moves, by the number of its
    FIFO-ready polls that succeeded. *)
Lemma transfer_words_polls (c is_write last_bytes : Z) (words : nat)
    (dptr : Z) (s : state) :
  let w := truthy is_write in
  let o := transfer_words c is_write last_bytes words dptr s in
  let seen := samples (fifo_status c) (events o) in
  let r := ready_polls c w (events o) in
  (r <= words)%nat /\
  length (tx_words c (events o)) = (if w then Nat.min words (S r) else 0)%nat /\
  length (rx_words c (events o)) = (if w then 0 else r)%nat /\
  (r = words -> value o = None) /\
  ((r < words)%nat ->
   value o = Some (-1) /\
   exists pre stall,
     seen = pre ++ stall /\ length stall = budget /\
     Forall (fun v => fifo_ready_sample w v = None) stall).
Proof.
  cbv zeta.
  destruct (transfer_words_shape c is_write last_bytes words dptr s)
    as (segs & Hall & Hcase).
  cbv zeta in Hcase.
  destruct (words_done_ready c (truthy is_write) segs Hall)
    as (H1 & H2 & H3).
  set (o := transfer_words c is_write last_bytes words dptr s) in *.
  destruct Hcase as [(Hv & He & Hl) | (Hv & Hl & stall & Hst & He)].
  - rewrite He, H1, H2, H3, Hl.
    split; [lia|]. split; [destruct (truthy is_write); lia|].
    split; [reflexivity|]. split; [intros _; exact Hv | lia].
  - destruct (word_stalled_ready c (truthy is_write) stall Hst)
      as (S1 & S2 & S3 & S4 & S5).
    rewrite He, ready_polls_app, tx_words_app, rx_words_app, !length_app,
      samples_app.
    rewrite H1, H2, H3, S1, S4, S5.
    split; [lia|]. split; [destruct (truthy is_write); lia|].
    split; [destruct (truthy is_write); lia|].
    split; [lia|]. intros _. split; [exact Hv|].
    exists (samples (fifo_status c) (concat segs)),
           (samples (fifo_status c) stall).
    repeat split; assumption.
Qed.

Lemma recovery_events_unsampled (c : Z) (i2c_bus : i2c_bus) (sl : Z) :
  samples (fifo_status c) (recovery_events i2c_bus sl) = [].
Proof.
  unfold recovery_events. destruct (truthy (is_dvc i2c_bus)); reflexivity.
Qed.

(** Nothing but the word loop reads the FIFO status. *)
Lemma send_recv_packets_fifo_status (i2c_bus : i2c_bus)
    (trans : i2c_trans_info) (s : state) :
  let c := control i2c_bus in
  samples (fifo_status c) (events (send_recv_packets i2c_bus trans s))
  = samples (fifo_status c) (events (payload_run i2c_bus trans s)).
Proof.
  cbv zeta. rewrite send_recv_packets_unfold. cbv zeta.
  fold (payload_run i2c_bus trans s).
  set (o1 := payload_run i2c_bus trans s).
  assert (Hpro : samples (fifo_status (control i2c_bus))
                   (prologue i2c_bus trans (status_at_start i2c_bus s)) = [])
    by reflexivity.
  assert (Hrec : forall s',
            samples (fifo_status (control i2c_bus))
              (events (i2c_reset_controller i2c_bus s')) = []).
  { intros s'.
    destruct (i2c_reset_controller_spec i2c_bus s') as (_ & _ & sl & ->).
    apply recovery_events_unsampled. }
  destruct (value o1) as [error|].
  - cbn [events]. rewrite !samples_app, Hpro, Hrec, app_nil_r. reflexivity.
  - destruct (wait_for_transfer_complete_spec (control i2c_bus) (final o1))
      as (_ & _ & res & Ht & _).
    pose proof (poll_trace_unsampled (int_status (control i2c_bus))
                  (fifo_status (control i2c_bus)) _ _ _ _ eq_refl Ht) as Hc.
    set (o2 := wait_for_transfer_complete (control i2c_bus) (final o1)) in *.
    destruct (truthy (value o2)); cbn [events];
      rewrite !samples_app, Hpro, Hc, ?Hrec, ?app_nil_r; reflexivity.
Qed.

(** A transaction: the payload words it moves, by the number of its
    FIFO-ready polls that succeeded; a poll that is missing from the count
    timed out, and ended the transaction with -1. *)
Lemma send_recv_packets_polls (i2c_bus : i2c_bus) (trans : i2c_trans_info)
    (s : state) :
  let c := control i2c_bus in
  let w := is_write_transfer trans in
  let n := word_count trans in
  let o := send_recv_packets i2c_bus trans s in
  let seen := samples (fifo_status c) (events o) in
  let r := ready_polls c w (events o) in
  (r <= n)%nat /\
  length (tx_words c (events o))
  = (if w then 3 + Nat.min n (S r) else 3)%nat /\
  length (rx_words c (events o)) = (if w then 0 else r)%nat /\
  ((r < n)%nat ->
   value o = -1 /\
   exists pre stall,
     seen = pre ++ stall /\ length stall = budget /\
     Forall (fun v => fifo_ready_sample w v = None) stall).
Proof.
  cbv zeta.
  destruct (send_recv_packets_fifo i2c_bus trans s)
    as (Htx & Hrx & _ & _ & H01 & H0).
  pose proof (send_recv_packets_fifo_status i2c_bus trans s) as Hs.
  cbv zeta in Htx, Hrx, H0, Hs.
  unfold ready_polls. rewrite Hs, Htx, Hrx, length_app.
  fold (ready_polls (control i2c_bus) (is_write_transfer trans)
          (events (payload_run i2c_bus trans s))).
  destruct (transfer_words_polls (control i2c_bus)
              (to_int (Z.land (flags trans) (I2C_IS_WRITE h)))
              (Z.land (num_bytes trans) 3)
              (Z.to_nat (DIV_ROUND_UP (num_bytes trans) 4)) (buf trans)
              (after_prologue i2c_bus trans s))
    as (Hle & Hltx & Hlrx & _ & Hstall).
  fold (payload_run i2c_bus trans s) in Hle, Hltx, Hlrx, Hstall.
  fold (is_write_transfer trans) in Hle, Hltx, Hlrx, Hstall.
  fold (word_count trans) in Hle, Hltx, Hstall.
  split; [exact Hle|].
  split; [rewrite Hltx; destruct (is_write_transfer trans); reflexivity|].
  split; [exact Hlrx|].
  intros Hlt. destruct (Hstall Hlt) as (Hv & Hseen).
  split; [|exact Hseen].
  destruct H01 as [E|E]; [|exact E].
  specialize (H0 E). congruence.
Qed.

(** ** The claims *)

(** C1 (as amended).  A transaction with payload length [L >= 1] sends
    exactly three header words and then performs payload FIFO word
    operations in the direction of its descriptor only (transmit FIFO writes
    for a write, receive FIFO reads for a read).  Let [n = ceil(L/4)]
    (written [4 * (n - 1) < L <= 4 * n]) and let [r] be the number of its
    FIFO-ready polls that succeeded; [r <= n].  A read performs exactly [r]
    word operations and a write exactly [min n (r + 1)].  So the transaction
    performs exactly [n] of them in every run in which no FIFO-ready poll
    times out, whatever it returns, and never more than [n].  When fewer than
    [n] polls succeeded, the samples of the FIFO status end with a whole
    budget of samples none of which was ready: that poll timed out, the loop
    ended there and the result is -1. *)
Theorem send_recv_packets_word_count (i2c_bus : i2c_bus)
    (trans : i2c_trans_info) (s : state) :
  1 <= num_bytes trans ->
  let c := control i2c_bus in
  let o := send_recv_packets i2c_bus trans s in
  let write := is_write_transfer trans in
  let n := word_count trans in
  let seen := samples (fifo_status c) (events o) in
  let r := ready_polls c write (events o) in
  exists w1 w2 w3 payload,
    (if write
     then tx_words c (events o) = w1 :: w2 :: w3 :: payload /\
          rx_words c (events o) = []
     else tx_words c (events o) = [w1; w2; w3] /\
          rx_words c (events o) = payload) /\
    4 * (Z.of_nat n - 1) < num_bytes trans <= 4 * Z.of_nat n /\
    (r <= n)%nat /\
    length payload = (if write then Nat.min n (S r) else r) /\
    (length payload <= n)%nat /\
    (r = n -> length payload = n) /\
    ((r < n)%nat ->
     value o = -1 /\
     exists pre stall,
       seen = pre ++ stall /\ length stall = budget /\
       Forall (fun v => fifo_ready_sample write v = None) stall) /\
    (value o = 0 -> length payload = n).
Proof.
  intros HL. cbv zeta.
  pose proof (words_of_length (num_bytes trans) HL) as Hn. cbv zeta in Hn.
  fold (word_count trans) in Hn.
  destruct (send_recv_packets_polls i2c_bus trans s)
    as (Hle & Hltx & Hlrx & Hstall).
  cbv zeta in Hle, Hltx, Hlrx, Hstall.
  set (r := ready_polls (control i2c_bus) (is_write_transfer trans)
              (events (send_recv_packets i2c_bus trans s))) in *.
  destruct (is_write_transfer trans) eqn:Hw.
  - destruct (send_recv_packets_write i2c_bus trans s Hw)
      as (_ & _ & Hrx & k & Hk & Htx & Hv).
    rewrite Htx in Hltx. cbn [header_words app length] in Hltx.
    rewrite length_map, length_seq in Hltx.
    eexists _, _, _, _. split; [split; [exact Htx | exact Hrx]|].
    rewrite length_map, length_seq.
    split; [exact Hn|]. split; [exact Hle|]. split; [lia|].
    split; [lia|]. split; [lia|]. split; [exact Hstall|].
    intros H0. apply Hv. exact H0.
  - destruct (send_recv_packets_read i2c_bus trans s Hw)
      as (_ & Htx & Hlen & Hv & _).
    eexists _, _, _, _. split; [split; [exact Htx | reflexivity]|].
    split; [exact Hn|]. split; [exact Hle|]. split; [exact Hlrx|].
    split; [lia|]. split; [lia|]. split; [exact Hstall|].
    exact Hv.
Qed.

Lemma payload_word_nth (m : memory) (p : Z) (k j : nat) (w : Z) :
  nth_error (map (fun j => load_u32 m (p + 4 * Z.of_nat j)) (seq 0 k)) j
    = Some w ->
  (j < k)%nat /\ w = load_u32 m (p + 4 * Z.of_nat j).
Proof.
  rewrite nth_error_map, nth_error_seq.
  destruct (Nat.ltb_spec j k); cbn; [|discriminate].
  intros E. injection E as <-. split; [assumption | reflexivity].
Qed.

Lemma word_count_ceil (trans : i2c_trans_info) (n : Z) :
  4 * (n - 1) < num_bytes trans <= 4 * n ->
  1 <= num_bytes trans ->
  word_count trans = Z.to_nat n.
Proof.
  intros Hn HL. unfold word_count, DIV_ROUND_UP. f_equal.
  Z.div_mod_to_equations. lia.
Qed.

(** C2.  Let [n = ceil(L/4)], let [p] be where the final word's bytes
    start in the buffer, and let [r] be the number of FIFO-ready polls of
    the run that succeeded.  In a read the final word is received exactly
    when all [n] polls succeeded (as they did in every run that returns 0);
    it puts its [L mod 4] low-order bytes (all four when [L] is a multiple
    of 4) at [p], and the transaction changes no byte outside the [L] bytes
    of the buffer.  In a write the final word goes out exactly when the
    [n - 1] polls before it succeeded; it is the full four bytes found at
    [p], whatever [L mod 4] is, and memory is left as it was. *)
Theorem final_word_transfer (i2c_bus : i2c_bus) (trans : i2c_trans_info)
    (s : state) (n : Z) :
  let L := num_bytes trans in
  4 * (n - 1) < L <= 4 * n ->
  1 <= L ->
  let c := control i2c_bus in
  let o := send_recv_packets i2c_bus trans s in
  let p := buf trans + 4 * (n - 1) in
  let k := if L mod 4 =? 0 then 4 else L mod 4 in
  let r :=
    Z.of_nat (ready_polls c (is_write_transfer trans) (events o)) in
  let final_tx :=
    nth_error (skipn 3 (tx_words c (events o))) (Z.to_nat (n - 1)) in
  let final_rx := nth_error (rx_words c (events o)) (Z.to_nat (n - 1)) in
  (value o = 0 -> r = n) /\
  if is_write_transfer trans then
    mem (final o) = mem s /\
    (n - 1 <= r <-> exists w, final_tx = Some w) /\
    forall w, final_tx = Some w -> u32_bytes w = read_bytes (mem s) p 4
  else
    (forall a, a < buf trans \/ buf trans + L <= a ->
               mem (final o) a = mem s a) /\
    (n <= r <-> exists v, final_rx = Some v) /\
    forall v,
      final_rx = Some v ->
      forall i, 0 <= i < k ->
                mem (final o) (p + i) = byte_of_Z (Z.shiftr v (8 * i)).
Proof.
  intros L Hn HL c o p k r final_tx final_rx.
  pose proof (word_count_ceil trans n Hn HL) as Hwc.
  destruct (send_recv_packets_polls i2c_bus trans s)
    as (Hle & Hltx & Hlrx & Hstall).
  cbv zeta in Hle, Hltx, Hlrx, Hstall. fold c o in Hle, Hltx, Hlrx, Hstall.
  rewrite Hwc in Hle, Hltx, Hstall.
  assert (Hsome : forall (l : list Z) j,
            (exists x, nth_error l j = Some x) <-> (j < length l)%nat).
  { intros l j. rewrite <- nth_error_Some.
    destruct (nth_error l j) as [x|]; split.
    - intros _. discriminate.
    - intros _. exists x. reflexivity.
    - intros (x & E). discriminate.
    - intros E. contradiction. }
  split.
  { intros H0. unfold r.
    destruct (Nat.lt_ge_cases
                (ready_polls c (is_write_transfer trans) (events o))
                (Z.to_nat n)) as [Hlt|Hge]; [|lia].
    destruct (Hstall Hlt) as (E & _). congruence. }
  destruct (is_write_transfer trans) eqn:Hw.
  - destruct (send_recv_packets_write i2c_bus trans s Hw)
      as (Hm & _ & _ & k' & Hk & Htx & _).
    split; [exact Hm|]. split.
    + unfold final_tx. rewrite Hsome, length_skipn, Hltx. unfold r. lia.
    + intros w Hnth. unfold final_tx in Hnth. fold c o in Htx.
      rewrite Htx in Hnth.
      cbn [header_words app skipn] in Hnth.
      apply payload_word_nth in Hnth. destruct Hnth as [_ ->].
      rewrite u32_bytes_load. unfold p. f_equal. lia.
  - destruct (send_recv_packets_read i2c_bus trans s Hw)
      as (_ & _ & Hlen & _ & Hmem).
    fold c o L in Hlen, Hmem.
    set (vs := rx_words c (events o)) in *.
    assert (Hrle : (received_bytes (Z.land L 3) (word_count trans)
                      (length vs) <= Z.to_nat L)%nat)
      by (apply received_le; [lia | assumption]).
    split.
    + intros a Ha. rewrite Hmem. apply write_bytes_outside.
      pose proof (firstn_le_length
                    (received_bytes (Z.land L 3) (word_count trans)
                       (length vs))
                    (flat_map u32_bytes vs)).
      lia.
    + split.
      { unfold final_rx. rewrite Hsome, Hlrx. unfold r. lia. }
      intros v Hnth i Hi. unfold final_rx in Hnth.
      assert (Hlt : (Z.to_nat (n - 1) < length vs)%nat)
        by (apply nth_error_Some; congruence).
      assert (Hall : length vs = word_count trans) by lia.
      rewrite Hmem, Hall, received_all by lia.
      assert (Hk : 4 * (n - 1) + k = L).
      { unfold k. destruct (Z.eqb_spec (L mod 4) 0);
          Z.div_mod_to_equations; lia. }
      assert (Hk4 : 0 < k <= 4).
      { unfold k. destruct (Z.eqb_spec (L mod 4) 0);
          Z.div_mod_to_equations; lia. }
      replace (p + i)
        with (buf trans + Z.of_nat (4 * Z.to_nat (n - 1) + Z.to_nat i))
        by (unfold p; lia).
      rewrite (write_bytes_inside _ Byte.x00).
      * rewrite nth_firstn.
        destruct (Nat.ltb_spec (4 * Z.to_nat (n - 1) + Z.to_nat i)
                    (Z.to_nat L)); [|lia].
        rewrite (flat_map_u32_bytes_nth _ _ _ _ v Hnth) by lia.
        apply u32_bytes_nth. lia.
      * rewrite length_firstn, flat_map_u32_bytes_length. lia.
Qed.

Lemma read_flag_clear (a b n : Z) :
  is_write_transfer
    {| address := a; buf := b; flags := 0; num_bytes := n;
       is_10bit_address := 0 |} = false.
Proof.
  unfold is_write_transfer. cbn [flags]. rewrite Z.land_0_l. reflexivity.
Qed.

Lemma write_flag_transfer (a b n : Z) :
  wrap32 (I2C_IS_WRITE h) <> 0 ->
  is_write_transfer
    {| address := a; buf := b; flags := wrap32 (I2C_IS_WRITE h);
       num_bytes := n; is_10bit_address := 0 |} = true.
Proof.
  intros Hw. unfold is_write_transfer. cbn [flags].
  apply write_flag_set. assumption.
Qed.


(** C5.  The events of a transaction are: the prologue (status cleared,
    three header words), then the words that were transferred, each with a
    wait that succeeded, then
    - either the wait for completion that saw the transfer complete, and
      the result is 0;
    - or the one poll that failed (the FIFO wait of the next word, or the
      wait for completion after the last word), followed at once by the
      recovery: peripheral reset, configuration register written for packet
      mode and, on a controller that is not a DVC, the slave-config bit set;
      the result is then -1.
    So a failed poll is followed by no FIFO operation, the header goes out
    once, and nothing is attempted again. *)
Theorem send_recv_packets_recovery (i2c_bus : i2c_bus)
    (trans : i2c_trans_info) (s : state) :
  let c := control i2c_bus in
  let o := send_recv_packets i2c_bus trans s in
  let write := is_write_transfer trans in
  exists v segs,
    Forall (word_done c write) segs /\
    (length segs <= word_count trans)%nat /\
    ((value o = 0 /\
      length segs = word_count trans /\
      exists cpl,
        completion_seen c cpl /\
        events o = prologue i2c_bus trans v ++ concat segs ++ cpl)
     \/
     (value o = -1 /\
      exists failed sl,
        (word_stalled c write failed \/
         (length segs = word_count trans /\ completion_failed c failed)) /\
        events o =
          prologue i2c_bus trans v ++ concat segs ++ failed ++
          recovery_events i2c_bus sl)).
Proof.
  cbv zeta. rewrite send_recv_packets_unfold. cbv zeta.
  destruct (transfer_words_shape (control i2c_bus)
              (to_int (Z.land (flags trans) (I2C_IS_WRITE h)))
              (Z.land (num_bytes trans) 3)
              (Z.to_nat (DIV_ROUND_UP (num_bytes trans) 4)) (buf trans)
              (after_prologue i2c_bus trans s))
    as (segs & Hall & Hcase).
  fold (is_write_transfer trans) in Hall, Hcase.
  fold (word_count trans) in Hcase |- *.
  exists (status_at_start i2c_bus s), segs.
  split; [assumption|].
  destruct Hcase as [(Hn & He & Hl) | (Hn & Hl & stall & Hst & He)];
    rewrite Hn, He.
  - split; [lia|].
    set (s1 := final (transfer_words _ _ _ _ _ _)).
    destruct (wait_for_transfer_complete_spec (control i2c_bus) s1)
      as (_ & _ & res & Ht & Hv).
    set (o2 := wait_for_transfer_complete (control i2c_bus) s1) in *.
    destruct (truthy (value o2)) eqn:Hz.
    + right. cbn [value events]. split; [reflexivity|].
      destruct (i2c_reset_controller_spec i2c_bus (final o2))
        as (_ & _ & sl & ->).
      exists (events o2), sl. split; [|reflexivity].
      right. split; [assumption|].
      exists res. split; [assumption|].
      destruct res as [[v x]|]; [|exact I].
      rewrite Hv in Hz. unfold truthy in Hz.
      destruct (Z.eqb_spec x 0); [discriminate | assumption].
    + left. cbn [value events]. split; [reflexivity|].
      split; [assumption|].
      exists (events o2). split; [|reflexivity].
      unfold truthy in Hz. destruct (Z.eqb_spec (value o2) 0) as [E|E];
        [|discriminate].
      destruct res as [[v x]|]; [|rewrite Hv in E; discriminate].
      exists v. rewrite Hv in E. rewrite E in Ht. exact Ht.
  - split; [lia|]. right. cbn [value events]. split; [reflexivity|].
    set (s1 := final (transfer_words _ _ _ _ _ _)).
    destruct (i2c_reset_controller_spec i2c_bus s1) as (_ & _ & sl & ->).
    exists stall, sl. split; [left; assumption|].
    rewrite <- !app_assoc. reflexivity.
Qed.

(** ** What the polls sampled *)

Lemma to_int_range (z : Z) : - 2 ^ 31 <= to_int z < 2 ^ 31.
Proof.
  unfold to_int. cbv zeta.
  assert (0 <= wrap32 z < 2 ^ 32) by (apply Z.mod_pos_bound; lia).
  destruct (Z.ltb_spec (wrap32 z) (2 ^ 31)); lia.
Qed.

Lemma neg_int_zero (st : Z) :
  - 2 ^ 31 <= st < 2 ^ 31 -> neg_int st = 0 -> st = 0.
Proof.
  intros Hr E. unfold neg_int in E. apply to_int_zero in E.
  unfold wrap32 in E. Z.div_mod_to_equations. lia.
Qed.

Lemma neg_int_minus_one (st : Z) :
  - 2 ^ 31 <= st < 2 ^ 31 -> neg_int st = -1 -> st = 1.
Proof.
  intros Hr E. unfold neg_int, to_int, wrap32 in E. cbv zeta in E.
  destruct (Z.ltb_spec ((- st) mod 2 ^ 32) (2 ^ 31));
    Z.div_mod_to_equations; lia.
Qed.

(** The three outcomes of one sample of the interrupt status. *)
Lemma transfer_complete_sample_cases (v : Z) :
  Z.land 1 (I2C_INT_NO_ACK_MASK h) = 0 ->
  Z.land 1 (I2C_INT_ARBITRATION_LOST_MASK h) = 0 ->
  match transfer_complete_sample v with
  | Some x =>
    if status_bit v (I2C_INT_NO_ACK_MASK h)
       || status_bit v (I2C_INT_ARBITRATION_LOST_MASK h)
    then x = neg_int (to_int v) /\ x <> 0 /\ x <> -1
    else x = 0 /\ status_bit v (I2C_INT_XFER_COMPLETE_MASK h) = true
  | None =>
    status_bit v (I2C_INT_NO_ACK_MASK h) = false /\
    status_bit v (I2C_INT_ARBITRATION_LOST_MASK h) = false /\
    status_bit v (I2C_INT_XFER_COMPLETE_MASK h) = false
  end.
Proof.
  intros Hn Ha. unfold transfer_complete_sample, status_bit. cbv zeta.
  pose proof (to_int_range v) as Hr.
  assert (Herr : forall mask,
            Z.land 1 mask = 0 ->
            truthy (Z.land (to_int v) mask) = true ->
            neg_int (to_int v) <> 0 /\ neg_int (to_int v) <> -1).
  { intros mask Hm Hb. split; intros E.
    - apply neg_int_zero in E; [|assumption].
      rewrite E, Z.land_0_l in Hb. discriminate.
    - apply neg_int_minus_one in E; [|assumption].
      rewrite E, Hm in Hb. discriminate. }
  destruct (truthy (Z.land (to_int v) (I2C_INT_NO_ACK_MASK h))) eqn:E1.
  - cbn [orb]. split; [reflexivity | apply (Herr _ Hn E1)].
  - destruct (truthy (Z.land (to_int v) (I2C_INT_ARBITRATION_LOST_MASK h)))
      eqn:E2.
    + cbn [orb]. split; [reflexivity | apply (Herr _ Ha E2)].
    + cbn [orb].
      destruct (truthy (Z.land (to_int v) (I2C_INT_XFER_COMPLETE_MASK h)));
        repeat split.
Qed.

(** C4 (as amended).  [wait_for_transfer_complete] tells three outcomes
    apart by its last sample [v] of the interrupt status: with the
    no-acknowledge or the arbitration-lost bit set it returns the negated
    snapshot, which is neither 0 nor -1; with neither of them and the
    transfer-complete bit set it returns 0; and after a whole budget of
    samples with none of the three bits it returns -1.  [send_recv_packets]
    returns only 0 or -1: 0 when the last status sample had the
    transfer-complete bit and no error bit, and -1 for every failure, so
    that its caller gets the same value for a no-acknowledge, a lost
    arbitration and a timeout. *)
Theorem transfer_complete_report (i2c_bus : i2c_bus)
    (trans : i2c_trans_info) (s s' : state) (c : Z) :
  Z.land 1 (I2C_INT_NO_ACK_MASK h) = 0 ->
  Z.land 1 (I2C_INT_ARBITRATION_LOST_MASK h) = 0 ->
  let error_bit v :=
    status_bit v (I2C_INT_NO_ACK_MASK h)
    || status_bit v (I2C_INT_ARBITRATION_LOST_MASK h) in
  let complete_bit v := status_bit v (I2C_INT_XFER_COMPLETE_MASK h) in
  (let o := wait_for_transfer_complete c s' in
   let seen := samples (int_status c) (events o) in
   (exists pre v,
      seen = pre ++ [v] /\ error_bit v = true /\
      value o = neg_int (to_int v) /\ value o <> 0 /\ value o <> -1) \/
   (exists pre v,
      seen = pre ++ [v] /\ error_bit v = false /\ complete_bit v = true /\
      value o = 0) \/
   (value o = -1 /\ length seen = budget /\
    Forall (fun v => error_bit v = false /\ complete_bit v = false) seen)) /\
  (let o := send_recv_packets i2c_bus trans s in
   let seen := samples (int_status (control i2c_bus)) (events o) in
   (value o = 0 \/ value o = -1) /\
   (value o = 0 ->
    exists pre v,
      seen = pre ++ [v] /\ error_bit v = false /\ complete_bit v = true)).
Proof.
  intros Hn Ha error_bit complete_bit.
  assert (Hpoll : forall c0 (s0 : state),
    let o := wait_for_transfer_complete c0 s0 in
    let seen := samples (int_status c0) (events o) in
    (exists pre v,
       seen = pre ++ [v] /\ error_bit v = true /\
       value o = neg_int (to_int v) /\ value o <> 0 /\ value o <> -1) \/
    (exists pre v,
       seen = pre ++ [v] /\ error_bit v = false /\ complete_bit v = true /\
       value o = 0) \/
    (value o = -1 /\ length seen = budget /\
     Forall (fun v => error_bit v = false /\ complete_bit v = false) seen)).
  { intros c0 s0. cbv zeta.
    destruct (wait_for_transfer_complete_spec c0 s0)
      as (_ & _ & res & Ht & Hv).
    apply poll_trace_samples in Ht.
    destruct res as [[v x]|].
    - destruct Ht as (pre & Hs & _ & Hx & _).
      pose proof (transfer_complete_sample_cases v Hn Ha) as Hc.
      rewrite Hx in Hc. fold (error_bit v) in Hc.
      destruct (error_bit v) eqn:Eb.
      + left. exists pre, v. rewrite Hv. destruct Hc as (-> & H0 & H1).
        repeat split; assumption.
      + right; left. exists pre, v. rewrite Hv. destruct Hc as (-> & Hb).
        repeat split; assumption.
    - destruct Ht as [Hlen Hall]. right; right.
      split; [assumption|]. split; [assumption|].
      eapply Forall_impl; [|exact Hall]. intros v Hnone.
      pose proof (transfer_complete_sample_cases v Hn Ha) as Hc.
      rewrite Hnone in Hc. destruct Hc as (E1 & E2 & E3).
      unfold error_bit, complete_bit. rewrite E1, E2, E3. split; reflexivity. }
  split; [apply Hpoll|].
  cbv zeta.
  destruct (send_recv_packets_fifo i2c_bus trans s) as (_ & _ & _ & _ & H01 & _).
  split; [assumption|].
  rewrite send_recv_packets_unfold. cbv zeta.
  set (o1 := transfer_words _ _ _ _ _ _).
  destruct (value o1) as [error|] eqn:Hv1.
  - intros H0. cbn [value] in H0.
    destruct (transfer_words_shape (control i2c_bus)
                (to_int (Z.land (flags trans) (I2C_IS_WRITE h)))
                (Z.land (num_bytes trans) 3)
                (Z.to_nat (DIV_ROUND_UP (num_bytes trans) 4)) (buf trans)
                (after_prologue i2c_bus trans s))
      as (segs & _ & [(Hnone & _) | (Hsome & _)]);
      fold o1 in Hnone || fold o1 in Hsome; congruence.
  - specialize (Hpoll (control i2c_bus) (final o1)). cbv zeta in Hpoll.
    set (o2 := wait_for_transfer_complete (control i2c_bus) (final o1)) in *.
    destruct (truthy (value o2)) eqn:Hz; cbn [value events].
    + discriminate.
    + intros _. rewrite !samples_app.
      unfold truthy in Hz.
      destruct (Z.eqb_spec (value o2) 0) as [E|E]; [|discriminate].
      destruct Hpoll as [(pre & v & _ & _ & _ & Hne & _)
                        | [(pre & v & Hs & Hb & Hcb & _) | (Hm1 & _)]].
      * contradiction.
      * rewrite Hs. eexists _, v. rewrite !app_assoc.
        split; [reflexivity|]. split; assumption.
      * rewrite E in Hm1. discriminate.
Qed.

(** ** The header words *)

(** An 8-bit address shifted into its field stays clear of every bit the
    full 8-bit field is clear of. *)
Lemma address_field_disjoint (a sh mask : Z) :
  0 <= a < 256 ->
  0 <= sh ->
  Z.land (wrap32 (Z.shiftl 255 sh)) mask = 0 ->
  Z.land (wrap32 (Z.shiftl a sh)) mask = 0.
Proof.
  intros Ha Hsh H255. apply Z.bits_inj'. intros n Hn.
  rewrite Z.land_spec, Z.bits_0.
  assert (Hbit : Z.testbit (Z.land (wrap32 (Z.shiftl 255 sh)) mask) n = false)
    by (rewrite H255; apply Z.bits_0).
  rewrite Z.land_spec in Hbit.
  destruct (Z.testbit (wrap32 (Z.shiftl a sh)) n) eqn:Eb; [|reflexivity].
  cbn [andb]. unfold wrap32 in *.
  destruct (Z.ltb_spec n 32).
  - rewrite Z.mod_pow2_bits_low in Eb, Hbit by lia.
    rewrite Z.shiftl_spec in Eb, Hbit by lia.
    assert (Hk : 0 <= n - sh < 8).
    { destruct (Z.ltb_spec (n - sh) 0).
      - rewrite Z.testbit_neg_r in Eb by lia. discriminate.
      - destruct (Z.ltb_spec (n - sh) 8); [lia|].
        replace a with (a mod 2 ^ 8) in Eb by (apply Z.mod_small; lia).
        rewrite Z.mod_pow2_bits_high in Eb by lia. discriminate. }
    change 255 with (Z.ones 8) in Hbit.
    rewrite Z.ones_spec_low in Hbit by lia. exact Hbit.
  - rewrite Z.mod_pow2_bits_high in Eb by lia. discriminate.
Qed.

Lemma i2c_write_data_events (bus : i2c_bus) (chip buffer len : Z)
    (s : state) :
  wrap32 (I2C_IS_WRITE h) <> 0 ->
  let c := control bus in
  let trans :=
    {| address := wrap32 (Z.shiftl chip 1); buf := buffer;
       flags := wrap32 (I2C_IS_WRITE h); num_bytes := wrap32 len;
       is_10bit_address := 0 |} in
  exists v w1 rest,
    events (i2c_write_data bus chip buffer len s) =
    EvReadl (int_status c) v :: EvWritel v (int_status c) ::
    EvWritel w1 (tx_fifo c) ::
    EvWritel (wrap32 (Z.shiftl (wrap32 (wrap32 len - 1))
                               (PKT_HDR2_PAYLOAD_SIZE_SHIFT h)))
             (tx_fifo c) ::
    EvWritel (wrap32 (Z.shiftl (wrap32 (Z.shiftl chip 1))
                               (PKT_HDR3_SLAVE_ADDR_SHIFT h)))
             (tx_fifo c) ::
    rest /\
    rest = skipn 5 (events (send_recv_packets bus trans s)).
Proof.
  intros Hw c trans.
  unfold i2c_write_data, tegra_i2c_write_data. fold trans.
  rewrite send_recv_packets_unfold. cbv zeta.
  set (o1 := transfer_words _ _ _ _ _ _).
  assert (Hpro : exists w1,
    prologue bus trans (status_at_start bus s) =
    [EvReadl (int_status c) (status_at_start bus s);
     EvWritel (status_at_start bus s) (int_status c);
     EvWritel w1 (tx_fifo c);
     EvWritel (wrap32 (Z.shiftl (wrap32 (wrap32 len - 1))
                                (PKT_HDR2_PAYLOAD_SIZE_SHIFT h)))
              (tx_fifo c);
     EvWritel (wrap32 (Z.shiftl (wrap32 (Z.shiftl chip 1))
                                (PKT_HDR3_SLAVE_ADDR_SHIFT h)))
              (tx_fifo c)]).
  { unfold prologue, header_words. cbn [map flags trans address num_bytes].
    destruct (write_flag_set Hw) as [-> _]. eexists. reflexivity. }
  destruct Hpro as [w1 Hpro]. rewrite Hpro.
  exists (status_at_start bus s), w1.
  destruct (value o1);
    [|destruct (truthy (value (wait_for_transfer_complete _ _)))];
    cbn [events app skipn]; eexists; split; reflexivity.
Qed.

(** C3.  [send_packet_headers] does three things and nothing else: three
    writes to the transmit FIFO.  The second word is [num_bytes - 1] in the
    payload-size field.  The third is the address in its field, together
    with the read-mode bits exactly when the write flag of the descriptor is
    clear (for an 8-bit address, on a layout whose read-mode bits lie
    outside the 8-bit address field).  In particular a write to device 0x50
    of 3 bytes sends, after the first header word, the value 2 in the
    payload-size field and then the address 0xA0 in its field with no
    read-mode bit. *)
Theorem send_packet_headers_three_words (i2c_bus : i2c_bus)
    (trans : i2c_trans_info) (packet_id : Z) (s : state) :
  0 <= PKT_HDR3_SLAVE_ADDR_SHIFT h ->
  Z.land (wrap32 (Z.shiftl 255 (PKT_HDR3_SLAVE_ADDR_SHIFT h)))
         (wrap32 (PKT_HDR3_READ_MODE_MASK h)) = 0 ->
  wrap32 (I2C_IS_WRITE h) <> 0 ->
  0 <= address trans < 256 ->
  let fifo := tx_fifo (control i2c_bus) in
  let read_mode := wrap32 (PKT_HDR3_READ_MODE_MASK h) in
  let field3 x := wrap32 (Z.shiftl x (PKT_HDR3_SLAVE_ADDR_SHIFT h)) in
  let field2 x := wrap32 (Z.shiftl x (PKT_HDR2_PAYLOAD_SIZE_SHIFT h)) in
  (exists w1 w2 w3,
     events (send_packet_headers i2c_bus trans packet_id s) =
       [EvWritel w1 fifo; EvWritel w2 fifo; EvWritel w3 fifo] /\
     w2 = field2 (wrap32 (num_bytes trans - 1)) /\
     w3 = Z.lor (field3 (address trans)) (Z.land w3 read_mode) /\
     Z.land w3 read_mode =
       (if truthy (Z.land (flags trans) (I2C_IS_WRITE h)) then 0
        else read_mode)) /\
  (forall buffer s0,
     exists v w1 rest,
       events (i2c_write_data i2c_bus 80 buffer 3 s0) =
       EvReadl (int_status (control i2c_bus)) v ::
       EvWritel v (int_status (control i2c_bus)) ::
       EvWritel w1 fifo :: EvWritel (field2 2) fifo ::
       EvWritel (field3 160) fifo :: rest /\
       Z.land (field3 160) read_mode = 0).
Proof.
  intros Hsh Hdisj Hw Haddr fifo read_mode field3 field2.
  assert (Hclear : forall a, 0 <= a < 256 -> Z.land (field3 a) read_mode = 0)
    by (intros a Ha; apply address_field_disjoint; assumption).
  split.
  - rewrite send_packet_headers_events. unfold header_words.
    cbn [map]. eexists _, _, _. split; [reflexivity|].
    split; [reflexivity|].
    fold (field3 (address trans)). fold read_mode.
    destruct (truthy (Z.land (flags trans) (I2C_IS_WRITE h))).
    + rewrite (Hclear _ Haddr), Z.lor_0_r. split; reflexivity.
    + rewrite Z.land_lor_distr_l, (Hclear _ Haddr), Z.lor_0_l, Z.land_diag.
      split; reflexivity.
  - intros buffer s0.
    destruct (i2c_write_data_events i2c_bus 80 buffer 3 s0 Hw)
      as (v & w1 & rest & He & _).
    exists v, w1, rest. split; [exact He|].
    apply Hclear. lia.
Qed.

(** C10.  A descriptor of length 0 is not refused: the three header
    words go out, the second carrying [0 - 1] wrapped to 32 bits
    ([4294967295]) shifted into the payload-size field; no payload word is
    written or read; and what follows the header is the wait for
    completion, with the recovery after it when it fails. *)
Theorem send_recv_packets_zero_length (i2c_bus : i2c_bus)
    (trans : i2c_trans_info) (s : state) :
  num_bytes trans = 0 ->
  let c := control i2c_bus in
  let o := send_recv_packets i2c_bus trans s in
  let wait := wait_for_transfer_complete c (after_prologue i2c_bus trans s) in
  exists v w1 w3 tail,
    events o =
      [EvReadl (int_status c) v; EvWritel v (int_status c);
       EvWritel w1 (tx_fifo c);
       EvWritel (wrap32 (Z.shiftl 4294967295 (PKT_HDR2_PAYLOAD_SIZE_SHIFT h)))
                (tx_fifo c);
       EvWritel w3 (tx_fifo c)]
      ++ events wait ++ tail /\
    tx_words c (events o) =
      [w1; wrap32 (Z.shiftl 4294967295 (PKT_HDR2_PAYLOAD_SIZE_SHIFT h)); w3] /\
    rx_words c (events o) = [] /\
    ((value o = 0 /\ value wait = 0 /\ tail = []) \/
     (value o = -1 /\ value wait <> 0 /\
      exists sl, tail = recovery_events i2c_bus sl)).
Proof.
  intros HL. cbv zeta.
  destruct (send_recv_packets_fifo i2c_bus trans s) as (Htx & Hrx & _).
  rewrite Htx, Hrx. clear Htx Hrx.
  rewrite send_recv_packets_unfold. cbv zeta.
  unfold payload_run, prologue, header_words. rewrite HL.
  change (Z.to_nat (DIV_ROUND_UP 0 4)) with O.
  cbn [transfer_words ret value final events map app tx_words rx_words].
  set (wait := wait_for_transfer_complete _ _).
  destruct (truthy (value wait)) eqn:Hz; cbn [value events].
  - destruct (i2c_reset_controller_spec i2c_bus (final wait))
      as (_ & _ & sl & ->).
    eexists _, _, _, _.
    split; [reflexivity|]. split; [reflexivity|]. split; [reflexivity|].
    right. split; [reflexivity|]. split.
    + intros E. rewrite E in Hz. discriminate.
    + exists sl. reflexivity.
  - eexists _, _, _, _.
    split; [rewrite app_nil_r; reflexivity|].
    split; [reflexivity|]. split; [reflexivity|].
    left. split; [reflexivity|]. split; [|reflexivity].
    unfold truthy in Hz. destruct (Z.eqb_spec (value wait) 0);
      [assumption | discriminate].
Qed.

(** ** The adapter entry points *)

(** C6 (as amended).  On a controller whose [inited] flag is clear,
    [tegra_i2c_read], [tegra_i2c_write] and [tegra_i2c_probe] return 1 and
    [tegra_i2c_set_bus_speed] returns 0, all four without any register
    access, clock or reset request, and leaving memory and the controller
    table as they were. *)
Theorem uninitialized_bus_untouched (adap : i2c_adapter) (s : state)
    (chip addr alen buffer len data reg speed : Z) :
  inited (nth (Z.to_nat (hwadapnr adap)) (i2c_controllers s) zero_bus) = 0 ->
  tegra_i2c_read adap chip addr alen buffer len data s
    = {| value := 1; final := s; events := [] |} /\
  tegra_i2c_write adap chip addr alen buffer len data s
    = {| value := 1; final := s; events := [] |} /\
  tegra_i2c_probe adap chip reg s
    = {| value := 1; final := s; events := [] |} /\
  tegra_i2c_set_bus_speed adap speed s
    = {| value := 0; final := s; events := [] |}.
Proof.
  intros Hi.
  unfold tegra_i2c_read, tegra_i2c_write, tegra_i2c_probe,
    tegra_i2c_set_bus_speed, tegra_i2c_get_bus, deref_bus, bind.
  cbn [ret value final events]. rewrite Hi.
  cbn [truthy Z.eqb negb ret value final events app].
  repeat split.
Qed.

Lemma first_payload_word (i2c_bus : i2c_bus) (trans : i2c_trans_info)
    (s : state) (w : nat) :
  is_write_transfer trans = true ->
  word_count trans = S w ->
  exists rest,
    events (send_recv_packets i2c_bus trans s) =
    prologue i2c_bus trans (status_at_start i2c_bus s) ++
    EvWritel (load_u32 (mem s) (buf trans)) (tx_fifo (control i2c_bus)) ::
    rest.
Proof.
  intros Hw Hwc. rewrite send_recv_packets_unfold. cbv zeta.
  fold (word_count trans). rewrite Hwc.
  rewrite transfer_words_write_step by exact Hw. cbv zeta.
  destruct (truthy (value (wait_for_tx_fifo_empty _ _))); cbn [value events].
  - destruct (value (transfer_words _ _ _ _ _ _));
      [|destruct (truthy (value (wait_for_transfer_complete _ _)))];
      cbn [events app]; eexists; reflexivity.
  - cbn [events app]. eexists. reflexivity.
Qed.

(** C9.  On an initialized controller [tegra_i2c_probe] stores a zero
    byte, runs [i2c_write_data] on that one byte and does nothing else; it
    returns 0 (device present) exactly when the write returns 0 and 1
    (absent) for any other result of the write.  The write it runs has
    length 1 (payload-size field 0), goes to the address [chip << 1], and its
    payload word has the zero byte as its low-order byte. *)
Theorem tegra_i2c_probe_is_a_write (adap : i2c_adapter) (chip reg : Z)
    (s : state) :
  let b := nth (Z.to_nat (hwadapnr adap)) (i2c_controllers s) zero_bus in
  inited b <> 0 ->
  wrap32 (I2C_IS_WRITE h) <> 0 ->
  let c := control b in
  let s0 := with_mem s (store8 (mem s) reg Byte.x00) in
  let ow := i2c_write_data b chip reg 1 s0 in
  let o := tegra_i2c_probe adap chip reg s in
  value o = (if value ow =? 0 then 0 else 1) /\
  events o = events ow /\
  final o = final ow /\
  exists v w1 w rest,
    events ow =
      EvReadl (int_status c) v :: EvWritel v (int_status c) ::
      EvWritel w1 (tx_fifo c) :: EvWritel 0 (tx_fifo c) ::
      EvWritel (wrap32 (Z.shiftl (wrap32 (Z.shiftl chip 1))
                                 (PKT_HDR3_SLAVE_ADDR_SHIFT h)))
               (tx_fifo c) ::
      EvWritel w (tx_fifo c) :: rest /\
    w mod 256 = 0.
Proof.
  intros b Hi Hw c s0 ow o.
  assert (Hib : truthy (inited b) = true).
  { unfold truthy. destruct (Z.eqb_spec (inited b) 0); [contradiction|].
    reflexivity. }
  split; [|split; [|split]].
  - unfold o, tegra_i2c_probe, tegra_i2c_get_bus, deref_bus, bind.
    cbn [ret value final events get_mem put_mem]. fold b. rewrite Hib.
    cbn [ret value final events get_mem put_mem].
    change (byte_of_Z 0) with Byte.x00. fold b s0 ow.
    unfold truthy. destruct (value ow =? 0); reflexivity.
  - unfold o, tegra_i2c_probe, tegra_i2c_get_bus, deref_bus, bind.
    cbn [ret value final events get_mem put_mem]. fold b. rewrite Hib.
    cbn [ret value final events get_mem put_mem app].
    change (byte_of_Z 0) with Byte.x00. fold b s0 ow.
    destruct (truthy (value ow)); cbn [events]; apply app_nil_r.
  - unfold o, tegra_i2c_probe, tegra_i2c_get_bus, deref_bus, bind.
    cbn [ret value final events get_mem put_mem]. fold b. rewrite Hib.
    cbn [ret value final events get_mem put_mem].
    change (byte_of_Z 0) with Byte.x00. fold b s0 ow.
    destruct (truthy (value ow)); reflexivity.
  - unfold ow, i2c_write_data, tegra_i2c_write_data.
    set (trans := {| address := wrap32 (Z.shiftl chip 1); buf := reg;
                     flags := wrap32 (I2C_IS_WRITE h); num_bytes := wrap32 1;
                     is_10bit_address := 0 |}).
    destruct (first_payload_word b trans s0 O
                (write_flag_transfer _ _ _ Hw) eq_refl) as [rest He].
    rewrite He. unfold prologue, header_words.
    cbn [map app flags trans address num_bytes buf].
    destruct (write_flag_set Hw) as [-> _].
    change (wrap32 (wrap32 1 - 1)) with 0. rewrite Z.shiftl_0_l.
    change (wrap32 0) with 0.
    eexists _, _, _, rest. split; [reflexivity|].
    unfold load_u32, s0. cbn [mem with_mem]. unfold store8 at 1.
    rewrite Z.eqb_refl. change (byte_val Byte.x00) with 0.
    rewrite Z.add_0_l.
    replace (2 ^ 8 * byte_val (store8 (mem s) reg Byte.x00 (reg + 1)) +
             2 ^ 16 * byte_val (store8 (mem s) reg Byte.x00 (reg + 2)) +
             2 ^ 24 * byte_val (store8 (mem s) reg Byte.x00 (reg + 3)))
      with ((byte_val (store8 (mem s) reg Byte.x00 (reg + 1)) +
             2 ^ 8 * byte_val (store8 (mem s) reg Byte.x00 (reg + 2)) +
             2 ^ 16 * byte_val (store8 (mem s) reg Byte.x00 (reg + 3))) * 256)
      by lia.
    apply Z.mod_mul. lia.
Qed.

Lemma poll_trace_events (r : mmio) (f : Z -> option Z) n res evs :
  poll_trace r f n res evs ->
  Forall (fun e => e = EvUdelay 10 \/ exists v, e = EvReadl r v) evs.
Proof.
  intros Ht. induction Ht as [| n v x Hf | n v res evs Hf Ht IH].
  - constructor.
  - constructor; [right; exists v; reflexivity | constructor].
  - constructor; [right; exists v; reflexivity|].
    constructor; [left; reflexivity | exact IH].
Qed.

(** Replacing, in a value [v] of the FIFO status, the bits of one field
    (mask [e]) by those of [x] does not change a field (mask [m]) that
    shares no bit with it. *)
Lemma land_other_field (m e v x : Z) :
  Z.land m e = 0 ->
  Z.land (Z.lor (Z.land v (Z.lnot e)) (Z.land x e)) m = Z.land v m.
Proof.
  intros Hd. apply Z.bits_inj'. intros i Hi.
  assert (Hb : Z.testbit m i && Z.testbit e i = false).
  { rewrite <- Z.land_spec, Hd. apply Z.bits_0. }
  rewrite !Z.land_spec, Z.lor_spec, !Z.land_spec, Z.lnot_spec by assumption.
  destruct (Z.testbit m i), (Z.testbit e i), (Z.testbit v i),
    (Z.testbit x i); try reflexivity; discriminate.
Qed.

(** C7.  The receive-ready poll, [wait_for_rx_fifo_notempty], reads the FIFO
    status and nothing else, and decides on one field of it: the count that
    the read path waits on before each read of the receive FIFO, which the
    header selects with the constants it names [TX_FIFO_FULL_CNT_MASK] and
    [TX_FIFO_FULL_CNT_SHIFT].  The poll returns 1 at the first sample, among
    at most the budget, in which that count is not zero, and 0 after a whole
    budget of samples in which it is zero.  The transmit-FIFO field of the
    status, the empty-slot count that [wait_for_tx_fifo_empty] tests, shares
    no bit with it, and whatever that field holds makes no difference to any
    sample. *)
Theorem wait_for_rx_fifo_notempty_count (c : Z) (s : state) :
  Z.land (TX_FIFO_FULL_CNT_MASK h) (TX_FIFO_EMPTY_CNT_MASK h) = 0 ->
  let o := wait_for_rx_fifo_notempty c s in
  let count v :=
    Z.shiftr (Z.land v (TX_FIFO_FULL_CNT_MASK h)) (TX_FIFO_FULL_CNT_SHIFT h) in
  let with_tx_field v x :=
    Z.lor (Z.land v (Z.lnot (TX_FIFO_EMPTY_CNT_MASK h)))
          (Z.land x (TX_FIFO_EMPTY_CNT_MASK h)) in
  let seen := samples (fifo_status c) (events o) in
  ((value o = 1 /\
    exists pre v,
      seen = pre ++ [v] /\ count v <> 0 /\ (length pre < budget)%nat /\
      Forall (fun u => count u = 0) pre) \/
   (value o = 0 /\ length seen = budget /\
    Forall (fun u => count u = 0) seen)) /\
  Forall (fun e => e = EvUdelay 10 \/ exists v, e = EvReadl (fifo_status c) v)
         (events o) /\
  (forall v x,
     count (with_tx_field v x) = count v /\
     rx_fifo_notempty_sample (with_tx_field v x)
     = rx_fifo_notempty_sample v) /\
  mem (final o) = mem s /\
  i2c_controllers (final o) = i2c_controllers s.
Proof.
  intros Hd. cbv zeta.
  destruct (wait_for_rx_fifo_notempty_spec c s) as (Hm & Hc & res & Ht & Hv).
  pose proof (poll_trace_events _ _ _ _ _ Ht) as Hev.
  apply poll_trace_samples in Ht.
  assert (Hmiss : forall u,
            rx_fifo_notempty_sample u = None ->
            Z.shiftr (Z.land u (TX_FIFO_FULL_CNT_MASK h))
                     (TX_FIFO_FULL_CNT_SHIFT h) = 0).
  { intros u. unfold rx_fifo_notempty_sample, truthy.
    destruct (Z.eqb_spec (Z.shiftr (Z.land u (TX_FIFO_FULL_CNT_MASK h))
                                   (TX_FIFO_FULL_CNT_SHIFT h)) 0);
      [intros _; assumption | discriminate]. }
  split; [|split; [exact Hev|split; [|split; assumption]]].
  - destruct res as [[v x]|].
    + left. split; [assumption|].
      destruct Ht as (pre & Hs & Hall & Hx & Hlen).
      exists pre, v. split; [assumption|]. split.
      * unfold rx_fifo_notempty_sample, truthy in Hx.
        destruct (Z.eqb_spec (Z.shiftr (Z.land v (TX_FIFO_FULL_CNT_MASK h))
                                       (TX_FIFO_FULL_CNT_SHIFT h)) 0);
          [discriminate | assumption].
      * split; [assumption|].
        eapply Forall_impl; [|exact Hall]. exact Hmiss.
    + right. destruct Ht as [Hlen Hall]. split; [assumption|].
      split; [assumption|].
      eapply Forall_impl; [|exact Hall]. exact Hmiss.
  - intros v x. unfold rx_fifo_notempty_sample.
    rewrite (land_other_field _ _ v x Hd). split; reflexivity.
Qed.

(** ** Time bounds *)

Lemma delay_total_app (l1 l2 : list event) :
  delay_total (l1 ++ l2) = delay_total l1 + delay_total l2.
Proof.
  induction l1 as [|e l1 IH]; [reflexivity|].
  destruct e; cbn [app delay_total]; rewrite IH; lia.
Qed.

Lemma budget_value :
  Z.of_nat budget = Z.max 0 (I2C_TIMEOUT_USEC h / 10 + 1).
Proof. unfold budget, poll_iterations. lia. Qed.

(** A poll delays 10 microseconds after each sample that did not end it,
    and samples at most [n] times. *)
Lemma poll_trace_delay (r : mmio) (f : Z -> option Z) n res evs :
  poll_trace r f n res evs ->
  (length (samples r evs) <= n)%nat /\
  delay_total evs =
    10 * (Z.of_nat (length (samples r evs))
          - match res with Some _ => 1 | None => 0 end) /\
  0 <= delay_total evs <= 10 * Z.of_nat n.
Proof.
  intros Ht. induction Ht as [| n v x Hf | n v res evs Hf Ht IH].
  - cbn. repeat split; lia.
  - cbn [samples delay_total length]. rewrite mmio_eqb_refl.
    cbn [length]. repeat split; lia.
  - cbn [samples delay_total]. rewrite mmio_eqb_refl. cbn [length].
    destruct IH as (Hlen & Hd & Hb). repeat split; destruct res; lia.
Qed.

(** X1.  [wait_for_tx_fifo_empty] decides on the field of the FIFO status
    selected by [TX_FIFO_EMPTY_CNT_MASK] and [TX_FIFO_EMPTY_CNT_SHIFT]:
    it returns 1 at the first sample, among at most the budget, in which
    that field equals the FIFO depth, and 0 after a whole budget of samples
    in which it never does.  It changes neither memory nor the controller
    table. *)
Theorem wait_for_tx_fifo_empty_field (c : Z) (s : state) :
  let o := wait_for_tx_fifo_empty c s in
  let field v :=
    Z.shiftr (Z.land v (TX_FIFO_EMPTY_CNT_MASK h))
             (TX_FIFO_EMPTY_CNT_SHIFT h) in
  let depth := wrap32 (I2C_FIFO_DEPTH h) in
  let seen := samples (fifo_status c) (events o) in
  mem (final o) = mem s /\
  i2c_controllers (final o) = i2c_controllers s /\
  ((value o = 1 /\
    exists pre v,
      seen = pre ++ [v] /\ field v = depth /\ (length pre < budget)%nat /\
      Forall (fun u => field u <> depth) pre) \/
   (value o = 0 /\ length seen = budget /\
    Forall (fun u => field u <> depth) seen)).
Proof.
  cbv zeta.
  destruct (wait_for_tx_fifo_empty_spec c s) as (Hm & Hc & res & Ht & Hv).
  split; [assumption|]. split; [assumption|].
  apply poll_trace_samples in Ht.
  assert (Hmiss : forall u,
            tx_fifo_empty_sample u = None ->
            Z.shiftr (Z.land u (TX_FIFO_EMPTY_CNT_MASK h))
                     (TX_FIFO_EMPTY_CNT_SHIFT h) <> wrap32 (I2C_FIFO_DEPTH h)).
  { intros u. unfold tx_fifo_empty_sample.
    destruct (Z.eqb_spec (Z.shiftr (Z.land u (TX_FIFO_EMPTY_CNT_MASK h))
                                   (TX_FIFO_EMPTY_CNT_SHIFT h))
                         (wrap32 (I2C_FIFO_DEPTH h)));
      [discriminate | intros _; assumption]. }
  destruct res as [[v x]|].
  - left. split; [assumption|].
    destruct Ht as (pre & Hs & Hall & Hx & Hlen).
    exists pre, v. split; [assumption|]. split.
    + unfold tx_fifo_empty_sample in Hx.
      destruct (Z.eqb_spec (Z.shiftr (Z.land v (TX_FIFO_EMPTY_CNT_MASK h))
                                     (TX_FIFO_EMPTY_CNT_SHIFT h))
                           (wrap32 (I2C_FIFO_DEPTH h)));
        [assumption | discriminate].
    + split; [assumption|].
      eapply Forall_impl; [|exact Hall]. exact Hmiss.
  - right. destruct Ht as [Hlen Hall]. split; [assumption|].
    split; [assumption|].
    eapply Forall_impl; [|exact Hall]. exact Hmiss.
Qed.

(** X2.  None of the three waits blocks for long: each samples its
    register at most [max 0 (I2C_TIMEOUT_USEC / 10 + 1)] times, spends 10
    microseconds in [udelay] per sample that did not end it (so at most ten
    times that number in total), and touches no FIFO. *)
Theorem waits_are_bounded (c : Z) (s : state) :
  let limit := Z.max 0 (I2C_TIMEOUT_USEC h / 10 + 1) in
  let bounded (r : mmio) (evs : list event) :=
    Z.of_nat (length (samples r evs)) <= limit /\
    0 <= delay_total evs <= 10 * limit /\
    delay_total evs >= 10 * (Z.of_nat (length (samples r evs)) - 1) /\
    tx_words c evs = [] /\ rx_words c evs = [] in
  bounded (fifo_status c) (events (wait_for_tx_fifo_empty c s)) /\
  bounded (fifo_status c) (events (wait_for_rx_fifo_notempty c s)) /\
  bounded (int_status c) (events (wait_for_transfer_complete c s)).
Proof.
  cbv zeta. rewrite <- budget_value.
  destruct (wait_for_tx_fifo_empty_spec c s) as (_ & _ & r1 & Ht1 & _).
  destruct (wait_for_rx_fifo_notempty_spec c s) as (_ & _ & r2 & Ht2 & _).
  destruct (wait_for_transfer_complete_spec c s) as (_ & _ & r3 & Ht3 & _).
  pose proof (poll_trace_delay _ _ _ _ _ Ht1) as (L1 & D1 & B1).
  pose proof (poll_trace_delay _ _ _ _ _ Ht2) as (L2 & D2 & B2).
  pose proof (poll_trace_delay _ _ _ _ _ Ht3) as (L3 & D3 & B3).
  destruct (poll_trace_quiet c (fifo_status c) _ eq_refl _ _ _ Ht1).
  destruct (poll_trace_quiet c (fifo_status c) _ eq_refl _ _ _ Ht2).
  destruct (poll_trace_quiet c (int_status c) _ eq_refl _ _ _ Ht3).
  repeat split; try assumption; try lia;
    [destruct r1 | destruct r2 | destruct r3]; lia.
Qed.

Lemma word_done_delay (c : Z) (write : bool) (seg : list event) :
  word_done c write seg -> 0 <= delay_total seg <= 10 * Z.of_nat budget.
Proof.
  destruct write; cbn [word_done].
  - intros (w & p & res & -> & Ht). cbn [delay_total].
    apply (poll_trace_delay _ _ _ _ _ Ht).
  - intros (p & res & v & -> & Ht). rewrite delay_total_app.
    cbn [delay_total]. pose proof (poll_trace_delay _ _ _ _ _ Ht). lia.
Qed.

Lemma word_stalled_delay (c : Z) (write : bool) (seg : list event) :
  word_stalled c write seg -> 0 <= delay_total seg <= 10 * Z.of_nat budget.
Proof.
  destruct write; cbn [word_stalled].
  - intros (w & p & -> & Ht). cbn [delay_total].
    apply (poll_trace_delay _ _ _ _ _ Ht).
  - intros Ht. apply (poll_trace_delay _ _ _ _ _ Ht).
Qed.

Lemma words_done_delay (c : Z) (write : bool) (segs : list (list event)) :
  Forall (word_done c write) segs ->
  0 <= delay_total (concat segs)
    <= 10 * Z.of_nat budget * Z.of_nat (length segs).
Proof.
  induction 1 as [|seg segs Hseg Hall IH]; [cbn; lia|].
  cbn [concat length]. rewrite delay_total_app.
  pose proof (word_done_delay _ _ _ Hseg). nia.
Qed.

Lemma prologue_delay (i2c_bus : i2c_bus) (trans : i2c_trans_info) (v : Z) :
  delay_total (prologue i2c_bus trans v) = 0.
Proof. reflexivity. Qed.

Lemma recovery_delay (i2c_bus : i2c_bus) (sl : Z) :
  delay_total (recovery_events i2c_bus sl) = 0.
Proof.
  unfold recovery_events. destruct (truthy (is_dvc i2c_bus)); reflexivity.
Qed.

(** X3.  A transaction cannot block for long either: whatever the device
    does, the time [send_recv_packets] spends in [udelay] is at most ten
    microseconds times the poll budget for each word of the payload and
    once more for the completion wait. *)
Theorem send_recv_packets_delay (i2c_bus : i2c_bus) (trans : i2c_trans_info)
    (s : state) :
  let o := send_recv_packets i2c_bus trans s in
  let limit := Z.max 0 (I2C_TIMEOUT_USEC h / 10 + 1) in
  0 <= delay_total (events o)
    <= 10 * limit * (Z.of_nat (word_count trans) + 1).
Proof.
  cbv zeta. rewrite <- budget_value.
  rewrite send_recv_packets_unfold. cbv zeta.
  destruct (transfer_words_shape (control i2c_bus)
              (to_int (Z.land (flags trans) (I2C_IS_WRITE h)))
              (Z.land (num_bytes trans) 3)
              (Z.to_nat (DIV_ROUND_UP (num_bytes trans) 4)) (buf trans)
              (after_prologue i2c_bus trans s))
    as (segs & Hall & Hcase).
  fold (word_count trans) in Hcase |- *.
  pose proof (words_done_delay _ _ _ Hall) as Hsegs.
  destruct Hcase as [(Hn & He & Hl) | (Hn & Hl & stall & Hst & He)];
    rewrite Hn, He.
  - set (s1 := final (transfer_words _ _ _ _ _ _)).
    destruct (wait_for_transfer_complete_spec (control i2c_bus) s1)
      as (_ & _ & res & Ht & _).
    pose proof (poll_trace_delay _ _ _ _ _ Ht) as (_ & _ & Hc).
    destruct (truthy (value (wait_for_transfer_complete _ s1)));
      cbn [events].
    + destruct (i2c_reset_controller_spec i2c_bus
                  (final (wait_for_transfer_complete (control i2c_bus) s1)))
        as (_ & _ & sl & ->).
      rewrite !delay_total_app, prologue_delay, recovery_delay. nia.
    + rewrite !delay_total_app, prologue_delay. nia.
  - set (s1 := final (transfer_words _ _ _ _ _ _)).
    destruct (i2c_reset_controller_spec i2c_bus s1) as (_ & _ & sl & ->).
    cbn [events].
    rewrite !delay_total_app, prologue_delay, recovery_delay.
    pose proof (word_stalled_delay _ _ _ Hst). nia.
Qed.

(** ** What a transaction leaves alone *)

Lemma received_prefix_length (L : Z) (vs : list Z) :
  0 <= L ->
  (length vs <= Z.to_nat (DIV_ROUND_UP L 4))%nat ->
  (length (firstn (received_bytes (Z.land L 3)
                     (Z.to_nat (DIV_ROUND_UP L 4)) (length vs))
                  (flat_map u32_bytes vs)) <= Z.to_nat L)%nat.
Proof.
  intros HL Hlen.
  pose proof (received_le L (length vs) HL Hlen).
  pose proof (firstn_le_length
                (received_bytes (Z.land L 3) (Z.to_nat (DIV_ROUND_UP L 4))
                   (length vs))
                (flat_map u32_bytes vs)).
  lia.
Qed.

Lemma send_recv_packets_effects (i2c_bus : i2c_bus)
    (trans : i2c_trans_info) (s : state) :
  0 <= num_bytes trans ->
  let o := send_recv_packets i2c_bus trans s in
  let c := control i2c_bus in
  i2c_controllers (final o) = i2c_controllers s /\
  (value o = 0 \/ value o = -1) /\
  (forall a, a < buf trans \/ buf trans + num_bytes trans <= a ->
             mem (final o) a = mem s a) /\
  (if is_write_transfer trans
   then mem (final o) = mem s /\ rx_words c (events o) = []
   else tx_words c (events o) = header_words i2c_bus trans 1).
Proof.
  intros HL. cbv zeta.
  destruct (send_recv_packets_fifo i2c_bus trans s)
    as (_ & _ & _ & _ & H01 & _).
  destruct (is_write_transfer trans) eqn:Hw.
  - destruct (send_recv_packets_write i2c_bus trans s Hw)
      as (Hm & Hc & Hrx & _).
    repeat split; try assumption. intros a _. rewrite Hm. reflexivity.
  - destruct (send_recv_packets_read i2c_bus trans s Hw)
      as (Hc & Htx & Hlen & _ & Hmem).
    repeat split; try assumption.
    intros a Ha. rewrite Hmem. apply write_bytes_outside.
    pose proof (received_prefix_length (num_bytes trans) _ HL Hlen) as Hp.
    unfold word_count in *. lia.
Qed.

(** X4.  A transaction never changes the controller table, returns 0 or
    -1, and changes no byte of memory outside the [num_bytes] bytes of its
    buffer; in the write direction it changes no byte at all and never reads
    the receive FIFO, and in the read direction it writes nothing but the
    header to the transmit FIFO. *)
Theorem send_recv_packets_frame (i2c_bus : i2c_bus) (trans : i2c_trans_info)
    (s : state) :
  0 <= num_bytes trans ->
  let o := send_recv_packets i2c_bus trans s in
  let c := control i2c_bus in
  i2c_controllers (final o) = i2c_controllers s /\
  (value o = 0 \/ value o = -1) /\
  (forall a, a < buf trans \/ buf trans + num_bytes trans <= a ->
             mem (final o) a = mem s a) /\
  (if is_write_transfer trans
   then mem (final o) = mem s /\ rx_words c (events o) = []
   else tx_words c (events o) = header_words i2c_bus trans 1).
Proof. exact (send_recv_packets_effects i2c_bus trans s). Qed.

Lemma wrap32_small (z : Z) : 0 <= z < 2 ^ 32 -> wrap32 z = z.
Proof. intros Hz. unfold wrap32. apply Z.mod_small. assumption. Qed.

Lemma truthy_false_zero (z : Z) : truthy z = false -> z = 0.
Proof.
  unfold truthy. destruct (Z.eqb_spec z 0); [trivial | discriminate].
Qed.

(** [i2c_read_data] is the read transaction it builds. *)
Lemma i2c_read_data_unfold (bus : i2c_bus) (chip buffer len : Z)
    (s : state) :
  let trans :=
    {| address := Z.lor (wrap32 (Z.shiftl chip 1)) 1; buf := buffer;
       flags := 0; num_bytes := wrap32 len; is_10bit_address := 0 |} in
  let o := send_recv_packets bus trans s in
  value (i2c_read_data bus chip buffer len s) = value o /\
  final (i2c_read_data bus chip buffer len s) = final o /\
  events (i2c_read_data bus chip buffer len s) = events o.
Proof.
  cbv zeta. unfold i2c_read_data, tegra_i2c_read_data, bind.
  set (o := send_recv_packets _ _ _).
  destruct (truthy (value o)) eqn:Hz; cbn [ret value final events];
    rewrite ?app_nil_r; repeat split.
  symmetry. apply truthy_false_zero. assumption.
Qed.

(** X5.  A read of [len] bytes that returns 0 received [(len + 3) / 4]
    words and left in the buffer, at each offset [i < len], byte [i mod 4]
    (counting from the low-order end) of the word number [i / 4]; whatever it
    returns, it changes no byte outside the buffer and puts nothing but the
    three header words into the transmit FIFO. *)
Theorem i2c_read_data_bytes (bus : i2c_bus) (chip buffer len : Z)
    (s : state) :
  0 <= len < 2 ^ 32 ->
  let o := i2c_read_data bus chip buffer len s in
  let vs := rx_words (control bus) (events o) in
  length (tx_words (control bus) (events o)) = 3%nat /\
  (forall a, a < buffer \/ buffer + len <= a -> mem (final o) a = mem s a) /\
  (value o = 0 ->
   Z.of_nat (length vs) = (len + 3) / 4 /\
   forall i, 0 <= i < len ->
     mem (final o) (buffer + i)
     = byte_of_Z (Z.shiftr (nth (Z.to_nat (i / 4)) vs 0) (8 * (i mod 4)))).
Proof.
  intros Hlen. cbv zeta.
  destruct (i2c_read_data_unfold bus chip buffer len s) as (Hv & Hf & He).
  cbv zeta in Hv, Hf, He. rewrite Hv, Hf, He. clear Hv Hf He.
  rewrite (wrap32_small len Hlen).
  set (trans := {| address := Z.lor (wrap32 (Z.shiftl chip 1)) 1;
                   buf := buffer; flags := 0; num_bytes := len;
                   is_10bit_address := 0 |}).
  destruct (send_recv_packets_read bus trans s
              (read_flag_clear _ buffer len))
    as (_ & Htx & Hle & Hall & Hmem).
  cbn [buf num_bytes trans] in Hmem.
  set (o := send_recv_packets bus trans s) in *.
  set (vs := rx_words (control bus) (events o)) in *.
  split; [rewrite Htx; reflexivity|].
  split.
  - intros a Ha. rewrite Hmem. apply write_bytes_outside.
    pose proof (received_prefix_length len vs ltac:(lia) Hle) as Hp.
    unfold word_count in *. cbn [num_bytes trans] in *. lia.
  - intros H0. specialize (Hall H0).
    assert (Hwc : Z.of_nat (word_count trans) = (len + 3) / 4).
    { unfold word_count, DIV_ROUND_UP. cbn [num_bytes trans].
      rewrite Z2Nat.id by (apply Z.div_pos; lia). f_equal. lia. }
    split.
    + rewrite Hall, Hwc. reflexivity.
    + intros i Hi. rewrite Hmem, Hall.
      change (word_count trans) with (Z.to_nat (DIV_ROUND_UP len 4)).
      rewrite received_all by lia.
      replace (buffer + i) with (buffer + Z.of_nat (Z.to_nat i)) by lia.
      rewrite (write_bytes_inside _ Byte.x00).
      * rewrite nth_firstn.
        destruct (Nat.ltb_spec (Z.to_nat i) (Z.to_nat len)); [|lia].
        assert (Hq : (Z.to_nat (i / 4) < length vs)%nat).
        { rewrite Hall. apply Nat2Z.inj_lt. rewrite Hwc.
          rewrite Z2Nat.id by (apply Z.div_pos; lia).
          Z.div_mod_to_equations. lia. }
        replace (Z.to_nat i)
          with (4 * Z.to_nat (i / 4) + Z.to_nat (i mod 4))%nat
          by (Z.div_mod_to_equations; lia).
        rewrite (flat_map_u32_bytes_nth _ _ _ _ _
                   (nth_error_nth' vs 0 Hq))
          by (Z.div_mod_to_equations; lia).
        apply u32_bytes_nth. apply Z.mod_pos_bound. lia.
      * rewrite length_firstn, flat_map_u32_bytes_length, Hall.
        apply Nat2Z.inj_lt. rewrite Nat2Z.inj_min, Nat2Z.inj_mul, Hwc.
        Z.div_mod_to_equations. lia.
Qed.

(** X6.  The header of a read: [i2c_read_data] on device [chip] sends,
    after the status clear, a first header word, then [len - 1] in the
    payload-size field, then the address [(chip << 1) | 1] in its field
    together with the read-mode bits; and these three words are all it ever
    writes to the transmit FIFO. *)
Theorem i2c_read_data_header (bus : i2c_bus) (chip buffer len : Z)
    (s : state) :
  let o := i2c_read_data bus chip buffer len s in
  let c := control bus in
  let w2 :=
    wrap32 (Z.shiftl (wrap32 (wrap32 len - 1))
                     (PKT_HDR2_PAYLOAD_SIZE_SHIFT h)) in
  let w3 :=
    Z.lor (wrap32 (Z.shiftl (Z.lor (wrap32 (Z.shiftl chip 1)) 1)
                            (PKT_HDR3_SLAVE_ADDR_SHIFT h)))
          (wrap32 (PKT_HDR3_READ_MODE_MASK h)) in
  exists v w1 rest,
    events o =
      EvReadl (int_status c) v :: EvWritel v (int_status c) ::
      EvWritel w1 (tx_fifo c) :: EvWritel w2 (tx_fifo c) ::
      EvWritel w3 (tx_fifo c) :: rest /\
    tx_words c (events o) = [w1; w2; w3] /\
    Z.land w3 (wrap32 (PKT_HDR3_READ_MODE_MASK h))
      = wrap32 (PKT_HDR3_READ_MODE_MASK h).
Proof.
  cbv zeta.
  destruct (i2c_read_data_unfold bus chip buffer len s) as (_ & _ & He).
  cbv zeta in He. rewrite He. clear He.
  set (trans := {| address := Z.lor (wrap32 (Z.shiftl chip 1)) 1;
                   buf := buffer; flags := 0; num_bytes := wrap32 len;
                   is_10bit_address := 0 |}).
  destruct (send_recv_packets_read bus trans s
              (read_flag_clear _ buffer (wrap32 len)))
    as (_ & Htx & _).
  rewrite Htx. rewrite send_recv_packets_unfold. cbv zeta.
  unfold prologue, header_words. cbn [flags trans address num_bytes map].
  rewrite Z.land_0_l. cbn [truthy Z.eqb negb app].
  assert (Hbit : forall x m, Z.land (Z.lor x m) m = m).
  { intros x m. rewrite Z.land_lor_distr_l, Z.land_diag.
    apply Z.bits_inj'. intros n _.
    rewrite Z.lor_spec, Z.land_spec.
    destruct (Z.testbit x n), (Z.testbit m n); reflexivity. }
  destruct (value (transfer_words _ _ _ _ _ _));
    [|destruct (truthy (value (wait_for_transfer_complete _ _)))];
    cbn [events app]; eexists _, _, _;
    (split; [reflexivity|]); (split; [reflexivity|]); apply Hbit.
Qed.

(** ** The register address sent ahead of the data *)

Lemma fill_address_spec (data alen x : Z) :
  forall n m from a,
    fill_address m data alen x from n a =
    (let i := alen - 1 - (a - data) in
     if (from <=? i) && (i <? from + Z.of_nat n)
     then byte_of_Z (Z.shiftr x (8 * i)) else m a).
Proof.
  induction n as [|n IH]; intros m from a; cbv zeta.
  - cbn [fill_address].
    destruct (Z.leb_spec from (alen - 1 - (a - data)));
      destruct (Z.ltb_spec (alen - 1 - (a - data)) (from + Z.of_nat 0));
      cbn [andb]; try reflexivity; lia.
  - cbn [fill_address]. rewrite IH. cbv zeta. unfold store8.
    destruct (Z.leb_spec (from + 1) (alen - 1 - (a - data)));
      destruct (Z.ltb_spec (alen - 1 - (a - data))
                  (from + 1 + Z.of_nat n));
      destruct (Z.leb_spec from (alen - 1 - (a - data)));
      destruct (Z.ltb_spec (alen - 1 - (a - data))
                  (from + Z.of_nat (S n)));
      destruct (Z.eqb_spec a (data + (alen - from - 1)));
      cbn [andb]; try reflexivity; try lia.
    f_equal. f_equal. f_equal. lia.
Qed.

Lemma fill_address_layout (m : memory) (data alen x : Z) :
  0 <= alen ->
  let m' := fill_address m data alen x 0 (Z.to_nat alen) in
  (forall j, 0 <= j < alen ->
             m' (data + j) = byte_of_Z (Z.shiftr x (8 * (alen - 1 - j)))) /\
  (forall a, a < data \/ data + alen <= a -> m' a = m a) /\
  (alen = 1 -> byte_val (m' data) = x mod 2 ^ 8) /\
  (alen = 2 ->
   2 ^ 8 * byte_val (m' data) + byte_val (m' (data + 1)) = x mod 2 ^ 16).
Proof.
  intros Ha. cbv zeta.
  assert (Hin : forall j, 0 <= j < alen ->
            fill_address m data alen x 0 (Z.to_nat alen) (data + j)
            = byte_of_Z (Z.shiftr x (8 * (alen - 1 - j)))).
  { intros j Hj. rewrite fill_address_spec. cbv zeta.
    replace (alen - 1 - (data + j - data)) with (alen - 1 - j) by lia.
    destruct (Z.leb_spec 0 (alen - 1 - j)); [|lia].
    destruct (Z.ltb_spec (alen - 1 - j) (0 + Z.of_nat (Z.to_nat alen)));
      [reflexivity | lia]. }
  split; [exact Hin|]. split.
  - intros a Hout. rewrite fill_address_spec. cbv zeta.
    destruct (Z.leb_spec 0 (alen - 1 - (a - data)));
      destruct (Z.ltb_spec (alen - 1 - (a - data))
                  (0 + Z.of_nat (Z.to_nat alen)));
      cbn [andb]; try reflexivity; lia.
  - split.
    + intros ->. pose proof (Hin 0 ltac:(lia)) as H0.
      rewrite Z.add_0_r in H0. rewrite H0, byte_val_of_Z.
      change (8 * (1 - 1 - 0)) with 0. rewrite Z.shiftr_0_r. reflexivity.
    + intros ->. pose proof (Hin 0 ltac:(lia)) as H0.
      pose proof (Hin 1 ltac:(lia)) as H1.
      rewrite Z.add_0_r in H0. rewrite H0, H1, !byte_val_of_Z.
      change (8 * (2 - 1 - 0)) with 8. change (8 * (2 - 1 - 1)) with 0.
      rewrite Z.shiftr_0_r, Z.shiftr_div_pow2 by lia.
      change (2 ^ 8) with 256. change (2 ^ 16) with 65536.
      Z.div_mod_to_equations. lia.
Qed.

(** X7.  The inner loop of [tegra_i2c_read] and [tegra_i2c_write] lays the
    register address out most significant byte first: byte [j] of the
    [alen]-byte array is bits [8 (alen - 1 - j)] and up of the address, and
    nothing outside the array changes.  So for the two widths the driver
    accepts the array reads back, as a big-endian number, as the address
    modulo [2 ^ (8 alen)]. *)
Theorem fill_address_big_endian (m : memory) (data alen x : Z) :
  0 <= alen ->
  let m' := fill_address m data alen x 0 (Z.to_nat alen) in
  (forall j, 0 <= j < alen ->
             m' (data + j) = byte_of_Z (Z.shiftr x (8 * (alen - 1 - j)))) /\
  (forall a, a < data \/ data + alen <= a -> m' a = m a) /\
  (alen = 1 -> byte_val (m' data) = x mod 2 ^ 8) /\
  (alen = 2 ->
   2 ^ 8 * byte_val (m' data) + byte_val (m' (data + 1)) = x mod 2 ^ 16).
Proof. exact (fill_address_layout m data alen x). Qed.

(** ** One transaction of the byte-stream helpers *)

Lemma i2c_addr_ok_cases (addr alen : Z) :
  i2c_addr_ok addr alen = true -> alen = 1 \/ alen = 2.
Proof.
  unfold i2c_addr_ok.
  destruct (Z.eqb_spec alen 1); destruct (Z.eqb_spec alen 2);
    cbn; intros; try discriminate; lia.
Qed.

(** A write of at most four bytes: one payload word, whatever happens
    afterwards. *)
Lemma short_write_effects (b : i2c_bus) (chip data len : Z) (s : state) :
  wrap32 (I2C_IS_WRITE h) <> 0 ->
  1 <= len <= 4 ->
  let trans :=
    {| address := wrap32 (Z.shiftl chip 1); buf := data;
       flags := wrap32 (I2C_IS_WRITE h); num_bytes := len;
       is_10bit_address := 0 |} in
  let o := i2c_write_data b chip data len s in
  mem (final o) = mem s /\
  i2c_controllers (final o) = i2c_controllers s /\
  rx_words (control b) (events o) = [] /\
  tx_words (control b) (events o) =
    header_words b trans 1 ++ [load_u32 (mem s) data] /\
  (value o = 0 \/ value o = -1).
Proof.
  intros HW Hlen trans o.
  assert (Ho : o = send_recv_packets b trans s).
  { unfold o, i2c_write_data, tegra_i2c_write_data, trans.
    rewrite (wrap32_small len) by lia. reflexivity. }
  rewrite Ho.
  pose proof (write_flag_transfer (wrap32 (Z.shiftl chip 1)) data len HW)
    as Hdir. fold trans in Hdir.
  assert (Hwc : word_count trans = 1%nat).
  { unfold word_count, DIV_ROUND_UP. cbn [num_bytes trans].
    replace ((len + 4 - 1) / 4) with 1
      by (Z.div_mod_to_equations; lia). reflexivity. }
  destruct (send_recv_packets_write b trans s Hdir)
    as (Hm & Hc & Hrx & k & Hk & Htx & _).
  destruct (send_recv_packets_fifo b trans s) as (_ & _ & _ & _ & H01 & _).
  destruct (first_payload_word b trans s O Hdir Hwc) as [rest He].
  repeat split; try assumption.
  rewrite Htx. f_equal. cbn [buf trans] in *.
  rewrite He in Htx. rewrite tx_words_app in Htx.
  destruct (prologue_fifo b trans (status_at_start b s)) as [Hp _].
  rewrite Hp in Htx. apply app_inv_head in Htx.
  cbn [tx_words] in Htx. rewrite Z.eqb_refl in Htx.
  rewrite Hwc in Hk.
  destruct k as [|[|k]]; [discriminate Htx | | lia].
  cbn [seq map]. rewrite Z.add_0_r. reflexivity.
Qed.

(** A read of one byte: at most one word is received, and its low-order
    byte is stored. *)
Lemma one_byte_read_effects (b : i2c_bus) (chip p : Z) (s : state) :
  let o := i2c_read_data b chip p 1 s in
  let vs := rx_words (control b) (events o) in
  i2c_controllers (final o) = i2c_controllers s /\
  (value o = 0 \/ value o = -1) /\
  ((vs = [] /\ value o <> 0 /\ forall a, mem (final o) a = mem s a) \/
   (exists v,
      vs = [v] /\
      forall a, mem (final o) a = store8 (mem s) p (byte_of_Z v) a)).
Proof.
  cbv zeta.
  destruct (i2c_read_data_unfold b chip p 1 s) as (Hv & Hf & He).
  cbv zeta in Hv, Hf, He. rewrite Hv, Hf, He. clear Hv Hf He.
  change (wrap32 1) with 1.
  set (trans := {| address := Z.lor (wrap32 (Z.shiftl chip 1)) 1;
                   buf := p; flags := 0; num_bytes := 1;
                   is_10bit_address := 0 |}).
  destruct (send_recv_packets_read b trans s (read_flag_clear _ p 1))
    as (Hc & _ & Hle & Hall & Hmem).
  destruct (send_recv_packets_fifo b trans s) as (_ & _ & _ & _ & H01 & _).
  change (word_count trans) with 1%nat in *.
  cbn [buf num_bytes trans] in Hmem.
  set (o := send_recv_packets b trans s) in *.
  split; [assumption|]. split; [assumption|].
  destruct (rx_words (control b) (events o)) as [|v [|v' vs]] eqn:Evs.
  - left. split; [reflexivity|]. split.
    + intros H0. specialize (Hall H0). discriminate.
    + intros a. rewrite Hmem. reflexivity.
  - right. exists v. split; [reflexivity|].
    intros a. rewrite Hmem. reflexivity.
  - cbn [length] in Hle. lia.
Qed.

(** ** The byte-stream helpers, one round at a time *)

Lemma tegra_i2c_write_loop_step (b : i2c_bus) (chip addr alen buffer data : Z)
    (n : nat) (offset : Z) (s : state) :
  tegra_i2c_write_loop b chip addr alen buffer data (S n) offset s =
  let m1 :=
    fill_address (mem s) data alen (wrap32 (addr + offset)) 0
      (Z.to_nat alen) in
  let s1 := with_mem s (store8 m1 (data + alen) (m1 (buffer + offset))) in
  let o1 := i2c_write_data b chip data (alen + 1) s1 in
  if truthy (value o1) then
    {| value := 1; final := final o1; events := events o1 |}
  else
    let o2 :=
      tegra_i2c_write_loop b chip addr alen buffer data n (offset + 1)
        (final o1) in
    {| value := value o2; final := final o2;
       events := events o1 ++ events o2 |}.
Proof.
  cbn [tegra_i2c_write_loop]. unfold bind.
  cbn [get_mem put_mem value final events app]. cbv zeta.
  destruct (truthy (value (i2c_write_data b chip data (alen + 1) _)));
    cbn [ret value final events]; rewrite ?app_nil_r; reflexivity.
Qed.

Lemma tegra_i2c_read_loop_step (b : i2c_bus) (chip addr alen buffer data : Z)
    (n : nat) (offset : Z) (s : state) :
  truthy alen = true ->
  tegra_i2c_read_loop b chip addr alen buffer data (S n) offset s =
  let m1 :=
    fill_address (mem s) data alen (wrap32 (addr + offset)) 0
      (Z.to_nat alen) in
  let o1 := i2c_write_data b chip data alen (with_mem s m1) in
  if truthy (value o1) then
    {| value := 1; final := final o1; events := events o1 |}
  else
    let o2 := i2c_read_data b chip (buffer + offset) 1 (final o1) in
    if truthy (value o2) then
      {| value := 1; final := final o2; events := events o1 ++ events o2 |}
    else
      let o3 :=
        tegra_i2c_read_loop b chip addr alen buffer data n (offset + 1)
          (final o2) in
      {| value := value o3; final := final o3;
         events := events o1 ++ events o2 ++ events o3 |}.
Proof.
  intros Ha. cbn [tegra_i2c_read_loop]. rewrite Ha. unfold bind.
  cbn [get_mem put_mem value final events app]. cbv zeta.
  destruct (truthy (value (i2c_write_data b chip data alen _)));
    cbn [ret value final events]; rewrite ?app_nil_r; [reflexivity|].
  destruct (truthy (value (i2c_read_data b chip (buffer + offset) 1 _)));
    cbn [ret value final events]; rewrite ?app_nil_r; reflexivity.
Qed.

(** Any call of [i2c_write_data] or [i2c_read_data]: the table stays, the
    result is 0 or -1, and memory changes inside the buffer only. *)
Lemma i2c_write_data_frame (b : i2c_bus) (chip buffer len : Z) (s : state) :
  0 <= len ->
  let o := i2c_write_data b chip buffer len s in
  i2c_controllers (final o) = i2c_controllers s /\
  (value o = 0 \/ value o = -1) /\
  forall a, a < buffer \/ buffer + len <= a -> mem (final o) a = mem s a.
Proof.
  intros Hlen. cbv zeta. unfold i2c_write_data, tegra_i2c_write_data.
  set (trans := {| address := _; buf := buffer; flags := _;
                   num_bytes := wrap32 len; is_10bit_address := 0 |}).
  assert (Hn : 0 <= wrap32 len <= len).
  { unfold wrap32. split; [apply Z.mod_pos_bound; lia|].
    apply Z.mod_le; lia. }
  destruct (send_recv_packets_effects b trans s (proj1 Hn))
    as (Hc & H01 & Hf & _).
  repeat split; try assumption.
  intros a Ha. apply Hf. cbn [buf num_bytes trans]. lia.
Qed.

Lemma i2c_read_data_frame (b : i2c_bus) (chip buffer len : Z) (s : state) :
  0 <= len ->
  let o := i2c_read_data b chip buffer len s in
  i2c_controllers (final o) = i2c_controllers s /\
  (value o = 0 \/ value o = -1) /\
  forall a, a < buffer \/ buffer + len <= a -> mem (final o) a = mem s a.
Proof.
  intros Hlen. cbv zeta.
  destruct (i2c_read_data_unfold b chip buffer len s) as (Hv & Hf & _).
  cbv zeta in Hv, Hf. rewrite Hv, Hf. clear Hv Hf.
  set (trans := {| address := _; buf := buffer; flags := 0;
                   num_bytes := wrap32 len; is_10bit_address := 0 |}).
  assert (Hn : 0 <= wrap32 len <= len).
  { unfold wrap32. split; [apply Z.mod_pos_bound; lia|].
    apply Z.mod_le; lia. }
  destruct (send_recv_packets_effects b trans s (proj1 Hn))
    as (Hc & H01 & Hfr & _).
  repeat split; try assumption.
  intros a Ha. apply Hfr. cbn [buf num_bytes trans]. lia.
Qed.

Lemma tegra_i2c_write_loop_frame (b : i2c_bus)
    (chip addr alen buffer data : Z) :
  0 <= alen ->
  forall n offset s,
    let o := tegra_i2c_write_loop b chip addr alen buffer data n offset s in
    i2c_controllers (final o) = i2c_controllers s /\
    (value o = 0 \/ value o = 1) /\
    forall a, a < data \/ data + alen < a -> mem (final o) a = mem s a.
Proof.
  intros Ha. induction n as [|n IH]; intros offset s.
  - cbn. repeat split. left; reflexivity.
  - cbv zeta. rewrite tegra_i2c_write_loop_step. cbv zeta.
    set (m1 := fill_address (mem s) data alen (wrap32 (addr + offset)) 0
                 (Z.to_nat alen)).
    set (s1 := with_mem s (store8 m1 (data + alen) (m1 (buffer + offset)))).
    destruct (i2c_write_data_frame b chip data (alen + 1) s1 ltac:(lia))
      as (Hc1 & _ & Hf1).
    assert (Hs1 : forall a, a < data \/ data + alen < a ->
                            mem s1 a = mem s a).
    { intros a Hout. cbn [mem s1 with_mem]. unfold store8.
      destruct (Z.eqb_spec a (data + alen)); [lia|].
      unfold m1.
      apply (proj1 (proj2 (fill_address_layout (mem s) data alen
                             (wrap32 (addr + offset)) Ha))). lia. }
    set (o1 := i2c_write_data b chip data (alen + 1) s1) in *.
    destruct (truthy (value o1)).
    + cbn [value final]. split; [exact Hc1|]. split; [right; reflexivity|].
      intros a Hout. rewrite Hf1 by lia. apply Hs1. assumption.
    + destruct (IH (offset + 1) (final o1)) as (Hc2 & H01 & Hf2).
      cbn [value final]. split; [rewrite Hc2; exact Hc1|].
      split; [assumption|].
      intros a Hout. rewrite Hf2, Hf1 by lia. apply Hs1. assumption.
Qed.

Lemma tegra_i2c_read_loop_frame (b : i2c_bus)
    (chip addr alen buffer data : Z) :
  truthy alen = true ->
  0 <= alen ->
  forall n offset s,
    let o := tegra_i2c_read_loop b chip addr alen buffer data n offset s in
    i2c_controllers (final o) = i2c_controllers s /\
    (value o = 0 \/ value o = 1) /\
    forall a,
      a < data \/ data + alen <= a ->
      a < buffer + offset \/ buffer + offset + Z.of_nat n <= a ->
      mem (final o) a = mem s a.
Proof.
  intros Ht Ha. induction n as [|n IH]; intros offset s.
  - cbn. repeat split. left; reflexivity.
  - cbv zeta. rewrite tegra_i2c_read_loop_step by assumption. cbv zeta.
    set (m1 := fill_address (mem s) data alen (wrap32 (addr + offset)) 0
                 (Z.to_nat alen)).
    destruct (i2c_write_data_frame b chip data alen (with_mem s m1) Ha)
      as (Hc1 & _ & Hf1).
    assert (Hs1 : forall a, a < data \/ data + alen <= a -> m1 a = mem s a).
    { intros a Hout. unfold m1.
      apply (proj1 (proj2 (fill_address_layout (mem s) data alen
                             (wrap32 (addr + offset)) Ha))). lia. }
    set (o1 := i2c_write_data b chip data alen (with_mem s m1)) in *.
    destruct (truthy (value o1)).
    + cbn [value final]. split; [exact Hc1|]. split; [right; reflexivity|].
      intros a Hd _. rewrite Hf1 by lia. apply Hs1. assumption.
    + destruct (i2c_read_data_frame b chip (buffer + offset) 1 (final o1)
                  ltac:(lia)) as (Hc2 & _ & Hf2).
      set (o2 := i2c_read_data b chip (buffer + offset) 1 (final o1)) in *.
      destruct (truthy (value o2)).
      * cbn [value final]. split; [rewrite Hc2; exact Hc1|].
        split; [right; reflexivity|].
        intros a Hd Hb. rewrite Hf2, Hf1 by lia. apply Hs1. assumption.
      * destruct (IH (offset + 1) (final o2)) as (Hc3 & H01 & Hf3).
        cbn [value final]. split; [rewrite Hc3, Hc2; exact Hc1|].
        split; [assumption|].
        intros a Hd Hb. rewrite Hf3, Hf2, Hf1 by lia. apply Hs1. assumption.
Qed.

(** X8.  The adapter operations [tegra_i2c_probe], [tegra_i2c_read] and
    [tegra_i2c_write] return 0 or 1, never change the controller table, and
    change memory only where they are meant to: the probe its one-byte
    local, the write its [alen + 1]-byte local array, the read its
    [alen]-byte local array and the [len] bytes of the caller's buffer. *)
Theorem adapter_operations_frame (adap : i2c_adapter)
    (chip addr alen buffer len data reg : Z) (s : state) :
  (let o := tegra_i2c_probe adap chip reg s in
   i2c_controllers (final o) = i2c_controllers s /\
   (value o = 0 \/ value o = 1) /\
   forall a, a <> reg -> mem (final o) a = mem s a) /\
  (let o := tegra_i2c_write adap chip addr alen buffer len data s in
   i2c_controllers (final o) = i2c_controllers s /\
   (value o = 0 \/ value o = 1) /\
   forall a, a < data \/ data + alen < a -> mem (final o) a = mem s a) /\
  (let o := tegra_i2c_read adap chip addr alen buffer len data s in
   i2c_controllers (final o) = i2c_controllers s /\
   (value o = 0 \/ value o = 1) /\
   forall a,
     a < data \/ data + alen <= a ->
     a < buffer \/ buffer + wrap32 len <= a ->
     mem (final o) a = mem s a).
Proof.
  set (p := Z.to_nat (hwadapnr adap)).
  set (b := nth p (i2c_controllers s) zero_bus).
  split; [|split]; cbv zeta.
  - unfold tegra_i2c_probe, tegra_i2c_get_bus, deref_bus, bind.
    cbn [ret value final events get_mem put_mem]. fold p b.
    destruct (truthy (inited b)); cbn [ret value final events get_mem put_mem].
    + set (s0 := with_mem s _).
      destruct (i2c_write_data_frame b chip reg 1 s0 ltac:(lia))
        as (Hc & _ & Hf).
      fold b. set (ow := i2c_write_data b chip reg 1 s0) in *.
      assert (Hs0 : forall a, a <> reg -> mem s0 a = mem s a).
      { intros a Hne. cbn [mem s0 with_mem]. unfold store8.
        destruct (Z.eqb_spec a reg); [contradiction | reflexivity]. }
      destruct (truthy (value ow)); cbn [ret value final];
        (split; [exact Hc|]);
        (split; [first [left; reflexivity | right; reflexivity]|]);
        intros a Hne; rewrite Hf by lia; apply Hs0; assumption.
    + repeat split. right; reflexivity.
  - unfold tegra_i2c_write, tegra_i2c_get_bus, deref_bus, bind.
    cbn [ret value final events]. fold p b.
    destruct (truthy (inited b)); cbn [ret value final events];
      [|repeat split; right; reflexivity].
    destruct (i2c_addr_ok addr alen) eqn:Hok;
      [|cbn [ret value final]; repeat split; right; reflexivity].
    apply i2c_addr_ok_cases in Hok.
    fold b. apply tegra_i2c_write_loop_frame. lia.
  - unfold tegra_i2c_read, tegra_i2c_get_bus, deref_bus, bind.
    cbn [ret value final events]. fold p b.
    destruct (truthy (inited b)); cbn [ret value final events];
      [|repeat split; right; reflexivity].
    destruct (i2c_addr_ok addr alen) eqn:Hok;
      [|cbn [ret value final]; repeat split; right; reflexivity].
    apply i2c_addr_ok_cases in Hok.
    fold b.
    destruct (tegra_i2c_read_loop_frame b chip addr alen buffer data
                ltac:(destruct Hok; subst; reflexivity) ltac:(lia)
                (Z.to_nat (wrap32 len)) 0 s) as (Hc & H01 & Hf).
    split; [exact Hc|]. split; [exact H01|].
    intros a Hd Hb. apply Hf; [assumption|].
    assert (0 <= wrap32 len) by (apply Z.mod_pos_bound; lia). lia.
Qed.

(** ** What the byte-stream helpers send and receive *)

Lemma read_bytes_4_nth (m : memory) (p i : Z) :
  0 <= i < 4 ->
  nth (Z.to_nat i) (read_bytes m p 4) Byte.x00 = m (p + i).
Proof.
  intros Hi. rewrite read_bytes_nth by lia. f_equal. lia.
Qed.

Lemma tegra_i2c_write_loop_packets (b : i2c_bus)
    (chip addr alen buffer data : Z) :
  wrap32 (I2C_IS_WRITE h) <> 0 ->
  alen = 1 \/ alen = 2 ->
  forall n offset s,
    (forall j, 0 <= j < Z.of_nat n ->
               buffer + offset + j < data \/ data + alen < buffer + offset + j) ->
    let o := tegra_i2c_write_loop b chip addr alen buffer data n offset s in
    let hdr :=
      header_words b
        {| address := wrap32 (Z.shiftl chip 1); buf := data;
           flags := wrap32 (I2C_IS_WRITE h); num_bytes := alen + 1;
           is_10bit_address := 0 |} 1 in
    rx_words (control b) (events o) = [] /\
    exists ws,
      tx_words (control b) (events o) = flat_map (fun w => hdr ++ [w]) ws /\
      (length ws <= n)%nat /\
      (value o = 0 -> length ws = n) /\
      forall j w,
        nth_error ws j = Some w ->
        (forall i, 0 <= i < alen ->
           nth (Z.to_nat i) (u32_bytes w) Byte.x00
           = byte_of_Z (Z.shiftr (wrap32 (addr + (offset + Z.of_nat j)))
                                 (8 * (alen - 1 - i)))) /\
        nth (Z.to_nat alen) (u32_bytes w) Byte.x00
        = mem s (buffer + offset + Z.of_nat j).
Proof.
  intros HW Hal. induction n as [|n IH]; intros offset s Hdisj.
  - cbn. split; [reflexivity|]. exists [].
    split; [reflexivity|]. split; [cbn; lia|]. split; [reflexivity|].
    intros [|j] w E; discriminate.
  - cbv zeta. rewrite tegra_i2c_write_loop_step. cbv zeta.
    set (m1 := fill_address (mem s) data alen (wrap32 (addr + offset)) 0
                 (Z.to_nat alen)).
    set (s1 := with_mem s (store8 m1 (data + alen) (m1 (buffer + offset)))).
    destruct (fill_address_layout (mem s) data alen (wrap32 (addr + offset))
                ltac:(lia)) as (Hin & Hout & _).
    fold m1 in Hin, Hout.
    destruct (short_write_effects b chip data (alen + 1) s1 HW ltac:(lia))
      as (Hm1 & _ & Hrx1 & Htx1 & H01).
    set (o1 := i2c_write_data b chip data (alen + 1) s1) in *.
    set (w0 := load_u32 (mem s1) data) in *.
    assert (Hs1 : forall a, a < data \/ data + alen < a ->
                            mem s1 a = mem s a).
    { intros a Ha. cbn [mem s1 with_mem]. unfold store8.
      destruct (Z.eqb_spec a (data + alen)); [lia|]. apply Hout. lia. }
    assert (Hw0 :
      (forall i, 0 <= i < alen ->
         nth (Z.to_nat i) (u32_bytes w0) Byte.x00
         = byte_of_Z (Z.shiftr (wrap32 (addr + (offset + Z.of_nat 0)))
                               (8 * (alen - 1 - i)))) /\
      nth (Z.to_nat alen) (u32_bytes w0) Byte.x00
      = mem s (buffer + offset + Z.of_nat 0)).
    { unfold w0. rewrite u32_bytes_load. split.
      - intros i Hi. rewrite read_bytes_4_nth by lia.
        cbn [mem s1 with_mem]. unfold store8.
        destruct (Z.eqb_spec (data + i) (data + alen)); [lia|].
        rewrite Hin by lia. do 3 f_equal. cbn. lia.
      - rewrite read_bytes_4_nth by lia.
        cbn [mem s1 with_mem]. unfold store8. rewrite Z.eqb_refl.
        cbn [Z.of_nat]. rewrite Z.add_0_r. apply Hout.
        specialize (Hdisj 0 ltac:(lia)). lia. }
    destruct (truthy (value o1)) eqn:Hz.
    + cbn [value events]. split; [exact Hrx1|].
      exists [w0]. cbn [flat_map length]. rewrite app_nil_r.
      split; [exact Htx1|]. split; [lia|]. split; [discriminate|].
      intros [|[|j]] w E; try discriminate. injection E as <-. exact Hw0.
    + destruct (IH (offset + 1) (final o1)) as (Hrx2 & ws & Htx2 & Hlen & Hall & Hws).
      { intros j Hj. specialize (Hdisj (j + 1) ltac:(lia)). lia. }
      cbn [value events].
      rewrite rx_words_app, tx_words_app, Hrx1, Hrx2, Htx1, Htx2.
      split; [reflexivity|].
      exists (w0 :: ws). cbn [flat_map length].
      split; [reflexivity|]. split; [lia|].
      split; [intros H0; f_equal; auto|].
      intros [|j] w E.
      * injection E as <-. exact Hw0.
      * cbn [nth_error] in E. destruct (Hws j w E) as (Hb & Hd).
        split.
        -- intros i Hi. rewrite (Hb i Hi). do 3 f_equal. lia.
        -- rewrite Hd, Hm1.
           replace (buffer + (offset + 1) + Z.of_nat j)
             with (buffer + offset + Z.of_nat (S j)) by lia.
           assert (Hj : (j < length ws)%nat)
             by (apply nth_error_Some; congruence).
           apply Hs1. specialize (Hdisj (Z.of_nat (S j)) ltac:(lia)). lia.
Qed.

(** X9.  [tegra_i2c_write] on an initialized controller sends one packet
    per data byte and receives nothing.  Each packet is the same three-word
    header (payload length [alen + 1]) followed by one payload word; for the
    packet number [j] that word carries, lowest byte first, the register
    address [addr + j] most significant byte first and then byte [j] of the
    caller's buffer.  At most [len] packets are sent, and exactly [len] when
    the result is 0. *)
Theorem tegra_i2c_write_packets (adap : i2c_adapter)
    (chip addr alen buffer len data : Z) (s : state) :
  let b := nth (Z.to_nat (hwadapnr adap)) (i2c_controllers s) zero_bus in
  inited b <> 0 ->
  i2c_addr_ok addr alen = true ->
  wrap32 (I2C_IS_WRITE h) <> 0 ->
  0 <= len < 2 ^ 32 ->
  (forall j, 0 <= j < len ->
             buffer + j < data \/ data + alen < buffer + j) ->
  let o := tegra_i2c_write adap chip addr alen buffer len data s in
  let hdr :=
    header_words b
      {| address := wrap32 (Z.shiftl chip 1); buf := data;
         flags := wrap32 (I2C_IS_WRITE h); num_bytes := alen + 1;
         is_10bit_address := 0 |} 1 in
  rx_words (control b) (events o) = [] /\
  exists ws,
    tx_words (control b) (events o) = flat_map (fun w => hdr ++ [w]) ws /\
    Z.of_nat (length ws) <= len /\
    (value o = 0 -> Z.of_nat (length ws) = len) /\
    forall j w,
      nth_error ws j = Some w ->
      (forall i, 0 <= i < alen ->
         nth (Z.to_nat i) (u32_bytes w) Byte.x00
         = byte_of_Z (Z.shiftr (wrap32 (addr + Z.of_nat j))
                               (8 * (alen - 1 - i)))) /\
      nth (Z.to_nat alen) (u32_bytes w) Byte.x00
      = mem s (buffer + Z.of_nat j).
Proof.
  intros b Hi Hok HW Hlen Hdisj o hdr.
  assert (Hib : truthy (inited b) = true).
  { unfold truthy. destruct (Z.eqb_spec (inited b) 0); [contradiction|].
    reflexivity. }
  assert (Ho : o = tegra_i2c_write_loop b chip addr alen buffer data
                     (Z.to_nat len) 0 s).
  { unfold o, tegra_i2c_write, tegra_i2c_get_bus, deref_bus, bind.
    cbn [ret value final events]. fold b. rewrite Hib.
    cbn [ret value final events]. fold b. rewrite Hok.
    rewrite (wrap32_small len Hlen).
    destruct (tegra_i2c_write_loop b chip addr alen buffer data
                (Z.to_nat len) 0 s). reflexivity. }
  rewrite Ho.
  destruct (tegra_i2c_write_loop_packets b chip addr alen buffer data HW
              (i2c_addr_ok_cases _ _ Hok) (Z.to_nat len) 0 s)
    as (Hrx & ws & Htx & Hle & Hall & Hws).
  { intros j Hj. specialize (Hdisj j ltac:(lia)). lia. }
  split; [exact Hrx|]. exists ws. split; [exact Htx|].
  split; [lia|]. split; [intros H0; rewrite (Hall H0); lia|].
  intros j w E. destruct (Hws j w E) as (Hb & Hd). split.
  - intros i Hi'. rewrite (Hb i Hi'). do 3 f_equal.
  - rewrite Hd. f_equal. lia.
Qed.

Lemma tegra_i2c_read_loop_bytes (b : i2c_bus)
    (chip addr alen buffer data : Z) :
  wrap32 (I2C_IS_WRITE h) <> 0 ->
  alen = 1 \/ alen = 2 ->
  forall n offset s,
    let o := tegra_i2c_read_loop b chip addr alen buffer data n offset s in
    let vs := rx_words (control b) (events o) in
    (length vs <= n)%nat /\
    (value o = 0 -> length vs = n) /\
    forall a,
      a < data \/ data + alen <= a ->
      mem (final o) a =
      if (buffer + offset <=? a)
         && (a <? buffer + offset + Z.of_nat (length vs))
      then byte_of_Z (nth (Z.to_nat (a - (buffer + offset))) vs 0)
      else mem s a.
Proof.
  intros HW Hal.
  assert (Hta : truthy alen = true) by (destruct Hal; subst; reflexivity).
  induction n as [|n IH]; intros offset s.
  - cbn. split; [lia|]. split; [reflexivity|]. intros a _.
    destruct (Z.leb_spec (buffer + offset) a);
      destruct (Z.ltb_spec a (buffer + offset + 0));
      cbn [andb]; try reflexivity; lia.
  - cbv zeta. rewrite tegra_i2c_read_loop_step by assumption. cbv zeta.
    set (m1 := fill_address (mem s) data alen (wrap32 (addr + offset)) 0
                 (Z.to_nat alen)).
    destruct (fill_address_layout (mem s) data alen (wrap32 (addr + offset))
                ltac:(lia)) as (_ & Hout & _).
    fold m1 in Hout.
    destruct (short_write_effects b chip data alen (with_mem s m1) HW
                ltac:(lia)) as (Hm1 & _ & Hrx1 & _ & _).
    cbn [mem with_mem] in Hm1.
    set (o1 := i2c_write_data b chip data alen (with_mem s m1)) in *.
    destruct (truthy (value o1)).
    + cbn [value final events]. rewrite Hrx1. cbn [length].
      split; [lia|]. split; [discriminate|].
      intros a Ha. rewrite Hm1, Hout by assumption.
      destruct (Z.leb_spec (buffer + offset) a);
        destruct (Z.ltb_spec a (buffer + offset + Z.of_nat 0));
        cbn [andb]; try reflexivity; lia.
    + destruct (one_byte_read_effects b chip (buffer + offset) (final o1))
        as (_ & _ & Hcase).
      set (o2 := i2c_read_data b chip (buffer + offset) 1 (final o1)) in *.
      destruct Hcase as [(Hvs & Hne & Hm2) | (v & Hvs & Hm2)].
      * (* nothing was received: the read failed *)
        assert (Hz : truthy (value o2) = true).
        { unfold truthy. destruct (Z.eqb_spec (value o2) 0);
            [contradiction | reflexivity]. }
        rewrite Hz. cbn [value final events].
        rewrite rx_words_app, Hrx1, Hvs. cbn [app length].
        split; [lia|]. split; [discriminate|].
        intros a Ha. rewrite Hm2, Hm1, Hout by assumption.
        destruct (Z.leb_spec (buffer + offset) a);
          destruct (Z.ltb_spec a (buffer + offset + Z.of_nat 0));
          cbn [andb]; try reflexivity; lia.
      * assert (Hm2' : forall a, a < data \/ data + alen <= a ->
                  mem (final o2) a =
                  if a =? buffer + offset then byte_of_Z v else mem s a).
        { intros a Ha. rewrite Hm2. unfold store8.
          destruct (Z.eqb_spec a (buffer + offset)); [reflexivity|].
          rewrite Hm1. apply Hout. assumption. }
        destruct (truthy (value o2)).
        -- cbn [value final events].
           rewrite rx_words_app, Hrx1, Hvs. cbn [app length].
           split; [lia|]. split; [discriminate|].
           intros a Ha. rewrite (Hm2' a Ha).
           destruct (Z.eqb_spec a (buffer + offset)) as [Heq|Hne];
             destruct (Z.leb_spec (buffer + offset) a);
             destruct (Z.ltb_spec a (buffer + offset + Z.of_nat 1));
             cbn [andb]; try reflexivity; try lia.
           rewrite Heq, Z.sub_diag. reflexivity.
        -- destruct (IH (offset + 1) (final o2)) as (Hle & Hall & Hmem).
           set (o3 := tegra_i2c_read_loop b chip addr alen buffer data n
                        (offset + 1) (final o2)) in *.
           cbn [value final events].
           rewrite !rx_words_app, Hrx1, Hvs. cbn [app length].
           set (vs3 := rx_words (control b) (events o3)) in *.
           split; [lia|]. split; [intros H0; f_equal; auto|].
           intros a Ha. rewrite (Hmem a Ha), (Hm2' a Ha).
           destruct (Z.eqb_spec a (buffer + offset)) as [Heq|Hne];
             destruct (Z.leb_spec (buffer + (offset + 1)) a);
             destruct (Z.ltb_spec a
                         (buffer + (offset + 1) + Z.of_nat (length vs3)));
             destruct (Z.leb_spec (buffer + offset) a);
             destruct (Z.ltb_spec a
                         (buffer + offset + Z.of_nat (S (length vs3))));
             cbn [andb]; try reflexivity; try lia.
           ++ rewrite Heq, Z.sub_diag. reflexivity.
           ++ replace (Z.to_nat (a - (buffer + offset)))
                with (S (Z.to_nat (a - (buffer + (offset + 1))))) by lia.
              reflexivity.
Qed.

(** X10.  [tegra_i2c_read] on an initialized controller receives one word
    per byte read and stores the low-order byte of the word number [i] at
    offset [i] of the caller's buffer (for an offset that does not fall into
    the local address array).  At most [len] words are received, and exactly
    [len] when the result is 0. *)
Theorem tegra_i2c_read_bytes (adap : i2c_adapter)
    (chip addr alen buffer len data : Z) (s : state) :
  let b := nth (Z.to_nat (hwadapnr adap)) (i2c_controllers s) zero_bus in
  inited b <> 0 ->
  i2c_addr_ok addr alen = true ->
  wrap32 (I2C_IS_WRITE h) <> 0 ->
  0 <= len < 2 ^ 32 ->
  let o := tegra_i2c_read adap chip addr alen buffer len data s in
  let vs := rx_words (control b) (events o) in
  Z.of_nat (length vs) <= len /\
  (value o = 0 -> Z.of_nat (length vs) = len) /\
  forall i,
    0 <= i < Z.of_nat (length vs) ->
    buffer + i < data \/ data + alen <= buffer + i ->
    mem (final o) (buffer + i) = byte_of_Z (nth (Z.to_nat i) vs 0).
Proof.
  intros b Hi Hok HW Hlen o vs.
  assert (Hib : truthy (inited b) = true).
  { unfold truthy. destruct (Z.eqb_spec (inited b) 0); [contradiction|].
    reflexivity. }
  assert (Ho : o = tegra_i2c_read_loop b chip addr alen buffer data
                     (Z.to_nat len) 0 s).
  { unfold o, tegra_i2c_read, tegra_i2c_get_bus, deref_bus, bind.
    cbn [ret value final events]. fold b. rewrite Hib.
    cbn [ret value final events]. fold b. rewrite Hok.
    rewrite (wrap32_small len Hlen).
    destruct (tegra_i2c_read_loop b chip addr alen buffer data
                (Z.to_nat len) 0 s). reflexivity. }
  unfold vs. rewrite Ho.
  destruct (tegra_i2c_read_loop_bytes b chip addr alen buffer data HW
              (i2c_addr_ok_cases _ _ Hok) (Z.to_nat len) 0 s)
    as (Hle & Hall & Hmem).
  split; [lia|]. split; [intros H0; rewrite (Hall H0); lia|].
  intros i Hi' Hout. rewrite (Hmem _ Hout).
  rewrite Z.add_0_r.
  destruct (Z.leb_spec buffer (buffer + i)); [|lia].
  destruct (Z.ltb_spec (buffer + i)
              (buffer + Z.of_nat (length (rx_words (control b)
                 (events (tegra_i2c_read_loop b chip addr alen buffer data
                            (Z.to_nat len) 0 s))))));
    [|lia].
  cbn [andb]. do 3 f_equal. lia.
Qed.

(** ** The controller table *)

Lemma update_nth_length {A} (n : nat) (x : A) (l : list A) :
  length (update_nth n x l) = length l.
Proof.
  revert n. induction l as [|y l IH]; intros [|n]; cbn; try reflexivity.
  f_equal. apply IH.
Qed.

Lemma nth_update_nth_eq {A} (n : nat) (x d : A) (l : list A) :
  (n < length l)%nat -> nth n (update_nth n x l) d = x.
Proof.
  revert n. induction l as [|y l IH]; intros [|n] Hn; cbn in *;
    try lia; try reflexivity.
  apply IH. lia.
Qed.

Lemma nth_update_nth_neq {A} (n m : nat) (x d : A) (l : list A) :
  n <> m -> nth m (update_nth n x l) d = nth m l d.
Proof.
  revert n m. induction l as [|y l IH]; intros [|n] [|m] Hn; cbn;
    try reflexivity; try congruence.
  apply IH. congruence.
Qed.

Lemma update_nth_twice {A} (n : nat) (x y : A) (l : list A) :
  update_nth n x (update_nth n y l) = update_nth n x l.
Proof.
  revert n. induction l as [|z l IH]; intros [|n]; cbn; try reflexivity.
  f_equal. apply IH.
Qed.

(** ** Initialization of a controller *)

Ltac run_init :=
  lazy beta iota zeta delta
    [i2c_init_controller i2c_reset_controller set_packet_mode setbits_le32
     bind ret emit readl writel clock_start_periph_pll reset_periph
     funcmux_select value final events app with_hw with_controllers
     hw mem i2c_controllers recovery_events scs_events dvc_events
     tx_words rx_words delay_total].

Lemma i2c_init_controller_spec (b : i2c_bus) (s : state) :
  let o := i2c_init_controller b s in
  mem (final o) = mem s /\
  i2c_controllers (final o) = i2c_controllers s /\
  exists scs_part sl dvc_part,
    events o =
      EvClockStart (periph_id b) (CLOCK_ID_PERIPH h) (wrap32 (speed b * 16))
      :: scs_part ++ recovery_events b sl ++ dvc_part
         ++ [EvFuncmux (periph_id b) (pinmux_config b)] /\
    (is_scs b = 0 /\ scs_part = [] \/
     is_scs b <> 0 /\ exists v, scs_part = scs_events b v) /\
    (is_dvc b = 0 /\ dvc_part = [] \/
     is_dvc b <> 0 /\ exists v, dvc_part = dvc_events b v).
Proof.
  assert (Ht : forall z, truthy z = true -> z <> 0).
  { intros z Hz ->. discriminate. }
  replace (speed b * 16) with (speed b * 2 * 8) by lia.
  cbv zeta. unfold i2c_init_controller.
  destruct (truthy (is_scs b)) eqn:Es; destruct (truthy (is_dvc b)) eqn:Ed.
  - split; [run_init; rewrite Ed; reflexivity|].
    split; [run_init; rewrite Ed; reflexivity|].
    eexists (scs_events b _), 0, (dvc_events b _).
    split; [run_init; rewrite Ed; reflexivity|].
    split; right; (split; [auto|]); eexists; reflexivity.
  - split; [run_init; rewrite Ed; reflexivity|].
    split; [run_init; rewrite Ed; reflexivity|].
    eexists (scs_events b _), _, [].
    split; [run_init; rewrite Ed; reflexivity|].
    split; [right; split; [auto|]; eexists; reflexivity|].
    left. split; [apply truthy_false_zero; assumption | reflexivity].
  - split; [run_init; rewrite Ed; reflexivity|].
    split; [run_init; rewrite Ed; reflexivity|].
    eexists [], 0, (dvc_events b _).
    split; [run_init; rewrite Ed; reflexivity|].
    split; [left; split; [apply truthy_false_zero; assumption | reflexivity]|].
    right. split; [auto|]. eexists. reflexivity.
  - split; [run_init; rewrite Ed; reflexivity|].
    split; [run_init; rewrite Ed; reflexivity|].
    eexists [], _, [].
    split; [run_init; rewrite Ed; reflexivity|].
    split; left; (split; [apply truthy_false_zero; assumption | reflexivity]).
Qed.

(** The table is not consulted by [i2c_init_controller]: what it asks of the
    hardware depends on the entry it is given only. *)
Lemma i2c_init_controller_table (b : i2c_bus) (s : state)
    (t : list i2c_bus) :
  let o := i2c_init_controller b s in
  let o' := i2c_init_controller b (with_controllers s t) in
  events o' = events o /\ final o' = with_controllers (final o) t.
Proof.
  cbv zeta. unfold i2c_init_controller.
  destruct (truthy (is_scs b)); destruct (truthy (is_dvc b)) eqn:Ed;
    (split; run_init; rewrite Ed; reflexivity).
Qed.

Lemma i2c_init_controller_quiet (c : Z) (b : i2c_bus) (s : state) :
  let o := i2c_init_controller b s in
  tx_words c (events o) = [] /\ rx_words c (events o) = [] /\
  delay_total (events o) = 0.
Proof.
  cbv zeta. unfold i2c_init_controller.
  destruct (truthy (is_scs b)); destruct (truthy (is_dvc b)) eqn:Ed;
    (split; [|split]); run_init; rewrite Ed; reflexivity.
Qed.

(** X11.  [i2c_init_controller] leaves memory and the controller table
    alone and programs the controller in a fixed order: the clock is started
    at sixteen times the bus speed (modulo 2^32); on single-clock-source
    hardware the divisor register is read and the clock restarted from it;
    then comes the reset with the packet-mode configuration, for a DVC
    controller the read-modify-write of its third control register, and the
    pin multiplexing last.  It never touches a FIFO register and never
    waits. *)
Theorem i2c_init_controller_sequence (b : i2c_bus) (s : state) (c : Z) :
  let o := i2c_init_controller b s in
  mem (final o) = mem s /\
  i2c_controllers (final o) = i2c_controllers s /\
  (exists scs_part sl dvc_part,
     events o =
       EvClockStart (periph_id b) (CLOCK_ID_PERIPH h) (wrap32 (speed b * 16))
       :: scs_part ++ recovery_events b sl ++ dvc_part
          ++ [EvFuncmux (periph_id b) (pinmux_config b)] /\
     (is_scs b = 0 /\ scs_part = [] \/
      is_scs b <> 0 /\ exists v, scs_part = scs_events b v) /\
     (is_dvc b = 0 /\ dvc_part = [] \/
      is_dvc b <> 0 /\ exists v, dvc_part = dvc_events b v)) /\
  tx_words c (events o) = [] /\ rx_words c (events o) = [] /\
  delay_total (events o) = 0.
Proof.
  cbv zeta.
  destruct (i2c_init_controller_spec b s) as (Hm & Ht & He).
  split; [exact Hm|]. split; [exact Ht|]. split; [exact He|].
  exact (i2c_init_controller_quiet c b s).
Qed.

Lemma wrap32_to_int_mul (z k : Z) : wrap32 (to_int z * k) = wrap32 (z * k).
Proof.
  unfold to_int, wrap32. cbv zeta.
  destruct (z mod 2 ^ 32 <? 2 ^ 31).
  - rewrite Z.mul_mod_idemp_l by lia. reflexivity.
  - replace ((z mod 2 ^ 32 - 2 ^ 32) * k)
      with (z mod 2 ^ 32 * k + (- k) * 2 ^ 32) by lia.
    rewrite Z.mod_add by lia.
    rewrite Z.mul_mod_idemp_l by lia. reflexivity.
Qed.

Lemma tegra_i2c_set_bus_speed_unfold (adap : i2c_adapter) (spd : Z)
    (s : state) :
  let p := Z.to_nat (hwadapnr adap) in
  let b := nth p (i2c_controllers s) zero_bus in
  let b' := with_speed b (to_int spd) in
  inited b <> 0 ->
  (p < length (i2c_controllers s))%nat ->
  let o := tegra_i2c_set_bus_speed adap spd s in
  let oi := i2c_init_controller b' s in
  value o = 0 /\ mem (final o) = mem s /\ hw (final o) = hw (final oi) /\
  i2c_controllers (final o) = update_nth p b' (i2c_controllers s) /\
  events o = events oi.
Proof.
  intros p b b' Hi Hp o oi.
  assert (Hib : truthy (inited b) = true).
  { unfold truthy. destruct (Z.eqb_spec (inited b) 0); [contradiction|].
    reflexivity. }
  set (t' := update_nth p b' (i2c_controllers s)).
  destruct (i2c_init_controller_table b' s t') as (He & Hf).
  destruct (i2c_init_controller_spec b' s) as (Hm0 & _).
  cbv zeta in He, Hf, Hm0. fold oi in He, Hf, Hm0.
  assert (Hh : hw (final (i2c_init_controller b' (with_controllers s t')))
               = hw (final oi)) by (rewrite Hf; reflexivity).
  assert (Hm : mem (final (i2c_init_controller b' (with_controllers s t')))
               = mem s) by (rewrite Hf; exact Hm0).
  assert (Ht : i2c_controllers
                 (final (i2c_init_controller b' (with_controllers s t')))
               = t') by (rewrite Hf; reflexivity).
  assert (Ho : o = let o' := i2c_init_controller b' (with_controllers s t') in
                   {| value := 0; final := final o'; events := events o' |}).
  { unfold o, tegra_i2c_set_bus_speed, tegra_i2c_get_bus, deref_bus,
      set_bus_speed_field, bind.
    cbn [ret value final events app]. fold p. fold b. rewrite Hib.
    cbn [ret value final events app i2c_controllers with_controllers].
    fold p. fold b. fold (with_speed b (to_int spd)). fold b'. fold t'.
    assert (Hn : nth p t' zero_bus = b')
      by (apply nth_update_nth_eq; assumption).
    rewrite !Hn, app_nil_r. reflexivity. }
  rewrite Ho. cbv zeta. cbn [value final events].
  repeat split; assumption.
Qed.

(** X12.  [tegra_i2c_set_bus_speed] on an initialized controller replaces
    the [speed] field of the addressed table entry by the requested speed
    and nothing else: the other fields (the initialized flag among them) and
    the other entries are as before, memory is untouched.  It then programs
    the controller as [i2c_init_controller] does for the updated entry,
    starting the clock at sixteen times the requested speed modulo 2^32, and
    returns 0. *)
Theorem tegra_i2c_set_bus_speed_effects (adap : i2c_adapter) (spd : Z)
    (s : state) :
  let p := Z.to_nat (hwadapnr adap) in
  let b := nth p (i2c_controllers s) zero_bus in
  inited b <> 0 ->
  (p < length (i2c_controllers s))%nat ->
  let o := tegra_i2c_set_bus_speed adap spd s in
  let t' := i2c_controllers (final o) in
  value o = 0 /\
  mem (final o) = mem s /\
  length t' = length (i2c_controllers s) /\
  nth p t' zero_bus = with_speed b (to_int spd) /\
  (forall q, q <> p -> nth q t' zero_bus = nth q (i2c_controllers s) zero_bus) /\
  events o = events (i2c_init_controller (with_speed b (to_int spd)) s) /\
  hd_error (events o) =
    Some (EvClockStart (periph_id b) (CLOCK_ID_PERIPH h) (wrap32 (spd * 16))).
Proof.
  intros p b Hi Hp o t'.
  destruct (tegra_i2c_set_bus_speed_unfold adap spd s Hi Hp)
    as (Hv & Hm & _ & Ht & He).
  fold p b o in Hv, Hm, Ht, He. unfold t'. rewrite Ht, He.
  split; [exact Hv|]. split; [exact Hm|].
  split; [apply update_nth_length|].
  split; [apply nth_update_nth_eq; assumption|].
  split; [intros q Hq; apply nth_update_nth_neq; congruence|].
  split; [reflexivity|].
  destruct (i2c_init_controller_spec (with_speed b (to_int spd)) s)
    as (_ & _ & sp & sl & dp & -> & _).
  cbn [hd_error with_speed periph_id speed].
  rewrite wrap32_to_int_mul. reflexivity.
Qed.

(** ** Finding the DVC controller *)

Lemma dvc_bus_scan_spec (table : list i2c_bus) (n i : nat) :
  let r := dvc_bus_scan table i n in
  (r = -1 /\
   forall j, (i <= j < i + n)%nat ->
     inited (nth j table zero_bus) = 0 \/ is_dvc (nth j table zero_bus) = 0)
  \/
  (exists k,
     r = Z.of_nat k /\ (i <= k < i + n)%nat /\
     inited (nth k table zero_bus) <> 0 /\
     is_dvc (nth k table zero_bus) <> 0 /\
     forall j, (i <= j < k)%nat ->
       inited (nth j table zero_bus) = 0 \/
       is_dvc (nth j table zero_bus) = 0).
Proof.
  revert i. induction n as [|n IH]; intros i; cbv zeta.
  - left. split; [reflexivity|]. intros j Hj. lia.
  - cbn [dvc_bus_scan]. cbv zeta.
    destruct (truthy (inited (nth i table zero_bus))) eqn:Ei;
      [destruct (truthy (is_dvc (nth i table zero_bus))) eqn:Ed|];
      cbn [andb].
    + right. exists i. split; [reflexivity|]. split; [lia|].
      split; [intros E; rewrite E in Ei; discriminate|].
      split; [intros E; rewrite E in Ed; discriminate|].
      intros j Hj. lia.
    + apply truthy_false_zero in Ed.
      destruct (IH (S i)) as [(Hr & Hall) | (k & Hr & Hk & Hi & Hd & Hall)].
      * left. split; [exact Hr|]. intros j Hj.
        destruct (Nat.eq_dec j i) as [->|Hne]; [right; exact Ed|].
        apply Hall. lia.
      * right. exists k. split; [exact Hr|]. split; [lia|].
        split; [exact Hi|]. split; [exact Hd|]. intros j Hj.
        destruct (Nat.eq_dec j i) as [->|Hne]; [right; exact Ed|].
        apply Hall. lia.
    + apply truthy_false_zero in Ei.
      destruct (IH (S i)) as [(Hr & Hall) | (k & Hr & Hk & Hi & Hd & Hall)].
      * left. split; [exact Hr|]. intros j Hj.
        destruct (Nat.eq_dec j i) as [->|Hne]; [left; exact Ei|].
        apply Hall. lia.
      * right. exists k. split; [exact Hr|]. split; [lia|].
        split; [exact Hi|]. split; [exact Hd|]. intros j Hj.
        destruct (Nat.eq_dec j i) as [->|Hne]; [left; exact Ei|].
        apply Hall. lia.
Qed.

(** X13.  [tegra_i2c_get_dvc_bus_num] changes nothing and causes no event.
    It returns the least index below [TEGRA_I2C_NUM_CONTROLLERS] whose table
    entry is both initialized and a DVC controller, and -1 exactly when
    there is no such entry. *)
Theorem tegra_i2c_get_dvc_bus_num_first (bh : board_h) (s : state) :
  let o := tegra_i2c_get_dvc_bus_num bh s in
  let n := Z.to_nat (TEGRA_I2C_NUM_CONTROLLERS bh) in
  let entry j := nth j (i2c_controllers s) zero_bus in
  final o = s /\ events o = [] /\
  ((value o = -1 /\
    forall j, (j < n)%nat -> inited (entry j) = 0 \/ is_dvc (entry j) = 0)
   \/
   (exists k,
      value o = Z.of_nat k /\ (k < n)%nat /\
      inited (entry k) <> 0 /\ is_dvc (entry k) <> 0 /\
      forall j, (j < k)%nat -> inited (entry j) = 0 \/ is_dvc (entry j) = 0)).
Proof.
  cbv zeta. unfold tegra_i2c_get_dvc_bus_num. cbn [ret value final events].
  split; [reflexivity|]. split; [reflexivity|].
  destruct (dvc_bus_scan_spec (i2c_controllers s)
              (Z.to_nat (TEGRA_I2C_NUM_CONTROLLERS bh)) 0)
    as [(Hr & Hall) | (k & Hr & Hk & Hi & Hd & Hall)].
  - left. split; [exact Hr|]. intros j Hj. apply Hall. lia.
  - right. exists k. split; [exact Hr|]. split; [lia|].
    split; [exact Hi|]. split; [exact Hd|]. intros j Hj. apply Hall. lia.
Qed.

(** ** Building the controller table from the device tree *)

Lemma agree_refl {A} (o : outcome A) : agree o o.
Proof. repeat split. Qed.

Lemma agree_trans {A} (o1 o2 o3 : outcome A) :
  agree o1 o2 -> agree o2 o3 -> agree o1 o3.
Proof.
  intros (Hv & Hf & He) (Hv' & Hf' & He'). repeat split; congruence.
Qed.

Lemma agree_deref {A} (p : nat) (k : i2c_bus -> M A) (s : state) :
  agree (bind (deref_bus p) k s) (k (nth p (i2c_controllers s) zero_bus) s).
Proof. repeat split. Qed.

Lemma agree_set {A} (p : nat) (b : i2c_bus) (k : M A) (s : state) :
  agree (bind (set_bus p b) (fun _ => k) s)
        (k (with_controllers s (update_nth p b (i2c_controllers s)))).
Proof. repeat split. Qed.

Lemma agree_get_config {A} (bh : board_h) (blob : fdt_blob) (node : Z)
    (p : nat) (k : Z -> M A) (s : state) :
  (p < length (i2c_controllers s))%nat ->
  let cfg :=
    with_config (nth p (i2c_controllers s) zero_bus) (fdt_reg blob node)
      (FUNCMUX_DEFAULT bh) (to_int (fdt_clock_frequency blob node))
      (to_int (fdt_periph_id blob node)) in
  agree (bind (i2c_get_config bh blob node p) k s)
        (k (if periph_id cfg =? -1 then neg_int (FDT_ERR_NOTFOUND bh) else 0)
           (with_controllers s (update_nth p cfg (i2c_controllers s)))).
Proof.
  intros Hp cfg.
  assert (Hn : nth p (update_nth p cfg (i2c_controllers s)) zero_bus = cfg)
    by (apply nth_update_nth_eq; assumption).
  unfold agree, i2c_get_config, bind, deref_bus, set_bus.
  cbn [ret value final events app i2c_controllers with_controllers].
  fold cfg. rewrite !Hn.
  destruct (periph_id cfg =? -1); repeat split.
Qed.

Lemma agree_init {A} (b : i2c_bus) (k : M A) (s : state) :
  agree (bind (i2c_init_controller b) (fun _ => k) s)
        (let o1 := i2c_init_controller b s in
         let o2 := k (final o1) in
         {| value := value o2; final := final o2;
            events := events o1 ++ events o2 |}).
Proof. repeat split. Qed.

Lemma process_nodes_loop_skip (bh : board_h) (blob : fdt_blob)
    (dvc scs : Z) (nl : list Z) (i n : nat) (s : state) :
  nth i nl 0 <= 0 ->
  process_nodes_loop bh blob dvc scs nl i (S n) s =
  process_nodes_loop bh blob dvc scs nl (S i) n s.
Proof.
  intros Hn. cbn [process_nodes_loop]. cbv zeta.
  destruct (Z.leb_spec (nth i nl 0) 0); [reflexivity | lia].
Qed.

Lemma process_nodes_loop_round (bh : board_h) (blob : fdt_blob)
    (dvc scs : Z) (nl : list Z) (i n : nat) (s : state) :
  let node := nth i nl 0 in
  let t := i2c_controllers s in
  let full := configured_bus bh blob dvc scs i node in
  let pre := with_inited full (inited (nth i t zero_bus)) in
  0 < node ->
  (i < length t)%nat ->
  let o := process_nodes_loop bh blob dvc scs nl i (S n) s in
  if truthy (if periph_id full =? -1 then neg_int (FDT_ERR_NOTFOUND bh)
             else 0)
  then
    value o = {| nodes_rc := -1; nodes_list := nl;
                 nodes_console := [Z.of_nat i] |} /\
    mem (final o) = mem s /\
    events o = [] /\
    length (i2c_controllers (final o)) = length t /\
    inited (nth i (i2c_controllers (final o)) zero_bus)
    = inited (nth i t zero_bus) /\
    forall k, k <> i ->
      nth k (i2c_controllers (final o)) zero_bus = nth k t zero_bus
  else
    let o1 := i2c_init_controller pre s in
    let s2 := with_controllers (final o1) (update_nth i full t) in
    let o2 :=
      process_nodes_loop bh blob dvc scs (update_nth i (-1) nl) (S i) n s2 in
    value o = value o2 /\ final o = final o2 /\
    events o = events o1 ++ events o2.
Proof.
  intros node t full pre Hnode Hi o.
  set (b0 := nth i t zero_bus) in *.
  set (cfg := with_config (with_id b0 (Z.of_nat i)) (fdt_reg blob node)
                (FUNCMUX_DEFAULT bh) (to_int (fdt_clock_frequency blob node))
                (to_int (fdt_periph_id blob node))).
  set (s1 := with_controllers s (update_nth i (with_id b0 (Z.of_nat i)) t)).
  set (s2 := with_controllers s (update_nth i cfg t)).
  set (rc := if periph_id full =? -1 then neg_int (FDT_ERR_NOTFOUND bh)
             else 0).
  assert (H1 : agree o
    ((if truthy rc then
        ret {| nodes_rc := -1; nodes_list := nl;
               nodes_console := [Z.of_nat i] |}
      else
        b <- deref_bus i ;;
        set_bus i
          (with_kind b scs dvc
             (if truthy dvc then regs b + DVC_CTLR_CONTROL_OFFSET bh
              else regs b + I2C_CTLR_CONTROL_OFFSET bh)) ;;
        b <- deref_bus i ;;
        i2c_init_controller b ;;
        b <- deref_bus i ;;
        set_bus i (with_inited b 1) ;;
        process_nodes_loop bh blob dvc scs
          (update_nth i (-1) nl) (S i) n) s2)).
  { unfold o. cbn [process_nodes_loop]. cbv zeta. fold node.
    destruct (Z.leb_spec node 0); [lia|].
    eapply agree_trans; [apply agree_deref|]. cbv beta. fold t b0.
    eapply agree_trans; [apply agree_set|]. fold t s1.
    eapply agree_trans; [apply agree_get_config|].
    - unfold s1. cbn [i2c_controllers with_controllers].
      rewrite update_nth_length. assumption.
    - cbv zeta. unfold s1. cbn [i2c_controllers with_controllers].
      rewrite update_nth_twice, nth_update_nth_eq by assumption.
      fold cfg. apply agree_refl. }
  destruct (truthy rc).
  - destruct H1 as (Hv & Hf & He). rewrite Hv, Hf, He.
    cbn [ret value final events s2 mem i2c_controllers with_controllers].
    split; [reflexivity|]. split; [reflexivity|]. split; [reflexivity|].
    split; [apply update_nth_length|].
    split; [rewrite nth_update_nth_eq by assumption; reflexivity|].
    intros k Hk. apply nth_update_nth_neq. congruence.
  - cbv zeta.
    set (o1 := i2c_init_controller pre s).
    set (s3 := with_controllers s (update_nth i pre t)).
    assert (H2 : agree o
      (let o1' := i2c_init_controller pre s3 in
       let o2' :=
         process_nodes_loop bh blob dvc scs (update_nth i (-1) nl) (S i) n
           (with_controllers (final o1')
              (update_nth i full (i2c_controllers (final o1')))) in
       {| value := value o2'; final := final o2';
          events := events o1' ++ events o2' |})).
    { eapply agree_trans; [exact H1|].
      eapply agree_trans; [apply agree_deref|]. cbv beta.
      eapply agree_trans; [apply agree_set|].
      eapply agree_trans; [apply agree_deref|]. cbv beta.
      unfold s2. cbn [i2c_controllers with_controllers].
      rewrite update_nth_twice.
      rewrite !nth_update_nth_eq
        by (rewrite ?update_nth_length; assumption).
      change (with_kind cfg scs dvc
                (if truthy dvc then regs cfg + DVC_CTLR_CONTROL_OFFSET bh
                 else regs cfg + I2C_CTLR_CONTROL_OFFSET bh)) with pre.
      fold s3.
      change (with_controllers (with_controllers s (update_nth i cfg t))
                (update_nth i pre t)) with s3.
      eapply agree_trans; [apply agree_init|]. cbv zeta.
      destruct (i2c_init_controller_table pre s (update_nth i pre t))
        as (_ & Hf).
      cbv zeta in Hf. fold s3 in Hf.
      assert (Hn : nth i (i2c_controllers (final (i2c_init_controller pre s3)))
                     zero_bus = pre).
      { rewrite Hf. cbn [i2c_controllers with_controllers].
        apply nth_update_nth_eq. assumption. }
      unfold agree, bind, deref_bus, set_bus.
      cbn [ret value final events app]. rewrite !Hn.
      change (with_inited pre 1) with full.
      repeat split. }
    destruct H2 as (Hv & Hf & He). rewrite Hv, Hf, He.
    cbv zeta. cbn [value final events].
    destruct (i2c_init_controller_table pre s (update_nth i pre t))
      as (He1 & Hf1).
    cbv zeta in He1, Hf1. fold s3 o1 in He1, Hf1.
    rewrite He1, Hf1. cbn [i2c_controllers with_controllers].
    rewrite update_nth_twice.
    repeat split.
Qed.

Lemma nth_pos_lt (nl : list Z) (i : nat) :
  0 < nth i nl 0 -> (i < length nl)%nat.
Proof.
  intros Hn. destruct (Nat.lt_ge_cases i (length nl)) as [Hl|Hl];
    [exact Hl|].
  rewrite nth_overflow in Hn by assumption. lia.
Qed.

Lemma process_nodes_loop_inv (bh : board_h) (blob : fdt_blob)
    (dvc scs : Z) :
  neg_int (FDT_ERR_NOTFOUND bh) <> 0 ->
  forall n i nl s,
    (i + n <= length (i2c_controllers s))%nat ->
    let o := process_nodes_loop bh blob dvc scs nl i n s in
    let t := i2c_controllers s in
    let t' := i2c_controllers (final o) in
    let nl' := nodes_list (value o) in
    (mem (final o) = mem s /\ length t' = length t /\
     length nl' = length nl) /\
    (forall c, tx_words c (events o) = [] /\ rx_words c (events o) = [] /\
               delay_total (events o) = 0) /\
    (forall k, (k < i \/ i + n <= k)%nat ->
       nth k t' zero_bus = nth k t zero_bus /\ nth k nl' 0 = nth k nl 0) /\
    ((nodes_rc (value o) = 0 /\ nodes_console (value o) = [] /\
      forall k, (i <= k < i + n)%nat ->
        node_processed bh blob dvc scs t t' nl nl' k)
     \/
     (nodes_rc (value o) = -1 /\
      exists f,
        nodes_console (value o) = [Z.of_nat f] /\
        (i <= f < i + n)%nat /\
        0 < nth f nl 0 /\
        to_int (fdt_periph_id blob (nth f nl 0)) = -1 /\
        inited (nth f t' zero_bus) = inited (nth f t zero_bus) /\
        nth f nl' 0 = nth f nl 0 /\
        (forall k, (i <= k < f)%nat ->
           node_processed bh blob dvc scs t t' nl nl' k) /\
        (forall k, (f < k)%nat ->
           nth k t' zero_bus = nth k t zero_bus /\
           nth k nl' 0 = nth k nl 0))).
Proof.
  intros Herr. induction n as [|n IH]; intros i nl s Hlen; cbv zeta.
  - cbn [process_nodes_loop ret value final events nodes_list nodes_rc
         nodes_console].
    split; [repeat split|]. split; [intros c; repeat split|].
    split; [intros k _; split; reflexivity|].
    left. split; [reflexivity|]. split; [reflexivity|]. intros k Hk. lia.
  - destruct (Z.leb_spec (nth i nl 0) 0) as [Hle|Hgt].
    + rewrite process_nodes_loop_skip by assumption.
      destruct (IH (S i) nl s ltac:(lia)) as (Hfr & Hq & Hout & Hres).
      cbv zeta in Hfr, Hq, Hout, Hres.
      set (o := process_nodes_loop bh blob dvc scs nl (S i) n s) in *.
      split; [exact Hfr|]. split; [exact Hq|].
      split; [intros k Hk; apply Hout; lia|].
      assert (Hdone : node_processed bh blob dvc scs (i2c_controllers s)
                        (i2c_controllers (final o)) nl
                        (nodes_list (value o)) i).
      { left. destruct (Hout i ltac:(lia)) as (Ha & Hb).
        split; [exact Hle|]. split; assumption. }
      destruct Hres as [(Hrc & Hcon & Hall)
        | (Hrc & f & Hcon & Hf & Hnode & Hpid & Hin & Hnl & Hbef & Haft)].
      * left. split; [exact Hrc|]. split; [exact Hcon|]. intros k Hk.
        destruct (Nat.eq_dec k i) as [->|Hne]; [exact Hdone|].
        apply Hall. lia.
      * right. split; [exact Hrc|]. exists f.
        split; [exact Hcon|]. split; [lia|]. split; [exact Hnode|].
        split; [exact Hpid|]. split; [exact Hin|]. split; [exact Hnl|].
        split; [|exact Haft]. intros k Hk.
        destruct (Nat.eq_dec k i) as [->|Hne]; [exact Hdone|].
        apply Hbef. lia.
    + pose proof (process_nodes_loop_round bh blob dvc scs nl i n s Hgt
                    ltac:(lia)) as Hr.
      cbv zeta in Hr.
      set (node := nth i nl 0) in *.
      set (t := i2c_controllers s) in *.
      set (full := configured_bus bh blob dvc scs i node) in *.
      assert (Hrc : truthy (if periph_id full =? -1
                            then neg_int (FDT_ERR_NOTFOUND bh) else 0)
                    = (periph_id full =? -1)).
      { destruct (periph_id full =? -1); [|reflexivity]. unfold truthy.
        destruct (Z.eqb_spec (neg_int (FDT_ERR_NOTFOUND bh)) 0);
          [contradiction | reflexivity]. }
      rewrite Hrc in Hr.
      pose proof (nth_pos_lt nl i Hgt) as Hinl.
      destruct (Z.eqb_spec (periph_id full) (-1)) as [Hp|Hp].
      * (* the clock of this node cannot be decoded *)
        destruct Hr as (Hv & Hm & He & Hl & Hin & Hoth).
        rewrite Hv, He.
        cbn [nodes_list nodes_rc nodes_console].
        split; [split; [exact Hm | split; [exact Hl | reflexivity]]|].
        split; [intros c; repeat split|].
        split; [intros k Hk; split; [apply Hoth; lia | reflexivity]|].
        right. split; [reflexivity|]. exists i.
        split; [reflexivity|]. split; [lia|]. split; [exact Hgt|].
        split; [exact Hp|]. split; [exact Hin|]. split; [reflexivity|].
        split; [intros k Hk; lia|].
        intros k Hk. split; [apply Hoth; lia | reflexivity].
      * (* the entry is configured and the controller initialized *)
        destruct Hr as (Hv & Hf & He). rewrite Hv, Hf, He. clear Hv Hf He.
        set (pre := with_inited full (inited (nth i t zero_bus))) in *.
        destruct (i2c_init_controller_spec pre s) as (Hm1 & _).
        cbv zeta in Hm1.
        set (o1 := i2c_init_controller pre s) in *.
        set (s2 := with_controllers (final o1) (update_nth i full t)).
        set (nl2 := update_nth i (-1) nl).
        assert (Hlen2 : (S i + n <= length (i2c_controllers s2))%nat).
        { unfold s2. cbn [i2c_controllers with_controllers].
          rewrite update_nth_length. fold t in Hlen. lia. }
        destruct (IH (S i) nl2 s2 Hlen2) as (Hfr & Hq & Hout & Hres).
        cbv zeta in Hfr, Hq, Hout, Hres.
        set (o2 := process_nodes_loop bh blob dvc scs nl2 (S i) n s2) in *.
        unfold s2 in Hfr, Hout, Hres.
        cbn [i2c_controllers with_controllers mem] in Hfr, Hout, Hres.
        fold s2 in Hfr, Hout, Hres.
        destruct Hfr as (Hm2 & Hl2 & Hnl2).
        assert (Hti : forall k, k <> i ->
                  nth k (update_nth i full t) zero_bus = nth k t zero_bus).
        { intros k Hk. apply nth_update_nth_neq. congruence. }
        assert (Hni : forall k, k <> i -> nth k nl2 0 = nth k nl 0).
        { intros k Hk. apply nth_update_nth_neq. congruence. }
        assert (Hdone : node_processed bh blob dvc scs t
                          (i2c_controllers (final o2)) nl
                          (nodes_list (value o2)) i).
        { right. destruct (Hout i ltac:(lia)) as (Ha & Hb).
          split; [exact Hgt|]. split; [exact Hp|].
          split.
          - rewrite Ha. apply nth_update_nth_eq. fold t in Hlen. lia.
          - rewrite Hb. apply nth_update_nth_eq. exact Hinl. }
        assert (Hconv : forall k, k <> i ->
                  node_processed bh blob dvc scs (update_nth i full t)
                    (i2c_controllers (final o2)) nl2
                    (nodes_list (value o2)) k ->
                  node_processed bh blob dvc scs t
                    (i2c_controllers (final o2)) nl
                    (nodes_list (value o2)) k).
        { intros k Hk. unfold node_processed. cbv zeta.
          rewrite (Hti k Hk), (Hni k Hk). auto. }
        split.
        { split; [rewrite Hm2; exact Hm1|].
          split; [rewrite Hl2; apply update_nth_length|].
          rewrite Hnl2. apply update_nth_length. }
        split.
        { intros c. destruct (Hq c) as (Ha & Hb & Hc).
          destruct (i2c_init_controller_quiet c pre s) as (Ha1 & Hb1 & Hc1).
          cbv zeta in Ha1, Hb1, Hc1. fold o1 in Ha1, Hb1, Hc1.
          rewrite tx_words_app, rx_words_app, delay_total_app.
          rewrite Ha, Hb, Hc, Ha1, Hb1, Hc1. repeat split. }
        split.
        { intros k Hk. destruct (Hout k ltac:(lia)) as (Ha & Hb).
          rewrite Ha, Hb. split; [apply Hti | apply Hni]; lia. }
        destruct Hres as [(Hrc2 & Hcon & Hall)
          | (Hrc2 & f & Hcon & Hf & Hnode & Hpid & Hin & Hnl & Hbef & Haft)].
        -- left. split; [exact Hrc2|]. split; [exact Hcon|]. intros k Hk.
           destruct (Nat.eq_dec k i) as [->|Hne]; [exact Hdone|].
           apply Hconv; [exact Hne|]. apply Hall. lia.
        -- right. split; [exact Hrc2|]. exists f.
           rewrite (Hni f) in Hnode, Hpid, Hnl by lia.
           rewrite (Hti f) in Hin by lia.
           split; [exact Hcon|]. split; [lia|]. split; [exact Hnode|].
           split; [exact Hpid|]. split; [exact Hin|]. split; [exact Hnl|].
           split.
           ++ intros k Hk.
              destruct (Nat.eq_dec k i) as [->|Hne]; [exact Hdone|].
              apply Hconv; [exact Hne|]. apply Hbef. lia.
           ++ intros k Hk. destruct (Haft k Hk) as (Ha & Hb).
              rewrite Ha, Hb. split; [apply Hti | apply Hni]; lia.
Qed.

(** X14.  [i2c_get_config] overwrites the register base, the pin-mux
    configuration, the speed and the peripheral id of the entry it is given,
    whether or not it succeeds, and keeps the entry's other fields and all
    other entries.  It fails, with [-FDT_ERR_NOTFOUND], exactly when the
    peripheral id decoded from the device tree is -1; it causes no event. *)
Theorem i2c_get_config_effects (bh : board_h) (blob : fdt_blob) (node : Z)
    (p : nat) (s : state) :
  (p < length (i2c_controllers s))%nat ->
  let o := i2c_get_config bh blob node p s in
  let b := nth p (i2c_controllers s) zero_bus in
  let b' := nth p (i2c_controllers (final o)) zero_bus in
  value o = (if to_int (fdt_periph_id blob node) =? -1
             then neg_int (FDT_ERR_NOTFOUND bh) else 0) /\
  events o = [] /\ mem (final o) = mem s /\ hw (final o) = hw s /\
  b' = with_config b (fdt_reg blob node) (FUNCMUX_DEFAULT bh)
         (to_int (fdt_clock_frequency blob node))
         (to_int (fdt_periph_id blob node)) /\
  (id b' = id b /\ control b' = control b /\ is_dvc b' = is_dvc b /\
   is_scs b' = is_scs b /\ inited b' = inited b) /\
  length (i2c_controllers (final o)) = length (i2c_controllers s) /\
  forall q, q <> p ->
    nth q (i2c_controllers (final o)) zero_bus
    = nth q (i2c_controllers s) zero_bus.
Proof.
  intros Hp o b b'.
  set (cfg := with_config b (fdt_reg blob node) (FUNCMUX_DEFAULT bh)
                (to_int (fdt_clock_frequency blob node))
                (to_int (fdt_periph_id blob node))).
  destruct (agree_get_config bh blob node p (fun rc => ret rc) s Hp)
    as (Hv & Hf & He).
  cbv zeta in Hv, Hf, He. fold b cfg in Hv, Hf, He.
  cbn [ret value final events] in Hv, Hf, He.
  assert (Ho : value o = (if periph_id cfg =? -1
                          then neg_int (FDT_ERR_NOTFOUND bh) else 0) /\
               final o = with_controllers s
                           (update_nth p cfg (i2c_controllers s)) /\
               events o = []).
  { unfold bind in Hv, Hf, He. cbn [ret value final events] in Hv, Hf, He.
    rewrite app_nil_r in He. repeat split; assumption. }
  destruct Ho as (Hv' & Hf' & He').
  assert (Hb' : b' = cfg).
  { unfold b'. rewrite Hf'. cbn [i2c_controllers with_controllers].
    apply nth_update_nth_eq. assumption. }
  split; [exact Hv'|]. split; [exact He'|].
  split; [rewrite Hf'; reflexivity|]. split; [rewrite Hf'; reflexivity|].
  split; [exact Hb'|].
  split; [rewrite Hb'; repeat split|].
  rewrite Hf'. cbn [i2c_controllers with_controllers].
  split; [apply update_nth_length|].
  intros q Hq. apply nth_update_nth_neq. congruence.
Qed.

Lemma process_nodes_unchanged (bh : board_h) (blob : fdt_blob)
    (nl : list Z) (count dvc scs : Z) (s : state) :
  neg_int (FDT_ERR_NOTFOUND bh) <> 0 ->
  (Z.to_nat count <= length (i2c_controllers s))%nat ->
  let o := process_nodes bh blob nl count dvc scs s in
  let t := i2c_controllers s in
  let t' := i2c_controllers (final o) in
  let nl' := nodes_list (value o) in
  mem (final o) = mem s /\ length t' = length t /\ length nl' = length nl /\
  (forall c, tx_words c (events o) = [] /\ rx_words c (events o) = [] /\
             delay_total (events o) = 0) /\
  (forall k, (Z.to_nat count <= k)%nat ->
     nth k t' zero_bus = nth k t zero_bus /\ nth k nl' 0 = nth k nl 0) /\
  (forall k,
     (inited (nth k t' zero_bus) = inited (nth k t zero_bus) \/
      inited (nth k t' zero_bus) = 1) /\
     (nth k nl' 0 = nth k nl 0 \/ nth k nl' 0 = -1)).
Proof.
  intros Herr Hlen. unfold process_nodes. cbv zeta.
  destruct (process_nodes_loop_inv bh blob dvc scs Herr (Z.to_nat count) 0
              nl s Hlen) as ((Hm & Hl & Hnl) & Hq & Hout & Hres).
  cbv zeta in Hm, Hl, Hnl, Hq, Hout, Hres.
  set (o := process_nodes_loop bh blob dvc scs nl 0 (Z.to_nat count) s) in *.
  split; [exact Hm|]. split; [exact Hl|]. split; [exact Hnl|].
  split; [exact Hq|].
  split; [intros k Hk; apply Hout; lia|].
  assert (Hproc : forall k,
            node_processed bh blob dvc scs (i2c_controllers s)
              (i2c_controllers (final o)) nl (nodes_list (value o)) k ->
            (inited (nth k (i2c_controllers (final o)) zero_bus)
             = inited (nth k (i2c_controllers s) zero_bus) \/
             inited (nth k (i2c_controllers (final o)) zero_bus) = 1) /\
            (nth k (nodes_list (value o)) 0 = nth k nl 0 \/
             nth k (nodes_list (value o)) 0 = -1)).
  { intros k [(_ & Ha & Hb) | (_ & _ & Ha & Hb)].
    - rewrite Ha, Hb. split; left; reflexivity.
    - rewrite Ha, Hb. split; right; reflexivity. }
  assert (Hsame : forall k,
            nth k (i2c_controllers (final o)) zero_bus
            = nth k (i2c_controllers s) zero_bus /\
            nth k (nodes_list (value o)) 0 = nth k nl 0 ->
            (inited (nth k (i2c_controllers (final o)) zero_bus)
             = inited (nth k (i2c_controllers s) zero_bus) \/
             inited (nth k (i2c_controllers (final o)) zero_bus) = 1) /\
            (nth k (nodes_list (value o)) 0 = nth k nl 0 \/
             nth k (nodes_list (value o)) 0 = -1)).
  { intros k (Ha & Hb). rewrite Ha, Hb. split; left; reflexivity. }
  intros k.
  destruct Hres as [(_ & _ & Hall)
    | (_ & f & _ & Hf & _ & _ & Hin & Hnlf & Hbef & Haft)].
  - destruct (Nat.lt_ge_cases k (Z.to_nat count)) as [Hk|Hk].
    + apply Hproc, Hall. lia.
    + apply Hsame, Hout. lia.
  - destruct (Nat.lt_trichotomy k f) as [Hk|[->|Hk]].
    + apply Hproc, Hbef. lia.
    + rewrite Hin, Hnlf. split; left; reflexivity.
    + apply Hsame, Haft. exact Hk.
Qed.

(** X15.  What [process_nodes] leaves alone: memory, the length of the
    table and of the node list, and every table entry and node-list
    position from [count] on.  It accesses no FIFO register and never
    waits.  An initialized flag is either kept or set to 1, and a node-list
    position is either kept or set to -1. *)
Theorem process_nodes_frame (bh : board_h) (blob : fdt_blob)
    (nl : list Z) (count dvc scs : Z) (s : state) :
  neg_int (FDT_ERR_NOTFOUND bh) <> 0 ->
  (Z.to_nat count <= length (i2c_controllers s))%nat ->
  let o := process_nodes bh blob nl count dvc scs s in
  let t := i2c_controllers s in
  let t' := i2c_controllers (final o) in
  let nl' := nodes_list (value o) in
  mem (final o) = mem s /\ length t' = length t /\ length nl' = length nl /\
  (forall c, tx_words c (events o) = [] /\ rx_words c (events o) = [] /\
             delay_total (events o) = 0) /\
  (forall k, (Z.to_nat count <= k)%nat ->
     nth k t' zero_bus = nth k t zero_bus /\ nth k nl' 0 = nth k nl 0) /\
  (forall k,
     (inited (nth k t' zero_bus) = inited (nth k t zero_bus) \/
      inited (nth k t' zero_bus) = 1) /\
     (nth k nl' 0 = nth k nl 0 \/ nth k nl' 0 = -1)).
Proof. exact (process_nodes_unchanged bh blob nl count dvc scs s). Qed.

Lemma process_nodes_outcome (bh : board_h) (blob : fdt_blob)
    (nl : list Z) (count dvc scs : Z) (s : state) :
  neg_int (FDT_ERR_NOTFOUND bh) <> 0 ->
  (Z.to_nat count <= length (i2c_controllers s))%nat ->
  let o := process_nodes bh blob nl count dvc scs s in
  let t := i2c_controllers s in
  let t' := i2c_controllers (final o) in
  let nl' := nodes_list (value o) in
  (nodes_rc (value o) = 0 /\ nodes_console (value o) = [] /\
   forall k, (k < Z.to_nat count)%nat ->
     node_processed bh blob dvc scs t t' nl nl' k)
  \/
  (nodes_rc (value o) = -1 /\
   exists f,
     nodes_console (value o) = [Z.of_nat f] /\
     (f < Z.to_nat count)%nat /\
     0 < nth f nl 0 /\
     to_int (fdt_periph_id blob (nth f nl 0)) = -1 /\
     inited (nth f t' zero_bus) = inited (nth f t zero_bus) /\
     nth f nl' 0 = nth f nl 0 /\
     (forall k, (k < f)%nat ->
        node_processed bh blob dvc scs t t' nl nl' k) /\
     (forall k, (f < k)%nat ->
        nth k t' zero_bus = nth k t zero_bus /\ nth k nl' 0 = nth k nl 0)).
Proof.
  intros Herr Hlen. unfold process_nodes. cbv zeta.
  destruct (process_nodes_loop_inv bh blob dvc scs Herr (Z.to_nat count) 0
              nl s Hlen) as (_ & _ & _ & Hres).
  cbv zeta in Hres.
  destruct Hres as [(Hrc & Hcon & Hall)
    | (Hrc & f & Hcon & Hf & Hnode & Hpid & Hin & Hnlf & Hbef & Haft)].
  - left. split; [exact Hrc|]. split; [exact Hcon|].
    intros k Hk. apply Hall. lia.
  - right. split; [exact Hrc|]. exists f.
    split; [exact Hcon|]. split; [lia|]. split; [exact Hnode|].
    split; [exact Hpid|]. split; [exact Hin|]. split; [exact Hnlf|].
    split; [intros k Hk; apply Hbef; lia | exact Haft].
Qed.

(** X16.  The result of [process_nodes].  Either it returns 0, prints
    nothing, and has dealt with every position below [count]: a node that is
    not positive is skipped, and any other leaves the table entry decoded
    from the device tree, marked initialized, and its node-list position set
    to -1.  Or it returns -1 and prints the number [f] of the first bus whose
    peripheral id cannot be decoded: the positions before [f] are dealt with
    as above, the entry [f] is not marked initialized by this call and its
    node stays in the list, and the positions after [f] are untouched. *)
Theorem process_nodes_result (bh : board_h) (blob : fdt_blob)
    (nl : list Z) (count dvc scs : Z) (s : state) :
  neg_int (FDT_ERR_NOTFOUND bh) <> 0 ->
  (Z.to_nat count <= length (i2c_controllers s))%nat ->
  let o := process_nodes bh blob nl count dvc scs s in
  let t := i2c_controllers s in
  let t' := i2c_controllers (final o) in
  let nl' := nodes_list (value o) in
  (nodes_rc (value o) = 0 /\ nodes_console (value o) = [] /\
   forall k, (k < Z.to_nat count)%nat ->
     node_processed bh blob dvc scs t t' nl nl' k)
  \/
  (nodes_rc (value o) = -1 /\
   exists f,
     nodes_console (value o) = [Z.of_nat f] /\
     (f < Z.to_nat count)%nat /\
     0 < nth f nl 0 /\
     to_int (fdt_periph_id blob (nth f nl 0)) = -1 /\
     inited (nth f t' zero_bus) = inited (nth f t zero_bus) /\
     nth f nl' 0 = nth f nl 0 /\
     (forall k, (k < f)%nat ->
        node_processed bh blob dvc scs t t' nl nl' k) /\
     (forall k, (f < k)%nat ->
        nth k t' zero_bus = nth k t zero_bus /\ nth k nl' 0 = nth k nl 0)).
Proof. exact (process_nodes_outcome bh blob nl count dvc scs s). Qed.

(** ** Bringing up the board *)

Lemma table_grown_refl (t : list i2c_bus) : table_grown t t.
Proof. split; [reflexivity|]. intros k. left. reflexivity. Qed.

Lemma table_grown_trans (t1 t2 t3 : list i2c_bus) :
  table_grown t1 t2 -> table_grown t2 t3 -> table_grown t1 t3.
Proof.
  intros (Hl & Hi) (Hl' & Hi'). split; [congruence|].
  intros k. destruct (Hi k) as [E|E], (Hi' k) as [E'|E'];
    rewrite ?E', ?E; auto.
Qed.

Lemma process_nodes_summary (bh : board_h) (blob : fdt_blob)
    (nl : list Z) (count dvc scs : Z) (s : state) :
  neg_int (FDT_ERR_NOTFOUND bh) <> 0 ->
  (Z.to_nat count <= length (i2c_controllers s))%nat ->
  let o := process_nodes bh blob nl count dvc scs s in
  mem (final o) = mem s /\
  table_grown (i2c_controllers s) (i2c_controllers (final o)) /\
  (forall c, tx_words c (events o) = [] /\ rx_words c (events o) = [] /\
             delay_total (events o) = 0) /\
  (truthy (nodes_rc (value o)) = false /\ nodes_console (value o) = [] \/
   truthy (nodes_rc (value o)) = true /\
   exists f, nodes_console (value o) = [Z.of_nat f]).
Proof.
  intros Herr Hlen. cbv zeta.
  destruct (process_nodes_unchanged bh blob nl count dvc scs s Herr Hlen)
    as (Hm & Hl & _ & Hq & _ & Hk).
  destruct (process_nodes_outcome bh blob nl count dvc scs s Herr Hlen)
    as [(Hrc & Hcon & _) | (Hrc & f & Hcon & _)].
  - split; [exact Hm|]. split; [split; [exact Hl | apply Hk]|].
    split; [exact Hq|]. left. rewrite Hrc. split; [reflexivity | exact Hcon].
  - split; [exact Hm|]. split; [split; [exact Hl | apply Hk]|].
    split; [exact Hq|]. right. rewrite Hrc. split; [reflexivity|].
    exists f. exact Hcon.
Qed.

Lemma bind_run {A B} (m : M A) (k : A -> M B) (s : state) :
  value (bind m k s) = value (k (value (m s)) (final (m s))) /\
  final (bind m k s) = final (k (value (m s)) (final (m s))) /\
  events (bind m k s) = events (m s) ++ events (k (value (m s)) (final (m s))).
Proof. repeat split. Qed.

(** X17.  [i2c_init_board] runs [process_nodes] up to three times (the
    Tegra114 ports, the Tegra20 ports, the DVC ports) and stops at the first
    pass that fails.  Whatever the device tree holds, it leaves memory
    alone, adds or removes no table entry, keeps every initialized flag or
    sets it to 1, accesses no FIFO register, never waits, and prints at most
    one bus number. *)
Theorem i2c_init_board_frame (bh : board_h) (blob : fdt_blob)
    (al : fdt_aliases) (nl0 : list Z) (s : state) :
  neg_int (FDT_ERR_NOTFOUND bh) <> 0 ->
  (forall c nl,
     (Z.to_nat (fst (fdtdec_find_aliases_for_id al c nl))
      <= length (i2c_controllers s))%nat) ->
  (forall c nl,
     (Z.to_nat (fst (fdtdec_add_aliases_for_id al c nl))
      <= length (i2c_controllers s))%nat) ->
  let o := i2c_init_board bh blob al nl0 s in
  mem (final o) = mem s /\
  table_grown (i2c_controllers s) (i2c_controllers (final o)) /\
  (forall c, tx_words c (events o) = [] /\ rx_words c (events o) = [] /\
             delay_total (events o) = 0) /\
  (length (value o) <= 1)%nat.
Proof.
  intros Herr Hfind Hadd. cbv zeta. unfold i2c_init_board. cbv zeta.
  set (f1 := fdtdec_find_aliases_for_id al COMPAT_NVIDIA_TEGRA114_I2C nl0).
  destruct (process_nodes_summary bh blob (snd f1) (fst f1) 0 1 s Herr
              (Hfind _ _)) as (Hm1 & Hg1 & Hq1 & Hr1).
  cbv zeta in Hm1, Hg1, Hq1, Hr1.
  lazymatch goal with
  | |- context [bind ?m ?k s] =>
    destruct (bind_run m k s) as (Hv & Hf & He)
  end.
  rewrite Hv, Hf, He. clear Hv Hf He. cbv beta.
  set (o1 := process_nodes bh blob (snd f1) (fst f1) 0 1 s) in *.
  destruct Hr1 as [(Hrc1 & Hcon1) | (Hrc1 & f & Hcon1)]; rewrite Hrc1.
  2: { cbn [ret value final events]. rewrite app_nil_r, Hcon1.
       split; [exact Hm1|]. split; [exact Hg1|]. split; [exact Hq1|].
       cbn. lia. }
  set (f2 := fdtdec_find_aliases_for_id al COMPAT_NVIDIA_TEGRA20_I2C
               (nodes_list (value o1))).
  assert (Hlen1 : length (i2c_controllers (final o1))
                  = length (i2c_controllers s)) by apply Hg1.
  destruct (process_nodes_summary bh blob (snd f2) (fst f2) 0 0 (final o1)
              Herr ltac:(rewrite Hlen1; apply Hfind))
    as (Hm2 & Hg2 & Hq2 & Hr2).
  cbv zeta in Hm2, Hg2, Hq2, Hr2.
  lazymatch goal with
  | |- context [bind ?m ?k (final o1)] =>
    destruct (bind_run m k (final o1)) as (Hv & Hf & He)
  end.
  rewrite Hv, Hf, He. clear Hv Hf He. cbv beta.
  set (o2 := process_nodes bh blob (snd f2) (fst f2) 0 0 (final o1)) in *.
  assert (Hq12 : forall c,
            tx_words c (events o1 ++ events o2) = [] /\
            rx_words c (events o1 ++ events o2) = [] /\
            delay_total (events o1 ++ events o2) = 0).
  { intros c. destruct (Hq1 c) as (Ha & Hb & Hc).
    destruct (Hq2 c) as (Ha' & Hb' & Hc').
    rewrite tx_words_app, rx_words_app, delay_total_app.
    rewrite Ha, Hb, Hc, Ha', Hb', Hc'. repeat split. }
  destruct Hr2 as [(Hrc2 & Hcon2) | (Hrc2 & f & Hcon2)]; rewrite Hrc2.
  2: { cbn [ret value final events]. rewrite app_nil_r, Hcon1, Hcon2.
       split; [rewrite Hm2; exact Hm1|].
       split; [exact (table_grown_trans _ _ _ Hg1 Hg2)|].
       split; [exact Hq12|]. cbn. lia. }
  set (f3 := fdtdec_add_aliases_for_id al COMPAT_NVIDIA_TEGRA20_DVC
               (nodes_list (value o2))).
  assert (Hlen2 : length (i2c_controllers (final o2))
                  = length (i2c_controllers s))
    by (rewrite <- Hlen1; apply Hg2).
  destruct (process_nodes_summary bh blob (snd f3) (fst f3) 1 0 (final o2)
              Herr ltac:(rewrite Hlen2; apply Hadd))
    as (Hm3 & Hg3 & Hq3 & Hr3).
  cbv zeta in Hm3, Hg3, Hq3, Hr3.
  lazymatch goal with
  | |- context [bind ?m ?k (final o2)] =>
    destruct (bind_run m k (final o2)) as (Hv & Hf & He)
  end.
  rewrite Hv, Hf, He. clear Hv Hf He. cbv beta.
  set (o3 := process_nodes bh blob (snd f3) (fst f3) 1 0 (final o2)) in *.
  cbn [ret value final events].
  rewrite app_nil_r, Hcon1, Hcon2.
  split; [rewrite Hm3, Hm2; exact Hm1|].
  split; [exact (table_grown_trans _ _ _
                   (table_grown_trans _ _ _ Hg1 Hg2) Hg3)|].
  split.
  - intros c. destruct (Hq1 c) as (A1 & B1 & C1).
    destruct (Hq2 c) as (A2 & B2 & C2). destruct (Hq3 c) as (A3 & B3 & C3).
    rewrite !tx_words_app, !rx_words_app, !delay_total_app.
    rewrite A1, B1, C1, A2, B2, C2, A3, B3, C3. repeat split.
  - destruct Hr3 as [(_ & Hcon3) | (_ & f & Hcon3)]; rewrite Hcon3;
      cbn; lia.
Qed.

(** ** Arguments the adapter operations turn down or ignore *)

(** X18.  [tegra_i2c_read] and [tegra_i2c_write] accept register addresses
    of one or two bytes only: for any other [alen] they return 1 at once,
    whether or not the controller is initialized, without an event and
    without a change to the state. *)
Theorem adapter_rejects_address_width (adap : i2c_adapter)
    (chip addr alen buffer len data : Z) (s : state) :
  alen <> 1 -> alen <> 2 ->
  tegra_i2c_read adap chip addr alen buffer len data s
    = {| value := 1; final := s; events := [] |} /\
  tegra_i2c_write adap chip addr alen buffer len data s
    = {| value := 1; final := s; events := [] |}.
Proof.
  intros H1 H2.
  assert (Hok : i2c_addr_ok addr alen = false).
  { unfold i2c_addr_ok. destruct (Z.eqb_spec alen 1); [contradiction|].
    destruct (Z.eqb_spec alen 2); [contradiction | reflexivity]. }
  unfold tegra_i2c_read, tegra_i2c_write, tegra_i2c_get_bus, deref_bus, bind.
  cbn [ret value final events app].
  destruct (truthy (inited (nth (Z.to_nat (hwadapnr adap))
                              (i2c_controllers s) zero_bus)));
    cbn [ret value final events app]; rewrite ?Hok; split; reflexivity.
Qed.

Lemma tegra_i2c_write_loop_count (b : i2c_bus)
    (chip addr alen buffer data : Z) :
  wrap32 (I2C_IS_WRITE h) <> 0 ->
  alen = 1 \/ alen = 2 ->
  forall n offset s,
    let o := tegra_i2c_write_loop b chip addr alen buffer data n offset s in
    let hdr :=
      header_words b
        {| address := wrap32 (Z.shiftl chip 1); buf := data;
           flags := wrap32 (I2C_IS_WRITE h); num_bytes := alen + 1;
           is_10bit_address := 0 |} 1 in
    exists ws,
      tx_words (control b) (events o) = flat_map (fun w => hdr ++ [w]) ws /\
      (length ws <= n)%nat /\
      ((0 < n)%nat -> (0 < length ws)%nat) /\
      (value o = 0 -> length ws = n).
Proof.
  intros HW Hal. induction n as [|n IH]; intros offset s.
  - cbn. exists []. split; [reflexivity|]. split; [cbn; lia|].
    split; [lia | reflexivity].
  - cbv zeta. rewrite tegra_i2c_write_loop_step. cbv zeta.
    set (m1 := fill_address (mem s) data alen (wrap32 (addr + offset)) 0
                 (Z.to_nat alen)).
    set (s1 := with_mem s (store8 m1 (data + alen) (m1 (buffer + offset)))).
    destruct (short_write_effects b chip data (alen + 1) s1 HW ltac:(lia))
      as (_ & _ & _ & Htx1 & _).
    set (o1 := i2c_write_data b chip data (alen + 1) s1) in *.
    set (w0 := load_u32 (mem s1) data) in *.
    destruct (truthy (value o1)).
    + cbn [value events]. exists [w0]. cbn [flat_map length].
      rewrite app_nil_r. split; [exact Htx1|]. split; [lia|].
      split; [lia | discriminate].
    + destruct (IH (offset + 1) (final o1)) as (ws & Htx2 & Hlen & _ & Hall).
      cbn [value events]. rewrite tx_words_app, Htx1, Htx2.
      exists (w0 :: ws). cbn [flat_map length].
      split; [reflexivity|]. split; [lia|]. split; [lia|].
      intros H0. f_equal. auto.
Qed.

Lemma tegra_i2c_read_loop_starts (b : i2c_bus)
    (chip addr alen buffer data : Z) (n : nat) (offset : Z) (s : state) :
  wrap32 (I2C_IS_WRITE h) <> 0 ->
  alen = 1 \/ alen = 2 ->
  let o := tegra_i2c_read_loop b chip addr alen buffer data (S n) offset s in
  let hdr :=
    header_words b
      {| address := wrap32 (Z.shiftl chip 1); buf := data;
         flags := wrap32 (I2C_IS_WRITE h); num_bytes := alen;
         is_10bit_address := 0 |} 1 in
  exists w rest, tx_words (control b) (events o) = hdr ++ w :: rest.
Proof.
  intros HW Hal.
  assert (Hta : truthy alen = true) by (destruct Hal; subst; reflexivity).
  cbv zeta. rewrite tegra_i2c_read_loop_step by assumption. cbv zeta.
  set (m1 := fill_address (mem s) data alen (wrap32 (addr + offset)) 0
               (Z.to_nat alen)).
  destruct (short_write_effects b chip data alen (with_mem s m1) HW
              ltac:(lia)) as (_ & _ & _ & Htx1 & _).
  set (o1 := i2c_write_data b chip data alen (with_mem s m1)) in *.
  destruct (truthy (value o1)).
  - cbn [events]. rewrite Htx1. eexists _, []. reflexivity.
  - destruct (truthy (value (i2c_read_data b chip (buffer + offset) 1
                               (final o1))));
      cbn [events]; rewrite tx_words_app, Htx1, <- app_assoc;
      eexists _, _; reflexivity.
Qed.

(** X19.  The lengths of [tegra_i2c_read] and [tegra_i2c_write] count
    modulo 2^32, because the loop compares an unsigned offset with them: on
    an initialized controller with a valid address width, a length that is 0
    modulo 2^32 transfers nothing (result 0, no event, state unchanged),
    while any other length, a negative one included, is not turned down: the
    first packet goes out, and the operation can return 0 only after [len
    mod 2^32] packets (for a write) or received bytes (for a read). *)
Theorem adapter_length_modulo (adap : i2c_adapter)
    (chip addr alen buffer len data : Z) (s : state) :
  let b := nth (Z.to_nat (hwadapnr adap)) (i2c_controllers s) zero_bus in
  inited b <> 0 ->
  i2c_addr_ok addr alen = true ->
  wrap32 (I2C_IS_WRITE h) <> 0 ->
  let c := control b in
  let ow := tegra_i2c_write adap chip addr alen buffer len data s in
  let or := tegra_i2c_read adap chip addr alen buffer len data s in
  let hdr k :=
    header_words b
      {| address := wrap32 (Z.shiftl chip 1); buf := data;
         flags := wrap32 (I2C_IS_WRITE h); num_bytes := k;
         is_10bit_address := 0 |} 1 in
  (wrap32 len = 0 ->
   ow = {| value := 0; final := s; events := [] |} /\
   or = {| value := 0; final := s; events := [] |}) /\
  (wrap32 len <> 0 ->
   (exists w rest, tx_words c (events ow) = hdr (alen + 1) ++ w :: rest) /\
   (exists w rest, tx_words c (events or) = hdr alen ++ w :: rest)) /\
  (value ow = 0 ->
   exists ws,
     tx_words c (events ow) = flat_map (fun w => hdr (alen + 1) ++ [w]) ws /\
     Z.of_nat (length ws) = wrap32 len) /\
  (value or = 0 -> Z.of_nat (length (rx_words c (events or))) = wrap32 len).
Proof.
  intros b Hi Hok HW c ow or hdr.
  assert (Hib : truthy (inited b) = true).
  { unfold truthy. destruct (Z.eqb_spec (inited b) 0); [contradiction|].
    reflexivity. }
  pose proof (i2c_addr_ok_cases _ _ Hok) as Hal.
  assert (Hr : 0 <= wrap32 len < 2 ^ 32)
    by (apply Z.mod_pos_bound; lia).
  assert (How : ow = tegra_i2c_write_loop b chip addr alen buffer data
                       (Z.to_nat (wrap32 len)) 0 s).
  { unfold ow, tegra_i2c_write, tegra_i2c_get_bus, deref_bus, bind.
    cbn [ret value final events]. fold b. rewrite Hib.
    cbn [ret value final events]. fold b. rewrite Hok.
    destruct (tegra_i2c_write_loop b chip addr alen buffer data
                (Z.to_nat (wrap32 len)) 0 s). reflexivity. }
  assert (Hor : or = tegra_i2c_read_loop b chip addr alen buffer data
                       (Z.to_nat (wrap32 len)) 0 s).
  { unfold or, tegra_i2c_read, tegra_i2c_get_bus, deref_bus, bind.
    cbn [ret value final events]. fold b. rewrite Hib.
    cbn [ret value final events]. fold b. rewrite Hok.
    destruct (tegra_i2c_read_loop b chip addr alen buffer data
                (Z.to_nat (wrap32 len)) 0 s). reflexivity. }
  destruct (tegra_i2c_write_loop_count b chip addr alen buffer data HW Hal
              (Z.to_nat (wrap32 len)) 0 s) as (ws & Htx & Hle & Hpos & Hall).
  destruct (tegra_i2c_read_loop_bytes b chip addr alen buffer data HW Hal
              (Z.to_nat (wrap32 len)) 0 s) as (_ & Hrall & _).
  cbv zeta in Htx, Hall, Hrall.
  rewrite How, Hor. unfold c, hdr.
  split; [|split; [|split]].
  - intros H0. rewrite H0. split; reflexivity.
  - intros Hne.
    destruct (Z.to_nat (wrap32 len)) as [|n] eqn:En; [lia|].
    split.
    + destruct ws as [|w ws]; [cbn in Hpos; lia|].
      eexists w, _.
      rewrite Htx. cbn [flat_map].
      rewrite <- app_assoc. reflexivity.
    + exact (tegra_i2c_read_loop_starts b chip addr alen buffer data n 0 s
               HW Hal).
  - intros H0. exists ws. split; [exact Htx|]. rewrite (Hall H0). lia.
  - intros H0. rewrite (Hrall H0). lia.
Qed.

End Driver.

Arguments value {dev A} _.
Arguments final {dev A} _.
Arguments events {dev A} _.

(** ** The theorems at work on the instances *)

Lemma send_recv_packets_word_count_witness :
  let trans := write_desc 4097 5 in
  let s := start_state nack_dev tt [bus0] in
  let o := send_recv_packets tegra_h nack_dev bus0 trans s in
  let write := is_write_transfer tegra_h trans in
  let n := word_count trans in
  let seen := samples (fifo_status 4096) (events o) in
  let r := ready_polls tegra_h 4096 write (events o) in
  (exists w1 w2 w3 payload,
     (if write
      then tx_words 4096 (events o) = w1 :: w2 :: w3 :: payload /\
           rx_words 4096 (events o) = []
      else tx_words 4096 (events o) = [w1; w2; w3] /\
           rx_words 4096 (events o) = payload) /\
     4 * (Z.of_nat n - 1) < 5 <= 4 * Z.of_nat n /\
     (r <= n)%nat /\
     length payload = (if write then Nat.min n (S r) else r) /\
     (length payload <= n)%nat /\
     (r = n -> length payload = n) /\
     ((r < n)%nat ->
      value o = -1 /\
      exists pre stall,
        seen = pre ++ stall /\ length stall = budget tegra_h /\
        Forall (fun v => fifo_ready_sample tegra_h write v = None) stall) /\
     (value o = 0 -> length payload = n)) /\
  write = true /\ n = 2%nat /\ r = 2%nat /\ value o = -1 /\
  length (tx_words 4096 (events o)) = 5%nat.
Proof.
  split.
  - exact (send_recv_packets_word_count tegra_h nack_dev bus0
             (write_desc 4097 5) (start_state nack_dev tt [bus0])
             ltac:(cbn; lia)).
  - vm_compute. repeat split.
Defined.

(** C1 as stated fails.  On a device whose transmit FIFO never drains, a
    write of 8 bytes performs one payload word operation (the transmit FIFO
    receives the three header words and one payload word) although
    [ceil(8/4) = 2]; the transaction returns -1. *)
Lemma send_recv_packets_stalls_early :
  let o :=
    send_recv_packets tegra_h stuck_dev bus0 (write_desc 4097 8)
      (start_state stuck_dev tt [bus0]) in
  value o = -1 /\
  tx_words 4096 (events o) = [65552; 7; 160; 67305985] /\
  rx_words 4096 (events o) = [] /\
  DIV_ROUND_UP 8 4 = 2.
Proof. vm_compute. repeat split. Qed.

Lemma final_word_transfer_witness :
  let s := start_state ideal_dev tt [bus0] in
  (let trans := read_desc 8193 5 in
   let o := send_recv_packets tegra_h ideal_dev bus0 trans s in
   let r :=
     Z.of_nat (ready_polls tegra_h 4096 (is_write_transfer tegra_h trans)
                 (events o)) in
   let final_tx :=
     nth_error (skipn 3 (tx_words 4096 (events o))) (Z.to_nat (2 - 1)) in
   let final_rx := nth_error (rx_words 4096 (events o)) (Z.to_nat (2 - 1)) in
   (value o = 0 -> r = 2) /\
   if is_write_transfer tegra_h trans then
     mem (final o) = mem s /\
     (2 - 1 <= r <-> exists w, final_tx = Some w) /\
     forall w,
       final_tx = Some w ->
       u32_bytes w = read_bytes (mem s) (8193 + 4 * (2 - 1)) 4
   else
     (forall a, a < 8193 \/ 8193 + 5 <= a -> mem (final o) a = mem s a) /\
     (2 <= r <-> exists v, final_rx = Some v) /\
     forall v,
       final_rx = Some v ->
       forall i, 0 <= i < (if 5 mod 4 =? 0 then 4 else 5 mod 4) ->
                 mem (final o) (8193 + 4 * (2 - 1) + i)
                 = byte_of_Z (Z.shiftr v (8 * i))) /\
  (let o := send_recv_packets tegra_h ideal_dev bus0 (read_desc 8193 5) s in
   value o = 0 /\
   rx_words 4096 (events o) = [1144201745; 1144201745] /\
   byte_val (mem (final o) 8196) = 68 /\
   byte_val (mem (final o) 8197) = 17 /\
   byte_val (mem s 8197) = 5 /\
   byte_val (mem (final o) 8198) = 6 /\
   byte_val (mem s 8198) = 6) /\
  (let o := send_recv_packets tegra_h ideal_dev bus0 (write_desc 8193 5) s in
   value o = 0 /\
   map u32_bytes (skipn 3 (tx_words 4096 (events o)))
   = [read_bytes ramp 8193 4; read_bytes ramp 8197 4]).
Proof.
  split; [|split].
  - exact (final_word_transfer tegra_h ideal_dev bus0 (read_desc 8193 5)
             (start_state ideal_dev tt [bus0]) 2
             ltac:(cbn; lia) ltac:(cbn; lia)).
  - vm_compute. repeat split.
  - vm_compute. repeat split.
Defined.

Lemma send_packet_headers_three_words_witness :
  let fifo := tx_fifo 4096 in
  let trans := write_desc 4097 3 in
  let s := start_state ideal_dev tt [bus0] in
  (exists w1 w2 w3,
     events (send_packet_headers tegra_h ideal_dev bus0 trans 1 s) =
       [EvWritel w1 fifo; EvWritel w2 fifo; EvWritel w3 fifo] /\
     w2 = wrap32 (Z.shiftl (wrap32 (3 - 1)) 0) /\
     w3 = Z.lor (wrap32 (Z.shiftl 160 0)) (Z.land w3 (wrap32 (2 ^ 19))) /\
     Z.land w3 (wrap32 (2 ^ 19)) =
       (if truthy (Z.land 1 1) then 0 else wrap32 (2 ^ 19))) /\
  (forall buffer s0,
     exists v w1 rest,
       events (i2c_write_data tegra_h ideal_dev bus0 80 buffer 3 s0) =
       EvReadl (int_status 4096) v :: EvWritel v (int_status 4096) ::
       EvWritel w1 fifo :: EvWritel (wrap32 (Z.shiftl 2 0)) fifo ::
       EvWritel (wrap32 (Z.shiftl 160 0)) fifo :: rest /\
       Z.land (wrap32 (Z.shiftl 160 0)) (wrap32 (2 ^ 19)) = 0).
Proof.
  exact (send_packet_headers_three_words tegra_h ideal_dev bus0
           (write_desc 4097 3) 1 (start_state ideal_dev tt [bus0])
           ltac:(cbn; lia) eq_refl ltac:(discriminate) ltac:(cbn; lia)).
Defined.

Lemma transfer_complete_report_witness :
  let error_bit v := status_bit v (2 ^ 3) || status_bit v (2 ^ 2) in
  let complete_bit v := status_bit v (2 ^ 7) in
  (let o :=
     wait_for_transfer_complete tegra_h nack_dev 4096
       (start_state nack_dev tt [bus0]) in
   let seen := samples (int_status 4096) (events o) in
   (exists pre v,
      seen = pre ++ [v] /\ error_bit v = true /\
      value o = neg_int (to_int v) /\ value o <> 0 /\ value o <> -1) \/
   (exists pre v,
      seen = pre ++ [v] /\ error_bit v = false /\ complete_bit v = true /\
      value o = 0) \/
   (value o = -1 /\ length seen = budget tegra_h /\
    Forall (fun v => error_bit v = false /\ complete_bit v = false) seen)) /\
  (let o :=
     send_recv_packets tegra_h nack_dev bus0 (write_desc 4097 1)
       (start_state nack_dev tt [bus0]) in
   let seen := samples (int_status 4096) (events o) in
   (value o = 0 \/ value o = -1) /\
   (value o = 0 ->
    exists pre v,
      seen = pre ++ [v] /\ error_bit v = false /\ complete_bit v = true)).
Proof.
  exact (transfer_complete_report tegra_h nack_dev bus0 (write_desc 4097 1)
           (start_state nack_dev tt [bus0]) (start_state nack_dev tt [bus0])
           4096 eq_refl eq_refl).
Defined.

(** C4 as stated fails.  When the target does not acknowledge, the poll
    returns the negated snapshot (-8), but the caller of the transfer gets
    -1, the very value it gets when the poll times out. *)
Lemma send_recv_packets_flattens_errors :
  value (wait_for_transfer_complete tegra_h nack_dev 4096
           (start_state nack_dev tt [bus0])) = -8 /\
  value (send_recv_packets tegra_h nack_dev bus0 (write_desc 4097 1)
           (start_state nack_dev tt [bus0])) = -1 /\
  value (wait_for_transfer_complete tegra_h silent_dev 4096
           (start_state silent_dev tt [bus0])) = -1 /\
  value (send_recv_packets tegra_h silent_dev bus0 (write_desc 4097 1)
           (start_state silent_dev tt [bus0])) = -1.
Proof. vm_compute. repeat split. Qed.

Lemma uninitialized_bus_untouched_witness :
  let s := start_state ideal_dev tt [bus0_uninited] in
  tegra_i2c_read tegra_h ideal_dev adap0 80 258 2 30000 2 20000 s
    = {| value := 1; final := s; events := [] |} /\
  tegra_i2c_write tegra_h ideal_dev adap0 80 258 1 30000 2 20000 s
    = {| value := 1; final := s; events := [] |} /\
  tegra_i2c_probe tegra_h ideal_dev adap0 80 20000 s
    = {| value := 1; final := s; events := [] |} /\
  tegra_i2c_set_bus_speed tegra_h ideal_dev adap0 400000 s
    = {| value := 0; final := s; events := [] |}.
Proof.
  intros s.
  destruct (uninitialized_bus_untouched tegra_h ideal_dev adap0 s
              80 258 2 30000 2 20000 20000 400000 eq_refl)
    as (Hr & _ & Hp & Hs).
  destruct (uninitialized_bus_untouched tegra_h ideal_dev adap0 s
              80 258 1 30000 2 20000 20000 400000 eq_refl)
    as (_ & Hw & _ & _).
  repeat split; assumption.
Defined.

(** C6 as stated fails for [set_speed].  On an uninitialized controller
    [tegra_i2c_set_bus_speed] returns 0, the value it also returns on an
    initialized one after reprogramming it: no error is reported. *)
Lemma set_bus_speed_reports_no_error :
  value (tegra_i2c_set_bus_speed tegra_h ideal_dev adap0 400000
           (start_state ideal_dev tt [bus0_uninited])) = 0 /\
  value (tegra_i2c_set_bus_speed tegra_h ideal_dev adap0 400000
           (start_state ideal_dev tt [bus0])) = 0 /\
  events (tegra_i2c_set_bus_speed tegra_h ideal_dev adap0 400000
            (start_state ideal_dev tt [bus0])) <> [].
Proof. vm_compute. repeat split. discriminate. Qed.

Lemma wait_for_rx_fifo_notempty_count_witness :
  let count v :=
    Z.shiftr (Z.land v (TX_FIFO_FULL_CNT_MASK tegra_h))
             (TX_FIFO_FULL_CNT_SHIFT tegra_h) in
  let with_tx_field v x :=
    Z.lor (Z.land v (Z.lnot (TX_FIFO_EMPTY_CNT_MASK tegra_h)))
          (Z.land x (TX_FIFO_EMPTY_CNT_MASK tegra_h)) in
  (let s := start_state tx_count_dev tt [bus0] in
   let o := wait_for_rx_fifo_notempty tegra_h tx_count_dev 4096 s in
   let seen := samples (fifo_status 4096) (events o) in
   ((value o = 1 /\
     exists pre v,
       seen = pre ++ [v] /\ count v <> 0 /\
       (length pre < budget tegra_h)%nat /\
       Forall (fun u => count u = 0) pre) \/
    (value o = 0 /\ length seen = budget tegra_h /\
     Forall (fun u => count u = 0) seen)) /\
   Forall (fun e =>
             e = EvUdelay 10 \/ exists v, e = EvReadl (fifo_status 4096) v)
          (events o) /\
   (forall v x,
      count (with_tx_field v x) = count v /\
      rx_fifo_notempty_sample tegra_h (with_tx_field v x)
      = rx_fifo_notempty_sample tegra_h v) /\
   mem (final o) = mem s /\
   i2c_controllers (final o) = i2c_controllers s) /\
  (let o :=
     wait_for_rx_fifo_notempty tegra_h tx_count_dev 4096
       (start_state tx_count_dev tt [bus0]) in
   value o = 1 /\ events o = [EvReadl (fifo_status 4096) 1]) /\
  (let o :=
     wait_for_rx_fifo_notempty tegra_h other_bits_dev 4096
       (start_state other_bits_dev tt [bus0]) in
   value o = 0 /\
   samples (fifo_status 4096) (events o) = repeat 4294967280 1001).
Proof.
  split; [|split].
  - exact (wait_for_rx_fifo_notempty_count tegra_h tx_count_dev 4096
             (start_state tx_count_dev tt [bus0]) eq_refl).
  - vm_compute. repeat split.
  - vm_compute. repeat split.
Defined.


Lemma tegra_i2c_probe_is_a_write_witness :
  let s := start_state nack_dev tt [bus0] in
  let s0 := with_mem nack_dev s (store8 (mem s) 20000 Byte.x00) in
  let ow := i2c_write_data tegra_h nack_dev bus0 80 20000 1 s0 in
  let o := tegra_i2c_probe tegra_h nack_dev adap0 80 20000 s in
  value o = (if value ow =? 0 then 0 else 1) /\
  events o = events ow /\
  final o = final ow /\
  exists v w1 w rest,
    events ow =
      EvReadl (int_status 4096) v :: EvWritel v (int_status 4096) ::
      EvWritel w1 (tx_fifo 4096) :: EvWritel 0 (tx_fifo 4096) ::
      EvWritel (wrap32 (Z.shiftl (wrap32 (Z.shiftl 80 1)) 0)) (tx_fifo 4096) ::
      EvWritel w (tx_fifo 4096) :: rest /\
    w mod 256 = 0.
Proof.
  exact (tegra_i2c_probe_is_a_write tegra_h nack_dev adap0 80 20000
           (start_state nack_dev tt [bus0])
           ltac:(discriminate) ltac:(discriminate)).
Defined.

Lemma send_recv_packets_zero_length_witness :
  let trans := write_desc 4097 0 in
  let s := start_state ideal_dev tt [bus0] in
  let o := send_recv_packets tegra_h ideal_dev bus0 trans s in
  let wait :=
    wait_for_transfer_complete tegra_h ideal_dev 4096
      (after_prologue tegra_h ideal_dev bus0 trans s) in
  exists v w1 w3 tail,
    events o =
      [EvReadl (int_status 4096) v; EvWritel v (int_status 4096);
       EvWritel w1 (tx_fifo 4096);
       EvWritel (wrap32 (Z.shiftl 4294967295 0)) (tx_fifo 4096);
       EvWritel w3 (tx_fifo 4096)]
      ++ events wait ++ tail /\
    tx_words 4096 (events o) =
      [w1; wrap32 (Z.shiftl 4294967295 0); w3] /\
    rx_words 4096 (events o) = [] /\
    ((value o = 0 /\ value wait = 0 /\ tail = []) \/
     (value o = -1 /\ value wait <> 0 /\
      exists sl, tail = recovery_events tegra_h bus0 sl)).
Proof.
  exact (send_recv_packets_zero_length tegra_h ideal_dev bus0
           (write_desc 4097 0) (start_state ideal_dev tt [bus0]) eq_refl).
Defined.

(** ** The further properties at work on the instances *)

Lemma send_recv_packets_frame_witness :
  let trans := read_desc 8193 5 in
  let s := start_state ideal_dev tt [bus0] in
  let o := send_recv_packets tegra_h ideal_dev bus0 trans s in
  let c := control bus0 in
  i2c_controllers (final o) = i2c_controllers s /\
  (value o = 0 \/ value o = -1) /\
  (forall a, a < buf trans \/ buf trans + num_bytes trans <= a ->
             mem (final o) a = mem s a) /\
  (if is_write_transfer tegra_h trans
   then mem (final o) = mem s /\ rx_words c (events o) = []
   else tx_words c (events o) = header_words tegra_h bus0 trans 1).
Proof.
  exact (send_recv_packets_frame tegra_h ideal_dev bus0 (read_desc 8193 5)
           (start_state ideal_dev tt [bus0]) ltac:(cbn; lia)).
Defined.

Lemma i2c_read_data_bytes_witness :
  let s := start_state ideal_dev tt [bus0] in
  let o := i2c_read_data tegra_h ideal_dev bus0 80 8193 5 s in
  let vs := rx_words (control bus0) (events o) in
  length (tx_words (control bus0) (events o)) = 3%nat /\
  (forall a, a < 8193 \/ 8193 + 5 <= a -> mem (final o) a = mem s a) /\
  (value o = 0 ->
   Z.of_nat (length vs) = (5 + 3) / 4 /\
   forall i, 0 <= i < 5 ->
     mem (final o) (8193 + i)
     = byte_of_Z (Z.shiftr (nth (Z.to_nat (i / 4)) vs 0) (8 * (i mod 4)))).
Proof.
  exact (i2c_read_data_bytes tegra_h ideal_dev bus0 80 8193 5
           (start_state ideal_dev tt [bus0]) ltac:(lia)).
Defined.

Lemma fill_address_big_endian_witness :
  let m' := fill_address ramp 20000 2 258 0 (Z.to_nat 2) in
  (forall j, 0 <= j < 2 ->
             m' (20000 + j) = byte_of_Z (Z.shiftr 258 (8 * (2 - 1 - j)))) /\
  (forall a, a < 20000 \/ 20000 + 2 <= a -> m' a = ramp a) /\
  (2 = 1 -> byte_val (m' 20000) = 258 mod 2 ^ 8) /\
  (2 = 2 ->
   2 ^ 8 * byte_val (m' 20000) + byte_val (m' (20000 + 1)) = 258 mod 2 ^ 16).
Proof.
  exact (fill_address_big_endian ramp 20000 2 258 ltac:(lia)).
Defined.

Lemma tegra_i2c_write_packets_witness :
  let s := start_state ideal_dev tt [bus0] in
  let o := tegra_i2c_write tegra_h ideal_dev adap0 80 258 2 30000 3 20000 s in
  let hdr :=
    header_words tegra_h bus0
      {| address := wrap32 (Z.shiftl 80 1); buf := 20000;
         flags := wrap32 (I2C_IS_WRITE tegra_h); num_bytes := 2 + 1;
         is_10bit_address := 0 |} 1 in
  rx_words (control bus0) (events o) = [] /\
  exists ws,
    tx_words (control bus0) (events o) = flat_map (fun w => hdr ++ [w]) ws /\
    Z.of_nat (length ws) <= 3 /\
    (value o = 0 -> Z.of_nat (length ws) = 3) /\
    forall j w,
      nth_error ws j = Some w ->
      (forall i, 0 <= i < 2 ->
         nth (Z.to_nat i) (u32_bytes w) Byte.x00
         = byte_of_Z (Z.shiftr (wrap32 (258 + Z.of_nat j))
                               (8 * (2 - 1 - i)))) /\
      nth (Z.to_nat 2) (u32_bytes w) Byte.x00
      = mem s (30000 + Z.of_nat j).
Proof.
  exact (tegra_i2c_write_packets tegra_h ideal_dev adap0 80 258 2 30000 3
           20000 (start_state ideal_dev tt [bus0])
           ltac:(cbn; discriminate) eq_refl ltac:(cbn; discriminate)
           ltac:(lia) ltac:(intros; lia)).
Defined.

Lemma tegra_i2c_read_bytes_witness :
  let s := start_state ideal_dev tt [bus0] in
  let o := tegra_i2c_read tegra_h ideal_dev adap0 80 258 2 30000 3 20000 s in
  let vs := rx_words (control bus0) (events o) in
  Z.of_nat (length vs) <= 3 /\
  (value o = 0 -> Z.of_nat (length vs) = 3) /\
  forall i,
    0 <= i < Z.of_nat (length vs) ->
    30000 + i < 20000 \/ 20000 + 2 <= 30000 + i ->
    mem (final o) (30000 + i) = byte_of_Z (nth (Z.to_nat i) vs 0).
Proof.
  exact (tegra_i2c_read_bytes tegra_h ideal_dev adap0 80 258 2 30000 3
           20000 (start_state ideal_dev tt [bus0])
           ltac:(cbn; discriminate) eq_refl ltac:(cbn; discriminate)
           ltac:(lia)).
Defined.

Lemma tegra_i2c_set_bus_speed_effects_witness :
  let s := start_state ideal_dev tt [bus0] in
  let p := Z.to_nat (hwadapnr adap0) in
  let o := tegra_i2c_set_bus_speed tegra_h ideal_dev adap0 400000 s in
  let t' := i2c_controllers (final o) in
  value o = 0 /\
  mem (final o) = mem s /\
  length t' = length (i2c_controllers s) /\
  nth p t' zero_bus = with_speed bus0 (to_int 400000) /\
  (forall q, q <> p -> nth q t' zero_bus = nth q (i2c_controllers s) zero_bus) /\
  events o =
    events (i2c_init_controller tegra_h ideal_dev
              (with_speed bus0 (to_int 400000)) s) /\
  hd_error (events o) =
    Some (EvClockStart (periph_id bus0) (CLOCK_ID_PERIPH tegra_h)
            (wrap32 (400000 * 16))).
Proof.
  exact (tegra_i2c_set_bus_speed_effects tegra_h ideal_dev adap0 400000
           (start_state ideal_dev tt [bus0])
           ltac:(cbn; discriminate) ltac:(cbn; lia)).
Defined.

Lemma i2c_get_config_effects_witness :
  let s := start_state ideal_dev tt [bus0] in
  let o := i2c_get_config ideal_dev tegra_board sample_blob 3 0 s in
  let b := nth 0 (i2c_controllers s) zero_bus in
  let b' := nth 0 (i2c_controllers (final o)) zero_bus in
  value o = (if to_int (fdt_periph_id sample_blob 3) =? -1
             then neg_int (FDT_ERR_NOTFOUND tegra_board) else 0) /\
  events o = [] /\ mem (final o) = mem s /\ hw (final o) = hw s /\
  b' = with_config b (fdt_reg sample_blob 3) (FUNCMUX_DEFAULT tegra_board)
         (to_int (fdt_clock_frequency sample_blob 3))
         (to_int (fdt_periph_id sample_blob 3)) /\
  (id b' = id b /\ control b' = control b /\ is_dvc b' = is_dvc b /\
   is_scs b' = is_scs b /\ inited b' = inited b) /\
  length (i2c_controllers (final o)) = length (i2c_controllers s) /\
  forall q, q <> 0%nat ->
    nth q (i2c_controllers (final o)) zero_bus
    = nth q (i2c_controllers s) zero_bus.
Proof.
  exact (i2c_get_config_effects ideal_dev tegra_board sample_blob 3 0
           (start_state ideal_dev tt [bus0]) ltac:(cbn; lia)).
Defined.

Lemma process_nodes_frame_witness :
  let s := start_state ideal_dev tt [zero_bus; zero_bus; zero_bus; bus0] in
  let nl := [1; 0; 2; 5] in
  let o := process_nodes tegra_h ideal_dev tegra_board sample_blob nl 3 0 0 s in
  let t := i2c_controllers s in
  let t' := i2c_controllers (final o) in
  let nl' := nodes_list (value o) in
  mem (final o) = mem s /\ length t' = length t /\ length nl' = length nl /\
  (forall c, tx_words c (events o) = [] /\ rx_words c (events o) = [] /\
             delay_total (events o) = 0) /\
  (forall k, (Z.to_nat 3 <= k)%nat ->
     nth k t' zero_bus = nth k t zero_bus /\ nth k nl' 0 = nth k nl 0) /\
  (forall k,
     (inited (nth k t' zero_bus) = inited (nth k t zero_bus) \/
      inited (nth k t' zero_bus) = 1) /\
     (nth k nl' 0 = nth k nl 0 \/ nth k nl' 0 = -1)).
Proof.
  exact (process_nodes_frame tegra_h ideal_dev tegra_board sample_blob
           [1; 0; 2; 5] 3 0 0
           (start_state ideal_dev tt [zero_bus; zero_bus; zero_bus; bus0])
           ltac:(vm_compute; discriminate) ltac:(cbn; lia)).
Defined.

Lemma process_nodes_result_witness :
  let s := start_state ideal_dev tt [zero_bus; zero_bus; zero_bus; bus0] in
  let nl := [1; 0; 3; 5] in
  let o := process_nodes tegra_h ideal_dev tegra_board sample_blob nl 4 0 0 s in
  let t := i2c_controllers s in
  let t' := i2c_controllers (final o) in
  let nl' := nodes_list (value o) in
  (nodes_rc (value o) = 0 /\ nodes_console (value o) = [] /\
   forall k, (k < Z.to_nat 4)%nat ->
     node_processed tegra_board sample_blob 0 0 t t' nl nl' k)
  \/
  (nodes_rc (value o) = -1 /\
   exists f,
     nodes_console (value o) = [Z.of_nat f] /\
     (f < Z.to_nat 4)%nat /\
     0 < nth f nl 0 /\
     to_int (fdt_periph_id sample_blob (nth f nl 0)) = -1 /\
     inited (nth f t' zero_bus) = inited (nth f t zero_bus) /\
     nth f nl' 0 = nth f nl 0 /\
     (forall k, (k < f)%nat ->
        node_processed tegra_board sample_blob 0 0 t t' nl nl' k) /\
     (forall k, (f < k)%nat ->
        nth k t' zero_bus = nth k t zero_bus /\ nth k nl' 0 = nth k nl 0)).
Proof.
  exact (process_nodes_result tegra_h ideal_dev tegra_board sample_blob
           [1; 0; 3; 5] 4 0 0
           (start_state ideal_dev tt [zero_bus; zero_bus; zero_bus; bus0])
           ltac:(vm_compute; discriminate) ltac:(cbn; lia)).
Defined.

Lemma i2c_init_board_frame_witness :
  let s :=
    start_state ideal_dev tt [zero_bus; zero_bus; zero_bus; zero_bus] in
  let o :=
    i2c_init_board tegra_h ideal_dev tegra_board sample_blob sample_aliases
      [7; 7; 7; 7] s in
  mem (final o) = mem s /\
  table_grown (i2c_controllers s) (i2c_controllers (final o)) /\
  (forall c, tx_words c (events o) = [] /\ rx_words c (events o) = [] /\
             delay_total (events o) = 0) /\
  (length (value o) <= 1)%nat.
Proof.
  exact (i2c_init_board_frame tegra_h ideal_dev tegra_board sample_blob
           sample_aliases [7; 7; 7; 7]
           (start_state ideal_dev tt [zero_bus; zero_bus; zero_bus; zero_bus])
           ltac:(vm_compute; discriminate)
           ltac:(intros [] nl; cbn; lia)
           ltac:(intros [] nl; cbn; lia)).
Defined.

Lemma adapter_rejects_address_width_witness :
  let s := start_state ideal_dev tt [bus0] in
  tegra_i2c_read tegra_h ideal_dev adap0 80 258 3 30000 2 20000 s
    = {| value := 1; final := s; events := [] |} /\
  tegra_i2c_write tegra_h ideal_dev adap0 80 258 3 30000 2 20000 s
    = {| value := 1; final := s; events := [] |}.
Proof.
  exact (adapter_rejects_address_width tegra_h ideal_dev adap0 80 258 3
           30000 2 20000 (start_state ideal_dev tt [bus0])
           ltac:(lia) ltac:(lia)).
Defined.

Lemma adapter_length_modulo_witness :
  let s := start_state nack_dev tt [bus0] in
  let c := control bus0 in
  let ow := tegra_i2c_write tegra_h nack_dev adap0 80 258 2 30000 (-1) 20000 s in
  let or := tegra_i2c_read tegra_h nack_dev adap0 80 258 2 30000 (-1) 20000 s in
  let hdr k :=
    header_words tegra_h bus0
      {| address := wrap32 (Z.shiftl 80 1); buf := 20000;
         flags := wrap32 (I2C_IS_WRITE tegra_h); num_bytes := k;
         is_10bit_address := 0 |} 1 in
  ((wrap32 (-1) = 0 ->
    ow = {| value := 0; final := s; events := [] |} /\
    or = {| value := 0; final := s; events := [] |}) /\
   (wrap32 (-1) <> 0 ->
    (exists w rest, tx_words c (events ow) = hdr (2 + 1) ++ w :: rest) /\
    (exists w rest, tx_words c (events or) = hdr 2 ++ w :: rest)) /\
   (value ow = 0 ->
    exists ws,
      tx_words c (events ow) = flat_map (fun w => hdr (2 + 1) ++ [w]) ws /\
      Z.of_nat (length ws) = wrap32 (-1)) /\
   (value or = 0 ->
    Z.of_nat (length (rx_words c (events or))) = wrap32 (-1))) /\
  wrap32 (-1) = 4294967295 /\
  value ow = 1 /\ length (tx_words c (events ow)) = 4%nat /\
  value or = 1 /\ length (tx_words c (events or)) = 4%nat.
Proof.
  split.
  - exact (adapter_length_modulo tegra_h nack_dev adap0 80 258 2 30000 (-1)
             20000 (start_state nack_dev tt [bus0])
             ltac:(cbn; discriminate) eq_refl ltac:(cbn; discriminate)).
  - lazy. repeat split.
Defined.
